(** * dgisim: a shallow embedding of the game engine's core rules

    The development follows the Python sources module by module:

    - [HashableDict], [Cards]         -- [card/cards.py]
    - [CardSelectPhase]               -- [phase/default/card_select_phase.py]
    - [Status] and its templates      -- [status/status.py]
    - [EventEffect]                   -- [event/effect.py] (the early engine)
    - [Dice]                          -- the dice pool exercised by [tests/test_dices.py]

    Python integers are unbounded, so they are embedded as [Z]; a raised
    exception or a failed [assert] is the [None] of an [option] result.
    Part I holds the embedding, Part II the lemmas and theorems. *)

From Stdlib Require Import ZArith Lia Bool List.
From stdpp Require Import gmap gmultiset strings list fin_maps finite.

Local Open Scope Z_scope.

(** * Part I: the embedding *)

(** ** The enumerations shared by every module *)

(** [state/enums.py]: the player identifier. *)
Inductive Pid := P1 | P2.

Definition Pid_other (pid : Pid) : Pid :=
  match pid with P1 => P2 | P2 => P1 end.

Definition Pid_eqb (a b : Pid) : bool :=
  match a, b with P1, P1 | P2, P2 => true | _, _ => false end.

(** [state/enums.py]: what a player is doing inside a phase. *)
Inductive Act := PASSIVE_WAIT_PHASE | ACTION_PHASE | ACTIVE_WAIT_PHASE | END_PHASE.

(** [element.py] is not among the sources; the members are the ones the
    sources name ([_DAMAGE_ELEMENTS] in [event/effect.py], [Element.OMNI]
    and [Element.ANY] in the dice tests). *)
Inductive Element :=
  | OMNI | PYRO | HYDRO | ANEMO | ELECTRO | DENDRO | CRYO | GEO
  | PHYSICAL | PIERCING | ANY.

Definition Element_eqb (a b : Element) : bool :=
  match a, b with
  | OMNI, OMNI | PYRO, PYRO | HYDRO, HYDRO | ANEMO, ANEMO
  | ELECTRO, ELECTRO | DENDRO, DENDRO | CRYO, CRYO | GEO, GEO
  | PHYSICAL, PHYSICAL | PIERCING, PIERCING | ANY, ANY => true
  | _, _ => false
  end.

#[global] Instance Element_eq_dec : EqDecision Element.
Proof. solve_decision. Defined.

Definition Element_to_nat (e : Element) : nat :=
  match e with
  | OMNI => 0 | PYRO => 1 | HYDRO => 2 | ANEMO => 3 | ELECTRO => 4
  | DENDRO => 5 | CRYO => 6 | GEO => 7 | PHYSICAL => 8 | PIERCING => 9
  | ANY => 10
  end%nat.

Definition Element_of_nat (n : nat) : option Element :=
  match n with
  | 0 => Some OMNI | 1 => Some PYRO | 2 => Some HYDRO | 3 => Some ANEMO
  | 4 => Some ELECTRO | 5 => Some DENDRO | 6 => Some CRYO | 7 => Some GEO
  | 8 => Some PHYSICAL | 9 => Some PIERCING | 10 => Some ANY
  | _ => None
  end%nat.

#[global] Program Instance Element_countable : Countable Element :=
  inj_countable Element_to_nat Element_of_nat _.
Next Obligation. by intros []. Qed.

(** The abstract damage targets of [event/effect.py]. *)
Inductive DynamicCharacterTarget :=
  | SELF_SELF | SELF_ACTIVE | SELF_OFF_FIELD | SELF_ALL | SELF_ABS
  | OPPO_ACTIVE | OPPO_OFF_FIELD.

(** [status/enums.py] *)
Inductive Preprocessables :=
  | SWAP | SWAP_COST_ANY | SWAP_COST_ELEM | SWAP_COST_OMNI
  | SKILL | SKILL_COST_ANY | SKILL_COST_ELEM | SKILL_COST_OMNI
  | CARD1 | CARD2 | CARD1_COST_ANY | CARD2_COST_ANY
  | CARD1_COST_ELEM | CARD2_COST_ELEM | CARD1_COST_OMNI | CARD2_COST_OMNI
  | DMG_ELEMENT | DMG_REACTION | DMG_AMOUNT_PLUS | DMG_AMOUNT_MINUS
  | DMG_AMOUNT_MUL
  | ROLL_CHANCES | ROLL_DICE_INIT.

(** Modelled from the spec: [effect/enums.py] is missing from the sources;
    the signals are the ones section 4.5 of the spec lists. *)
Inductive TriggeringSignal :=
  | ROUND_START | ROUND_END | END_ROUND_CHECK_OUT | PRE_ACTION | POST_ACTION
  | POST_DMG | POST_HEALING | POST_SKILL | ACT_PRE_SKILL | COMBAT_ACTION
  | SELF_SWAP | SWAP_EVENT_1 | SWAP_EVENT_2 | POST_CARD | DEATH_EVENT
  | INIT_GAME_START | REVIVAL_GAME_START | SELF_DECLARE_END_ROUND
  | TRIGGER_REVIVAL | POST_ANY | DIRECT_TRIGGER | POST_STATUS_REMOVAL.

(** Modelled from the spec: the zones of a [StaticTarget] (section 3),
    under the names [status/status.py] uses ([Zone.CHARACTERS]). *)
Inductive Zone := CHARACTERS | COMBAT_STATUSES | SUMMONS | SUPPORTS | HIDDEN_STATUSES.

Definition Zone_eqb (a b : Zone) : bool :=
  match a, b with
  | CHARACTERS, CHARACTERS | COMBAT_STATUSES, COMBAT_STATUSES
  | SUMMONS, SUMMONS | SUPPORTS, SUPPORTS
  | HIDDEN_STATUSES, HIDDEN_STATUSES => true
  | _, _ => false
  end.

(** A card kind is a Python class object ([type[Card]]); [card/card.py] is
    not among the sources, so a kind is identified by its class name. *)
Abbreviation Card := string.

Definition OmniCard : Card := "OmniCard".

(** ** [helper/hashable_dict.py] *)

Module HashableDict.

Section Dict.
Context {K : Type} `{Countable K}.

(** Modelled from the spec: [helper/hashable_dict.py] is missing from the
    sources.  The spec describes the containers built on it as multisets
    with "addition/subtraction as multisets"; [Cards.is_legal] shows that
    a count may be negative, so counts are integers and both operations
    act key by key over the union of the keys, an absent key counting 0.
    [get] is [dict.get(k, 0)]. *)
Definition get (d : gmap K Z) (k : K) : Z := default 0 (d !! k).

Definition __add__ (a b : gmap K Z) : gmap K Z :=
  union_with (fun x y => Some (x + y)) a b.

Definition __sub__ (a b : gmap K Z) : gmap K Z :=
  merge (fun x y =>
           match x, y with
           | None, None => None
           | _, _ => Some (default 0 x - default 0 y)
           end) a b.

(** [d.values()], [sum(d.values())] and [dict(Counter(l))]. *)
Definition values (d : gmap K Z) : list Z := (map_to_list d).*2.

Definition total (d : gmap K Z) : Z := foldr Z.add 0 (values d).

Definition Counter (l : list K) : gmap K Z :=
  foldr (fun k m => <[k := get m k + 1]> m) ∅ l.

(** The sum of [f] over a list of keys (used to state facts on [total]). *)
Definition sum_over (f : K -> Z) (L : list K) : Z :=
  foldr (fun k acc => f k + acc) 0 L.

End Dict.

End HashableDict.

(** ** [card/cards.py] *)

Module Cards.

Abbreviation Cards := (gmap string Z).

Definition from_empty : Cards := ∅.

Definition __getitem__ (self : Cards) (card : Card) : Z :=
  HashableDict.get self card.

Definition __add__ (self other : Cards) : Cards :=
  HashableDict.__add__ self other.

Definition __sub__ (self other : Cards) : Cards :=
  HashableDict.__sub__ self other.

Definition num_cards (self : Cards) : Z := HashableDict.total self.

Definition is_legal (self : Cards) : bool :=
  forallb (fun val => 0 <=? val) (HashableDict.values self).

Definition empty (self : Cards) : bool :=
  forallb (fun value => value =? 0) (HashableDict.values self).

Definition not_empty (self : Cards) : bool :=
  existsb (fun value => 0 <? value) (HashableDict.values self).

(** [pick_random]: [random.sample(keys, counts=values, k=num)] draws [num]
    cards out of the container without replacement.  The random source is
    made explicit: [sample] is the list it returns, and [valid_sample]
    states what the library guarantees about it. *)
Definition pick_random (sample : list Card) (self : Cards) (num : Z)
  : Cards * Cards :=
  let num := Z.min (num_cards self) num in
  if num =? 0 then (self, from_empty)
  else
    let picked_cards := HashableDict.Counter sample in
    (__sub__ self picked_cards, picked_cards).

Definition valid_sample (self : Cards) (k : Z) (sample : list Card) : Prop :=
  Z.of_nat (length sample) = k /\
  forall card, __getitem__ (HashableDict.Counter sample) card <= __getitem__ self card.

Definition contains (self : Cards) (card : Card) : bool :=
  (0 <? __getitem__ self card) || (0 <? __getitem__ self OmniCard).

Definition add (self : Cards) (card : Card) : Cards :=
  __add__ self {[card := 1]}.

(** [remove]: the [assert] raises when neither the card nor an [OmniCard]
    is held. *)
Definition remove (self : Cards) (card : Card) : option Cards :=
  if __getitem__ self card <=? 0 then
    if 0 <? __getitem__ self OmniCard
    then Some (__sub__ self {[OmniCard := 1]})
    else None
  else Some (__sub__ self {[card := 1]}).

(** The kind of card [remove] takes out of the container: the card itself
    when it is held, the placeholder otherwise. *)
Definition spent (self : Cards) (card : Card) : Card :=
  if 0 <? __getitem__ self card then card else OmniCard.

Definition remove_all (self : Cards) (card : Card) : Cards :=
  if 1 <=? __getitem__ self card
  then __sub__ self {[card := __getitem__ self card]}
  else self.

Definition hide_all (self : Cards) : Cards := {[OmniCard := num_cards self]}.

(** [ordered_cards]: [Counter(self._cards).elements()] repeats every kind
    as many times as its count, kinds with a count below one left out. *)
Definition ordered_cards (self : Cards) : list Card :=
  map_to_list self ≫= (fun kv => replicate (Z.to_nat kv.2) kv.1).

(** [pick_random_of_type]: as [pick_random], among the kinds that are
    subclasses of [card_type].  The class hierarchy of [card/card.py] is
    not among the sources: [issubclass] is a parameter. *)
Definition qualified_cards (issubclass : Card -> Card -> bool)
    (self : Cards) (card_type : Card) : Cards :=
  filter (fun kv => issubclass kv.1 card_type = true) self.

Definition pick_random_of_type (issubclass : Card -> Card -> bool)
    (sample : list Card) (self : Cards) (num : Z) (card_type : Card)
  : Cards * Cards :=
  let qualified_cards := qualified_cards issubclass self card_type in
  let num := Z.min (HashableDict.total qualified_cards) num in
  if num =? 0 then (self, from_empty)
  else
    let picked_cards := HashableDict.Counter sample in
    (__sub__ self picked_cards, picked_cards).

(** [switch_random_different].  [for card in cards_back] runs over the
    kinds [cards_back] holds at least once ([__iter__]). *)
Definition avoided_cards_in_pool (self cards_back : Cards) : Cards :=
  map_imap (fun card v => if 0 <? v then Some (__getitem__ self card) else None)
           cards_back.

Definition diff_pool (self cards_back : Cards) : Cards :=
  __sub__ self (avoided_cards_in_pool self cards_back).

Definition same_pool (self cards_back : Cards) : Cards :=
  __add__ cards_back (avoided_cards_in_pool self cards_back).

Definition switch_random_different (sample : list Card)
    (self cards_back : Cards) : Cards * Cards :=
  let num_cards_to_pick := num_cards cards_back in
  let diff_pool := diff_pool self cards_back in
  let same_pool := same_pool self cards_back in
  let diff_pool_num := num_cards diff_pool in
  if diff_pool_num <? num_cards_to_pick then
    let same_pick_num := num_cards_to_pick - diff_pool_num in
    let '(same_left, same_picked) := pick_random sample same_pool same_pick_num in
    (same_left, __add__ diff_pool same_picked)
  else
    let '(diff_left, diff_picked) :=
      pick_random sample diff_pool num_cards_to_pick in
    (__add__ diff_left same_pool, diff_picked).

(** [extend]: with a limit, only as many of [cards] as still fit are
    added, picked at random. *)
Definition extend (sample : list Card) (self cards : Cards)
    (limit : option Z) : Cards :=
  match limit with
  | Some limit =>
      let cards :=
        (pick_random sample cards (Z.max (limit - num_cards self) 0)).2 in
      __add__ self cards
  | None => __add__ self cards
  end.

End Cards.

(** *** [OrderedCards] *)

(** Python's slices [l[:k]] and [l[k:]]: a negative bound counts from the
    end, and a bound beyond either end is cut to that end. *)
Definition slice_to {A} (l : list A) (k : Z) : list A :=
  if 0 <=? k then take (Z.to_nat k) l
  else take (Z.to_nat (Z.of_nat (length l) + k)) l.

Definition slice_from {A} (l : list A) (k : Z) : list A :=
  if 0 <=? k then drop (Z.to_nat k) l
  else drop (Z.to_nat (Z.of_nat (length l) + k)) l.

(** [list.insert(i, x)] for an index that is not negative: an index
    beyond the end appends. *)
Definition list_insert_at {A} (i : nat) (x : A) (c : list A) : list A :=
  take i c ++ x :: drop i c.

(** [_standard_insertions]: every element of [b] is inserted at the
    position the random source gives; [rand k] is its [k]-th draw
    ([random.randint(0, len(c))]). *)
Fixpoint _standard_insertions_from {A} (rand : nat -> nat) (k : nat)
    (c b : list A) : list A :=
  match b with
  | [] => c
  | n :: b' =>
      _standard_insertions_from rand (S k) (list_insert_at (rand k) n c) b'
  end.

Definition _standard_insertions {A} (rand : nat -> nat) (a b : list A)
  : list A :=
  _standard_insertions_from rand 0 a b.

Module EncodingPlan.

(** [encoding/encoding_plan.py] is missing from the sources: a plan is
    taken as what the containers use of it, the code of an item, the item
    of a code, the fixed length of an encoded container, and which of the
    decoded items are card classes ([issubclass(card, Card)]). *)
Record t := mk {
  encode_item : Card -> Z;
  type_for : Z -> option Card;
  CARDS_FIXED_LEN : Z;
  is_card : Card -> bool;
}.

End EncodingPlan.

Module OrderedCards.

(** The cards ordered from bottom to top. *)
Abbreviation OrderedCards := (list string).

Definition from_empty : OrderedCards := [].

(** [peek]: [self._cards[-1]] raises on an empty container. *)
Definition peek (self : OrderedCards) : option Card := last self.

Definition pick (self : OrderedCards) (n : Z) : OrderedCards * OrderedCards :=
  let n := Z.min (Z.of_nat (length self)) n in
  if n =? 0 then (self, from_empty)
  else (slice_to self (- n), slice_from self (- n)).

Definition num_cards (self : OrderedCards) : Z := Z.of_nat (length self).

Definition empty (self : OrderedCards) : bool := num_cards self =? 0.

Definition not_empty (self : OrderedCards) : bool := 0 <? num_cards self.

Definition contains (self : OrderedCards) (card : Card) : bool :=
  existsb (fun c => String.eqb c card || String.eqb c OmniCard) self.

Definition __add__ (self other : OrderedCards) : OrderedCards := self ++ other.

Definition add (self : OrderedCards) (card : Card) : OrderedCards :=
  __add__ self [card].

(** [remove]: the loop variable is called [card] like the parameter, so
    the test [card is card] compares every card with itself. *)
Fixpoint remove_loop (cards : OrderedCards) (indexed : list (nat * Card))
  : option OrderedCards :=
  match indexed with
  | [] => None
  | (i, card) :: rest =>
      if String.eqb card card
      then Some (take i cards ++ drop (S i) cards)
      else remove_loop cards rest
  end.

Definition remove (self : OrderedCards) (card : Card) : OrderedCards :=
  match remove_loop self (reverse (imap pair self)) with
  | Some cards => cards
  | None => self
  end.

Definition remove_all (self : OrderedCards) (card : Card) : OrderedCards :=
  if negb (existsb (String.eqb card) self) then self
  else List.filter (fun c => negb (String.eqb c card)) self.

Definition extend (self cards : OrderedCards) (limit : option Z)
  : OrderedCards :=
  match limit with
  | Some limit =>
      let cards := (pick cards (Z.max (limit - Z.of_nat (length self)) 0)).2 in
      __add__ self cards
  | None => __add__ self cards
  end.

Definition hide_all (self : OrderedCards) : OrderedCards :=
  replicate (length self) OmniCard.

(** [to_dict] and [to_cards] *)
Definition to_dict (self : OrderedCards) : gmap string Z :=
  HashableDict.Counter self.

Definition to_cards (self : OrderedCards) : Cards.Cards := to_dict self.

(** [Cards.to_ordered_cards] *)
Definition of_cards (cards : Cards.Cards) : OrderedCards :=
  Cards.ordered_cards cards.

(** [encoding] raises when the cards do not fit the plan's length. *)
Definition encoding (self : OrderedCards) (encoding_plan : EncodingPlan.t)
  : option (list Z) :=
  let ret_val := EncodingPlan.encode_item encoding_plan <$> self in
  let fillings :=
    EncodingPlan.CARDS_FIXED_LEN encoding_plan - Z.of_nat (length ret_val) in
  if fillings <? 0 then None
  else Some (ret_val ++ replicate (Z.to_nat fillings) 0).

(** [decoding].  The module imports [Card] under [TYPE_CHECKING] only,
    and this method, unlike [Cards.decoding], imports nothing itself: the
    name [Card] is not bound when the method runs, and
    [issubclass(card, Card)] raises [NameError] when it is evaluated.
    In the result the outer [None] is that exception, and the inner one
    the [None] the method returns. *)
Definition issubclass_Card (card : Card) : option bool := None.

Fixpoint decoding_loop (encoding : list Z) (encoding_plan : EncodingPlan.t)
    (cards : list Card) : option (option (list Card)) :=
  match encoding with
  | [] => Some (Some cards)
  | card_code :: rest =>
      if card_code =? 0 then decoding_loop rest encoding_plan cards
      else
        match EncodingPlan.type_for encoding_plan card_code with
        | None => Some None
        | Some card =>
            match issubclass_Card card with
            | None => None
            | Some false => Some None
            | Some true =>
                decoding_loop rest encoding_plan (cards ++ [card])
            end
        end
  end.

Definition decoding (encoding : list Z) (encoding_plan : EncodingPlan.t)
  : option (option OrderedCards) :=
  decoding_loop encoding encoding_plan [].

End OrderedCards.

(** *** [Cards.encoding] and [Cards.decoding] *)

Definition Cards_encoding (self : Cards.Cards) (encoding_plan : EncodingPlan.t)
  : option (list Z) :=
  OrderedCards.encoding (Cards.ordered_cards self) encoding_plan.

Fixpoint Cards_decoding_loop (encoding : list Z)
    (encoding_plan : EncodingPlan.t) (cards : Cards.Cards)
  : option Cards.Cards :=
  match encoding with
  | [] => Some cards
  | card_code :: rest =>
      if card_code =? 0 then Cards_decoding_loop rest encoding_plan cards
      else
        match EncodingPlan.type_for encoding_plan card_code with
        | None => None
        | Some card =>
            if negb (EncodingPlan.is_card encoding_plan card) then None
            else Cards_decoding_loop rest encoding_plan
                   (<[card := HashableDict.get cards card + 1]> cards)
        end
  end.

Definition Cards_decoding (encoding : list Z) (encoding_plan : EncodingPlan.t)
  : option Cards.Cards :=
  Cards_decoding_loop encoding encoding_plan ∅.

(** ** The game state *)

Module Character.

(** Modelled from the spec: [character/character.py] is missing from the
    sources.  Section 3 of the spec gives a character an id, [hp],
    [max_hp], an [alive] flag, [energy] and [max_energy]; the sources read
    them through [get_hp()], [get_energy()], [get_max_energy()] and
    [get_id()], and build a changed copy through [factory()], whose
    setters ([hp], [energy], [alive]) each replace the one field they
    name, as in the test helpers' [c.factory().hp(hp).alive(hp > 0)]. *)
Record t := mk {
  id : Z;
  hp : Z;
  max_hp : Z;
  alive : bool;
  energy : Z;
  max_energy : Z;
}.

Definition set_hp (h : Z) (c : t) : t :=
  mk (id c) h (max_hp c) (alive c) (energy c) (max_energy c).

Definition set_energy (e : Z) (c : t) : t :=
  mk (id c) (hp c) (max_hp c) (alive c) e (max_energy c).

Definition set_alive (a : bool) (c : t) : t :=
  mk (id c) (hp c) (max_hp c) a (energy c) (max_energy c).

End Character.

Module Characters.

(** Modelled from the spec: [character/characters.py] is missing from the
    sources.  Section 3: an ordered list of characters and the optional
    id of the active one.  A character is looked up by id, and
    [factory().character(c)] puts [c] in the place of the character that
    carries [c]'s id. *)
Record t := mk {
  characters : list Character.t;
  active_character_id : option Z;
}.

Definition get_character (cs : t) (i : Z) : option Character.t :=
  List.find (fun c => Character.id c =? i) (characters cs).

Definition get_active_character (cs : t) : option Character.t :=
  match active_character_id cs with
  | None => None
  | Some i => get_character cs i
  end.

Fixpoint replace_by_id (c : Character.t) (l : list Character.t)
  : list Character.t :=
  match l with
  | [] => []
  | x :: r =>
      if Character.id x =? Character.id c then c :: r
      else x :: replace_by_id c r
  end.

Definition character (c : Character.t) (cs : t) : t :=
  mk (replace_by_id c (characters cs)) (active_character_id cs).

End Characters.

Module PlayerState.

(** Modelled from the spec: [state/player_state.py] is missing from the
    sources.  The fields are the ones of section 3 that the embedded
    operations read or write; at the revision of [card_select_phase.py]
    the deck is a [Cards] container like the hand. *)
Record t := mk {
  phase : Act;
  characters : Characters.t;
  hand_cards : Cards.Cards;
  deck_cards : Cards.Cards;
  card_redraw_chances : Z;
}.

Definition set_characters (cs : Characters.t) (p : t) : t :=
  mk (phase p) cs (hand_cards p) (deck_cards p) (card_redraw_chances p).

Definition get_active_character (p : t) : option Character.t :=
  Characters.get_active_character (characters p).

(** [just_get_active_character] raises when there is none. *)
Definition just_get_active_character (p : t) : option Character.t :=
  get_active_character p.

End PlayerState.

Module GameState.

(** Modelled from the spec: [state/game_state.py] is missing from the
    sources.  The two symmetric player states of section 3, read with
    [get_player(pid)] / [get_other_player(pid)] and replaced with the
    factory's [player(pid, p)] / [other_player(pid, p)]. *)
Record t := mk {
  player1 : PlayerState.t;
  player2 : PlayerState.t;
}.

Definition get_player (gs : t) (pid : Pid) : PlayerState.t :=
  match pid with P1 => player1 gs | P2 => player2 gs end.

Definition get_other_player (gs : t) (pid : Pid) : PlayerState.t :=
  get_player gs (Pid_other pid).

Definition player (pid : Pid) (p : PlayerState.t) (gs : t) : t :=
  match pid with
  | P1 => mk p (player2 gs)
  | P2 => mk (player1 gs) p
  end.

Definition other_player (pid : Pid) (p : PlayerState.t) (gs : t) : t :=
  player (Pid_other pid) p gs.

(** Every character on the board, player 1's first. *)
Definition all_characters (gs : t) : list Character.t :=
  Characters.characters (PlayerState.characters (player1 gs))
  ++ Characters.characters (PlayerState.characters (player2 gs)).

End GameState.

(** ** [phase/default/card_select_phase.py] *)

Module CardSelectPhase.

(** [action/action.py] is not among the sources: the phase tells a
    [CardSelectAction], which carries the selected cards, from an
    [EndRoundAction] and from every other action. *)
Inductive PlayerAction :=
  | CardSelectAction (selected_cards : Cards.Cards)
  | EndRoundAction
  | OtherAction.

Definition _NUM_CARDS : Z := 5.

(** [_handle_card_drawing].  [pick_random_cards] is the name this revision
    of the phase uses for [Cards.pick_random]; [sample] is what the random
    source returns inside it. *)
Definition _handle_card_drawing (sample : list Card) (game_state : GameState.t)
    (pid : Pid) (selected_cards : Cards.Cards) : GameState.t :=
  let player := GameState.get_player game_state pid in
  let '(new_deck, new_cards) :=
    Cards.pick_random sample (PlayerState.deck_cards player)
                      (Cards.num_cards selected_cards) in
  let new_deck := Cards.__add__ new_deck selected_cards in
  let new_hand := Cards.__sub__ (PlayerState.hand_cards player) selected_cards in
  let new_hand := Cards.__add__ new_hand new_cards in
  let reducedChances := PlayerState.card_redraw_chances player - 1 in
  let phase := if 0 <? reducedChances then PlayerState.phase player
               else END_PHASE in
  GameState.player pid
    (PlayerState.mk phase (PlayerState.characters player)
                    new_hand new_deck reducedChances)
    game_state.

Definition _handle_end_round (game_state : GameState.t) (pid : Pid)
  : GameState.t :=
  let player := GameState.get_player game_state pid in
  GameState.player pid
    (PlayerState.mk END_PHASE (PlayerState.characters player)
                    (PlayerState.hand_cards player)
                    (PlayerState.deck_cards player) 0)
    game_state.

(** [step_action] raises on any other kind of action. *)
Definition step_action (sample : list Card) (game_state : GameState.t)
    (pid : Pid) (action : PlayerAction) : option GameState.t :=
  match action with
  | CardSelectAction selected_cards =>
      Some (_handle_card_drawing sample game_state pid selected_cards)
  | EndRoundAction => Some (_handle_end_round game_state pid)
  | OtherAction => None
  end.

(** [_draw_cards_and_activate]: both players draw [_NUM_CARDS] cards and
    get one redraw chance. *)
Definition _draw_cards_and_activate (sample1 sample2 : list Card)
    (game_state : GameState.t) : GameState.t :=
  let p1 := GameState.player1 game_state in
  let p2 := GameState.player2 game_state in
  let '(p1_deck, p1_hand) :=
    Cards.pick_random sample1 (PlayerState.deck_cards p1) _NUM_CARDS in
  let '(p2_deck, p2_hand) :=
    Cards.pick_random sample2 (PlayerState.deck_cards p2) _NUM_CARDS in
  GameState.mk
    (PlayerState.mk ACTION_PHASE (PlayerState.characters p1) p1_hand p1_deck 1)
    (PlayerState.mk ACTION_PHASE (PlayerState.characters p2) p2_hand p2_deck 1).

(** The phase the game is in is not part of [GameState.t] as embedded
    here: [step] hands it back next to the state.  The mode's
    [starting_hand_select_phase()] is the one phase this one leads to. *)
Inductive Phase := CardSelect | StartingHandSelect.

Definition Act_eqb (a b : Act) : bool :=
  match a, b with
  | PASSIVE_WAIT_PHASE, PASSIVE_WAIT_PHASE | ACTION_PHASE, ACTION_PHASE
  | ACTIVE_WAIT_PHASE, ACTIVE_WAIT_PHASE | END_PHASE, END_PHASE => true
  | _, _ => false
  end.

Definition set_phase (phase : Act) (p : PlayerState.t) : PlayerState.t :=
  PlayerState.mk phase (PlayerState.characters p) (PlayerState.hand_cards p)
                 (PlayerState.deck_cards p) (PlayerState.card_redraw_chances p).

Definition _to_starting_hand_select_phase (game_state : GameState.t)
  : Phase * GameState.t :=
  (StartingHandSelect,
   GameState.mk
     (set_phase PASSIVE_WAIT_PHASE (GameState.player1 game_state))
     (set_phase PASSIVE_WAIT_PHASE (GameState.player2 game_state))).

(** [step]: any state other than "both waiting" and "both done" raises. *)
Definition step (sample1 sample2 : list Card) (game_state : GameState.t)
  : option (Phase * GameState.t) :=
  let p1 := GameState.player1 game_state in
  let p2 := GameState.player2 game_state in
  if Act_eqb (PlayerState.phase p1) PASSIVE_WAIT_PHASE
     && Act_eqb (PlayerState.phase p2) PASSIVE_WAIT_PHASE
  then Some (CardSelect, _draw_cards_and_activate sample1 sample2 game_state)
  else if Act_eqb (PlayerState.phase p1) END_PHASE
          && Act_eqb (PlayerState.phase p2) END_PHASE
  then Some (_to_starting_hand_select_phase game_state)
  else None.

End CardSelectPhase.

(** ** [effect/structs.py], [event.py] and the effects statuses emit *)

Module StaticTarget.

(** Modelled from the spec: [effect/structs.py] is missing from the
    sources.  Section 3: [(pid, zone, id)] identifies any addressable
    entity; two targets are equal when their three fields are. *)
Record t := mk {
  pid : Pid;
  zone : Zone;
  id : Z;
}.

Definition eqb (a b : t) : bool :=
  Pid_eqb (pid a) (pid b) && Zone_eqb (zone a) (zone b) && (id a =? id b).

End StaticTarget.

Module DamageType.

(** [effect/structs.py] is missing from the sources.  The flags are the
    keyword arguments the sources pass ([DamageType(elemental_skill=True,
    status=True)], [DamageType(status=True, no_boost=True)]), each [False]
    by default; [can_boost()] is read as "the [no_boost] flag is off",
    the flag the sources set on damage that no status may raise. *)
Record t := mk {
  normal_attack : bool;
  charged_attack : bool;
  plunge_attack : bool;
  elemental_skill : bool;
  elemental_burst : bool;
  status : bool;
  summon : bool;
  no_boost : bool;
}.

Definition default : t := mk false false false false false false false false.

Definition can_boost (self : t) : bool := negb (no_boost self).

End DamageType.

Module SpecificDamageEffect.

(** [effect/effect.py] of this revision is missing from the sources; the
    fields are those the statuses read and build
    ([SpecificDamageEffect(source=, target=, element=, damage=,
    damage_type=)]). *)
Record t := mk {
  source : StaticTarget.t;
  target : StaticTarget.t;
  element : Element;
  damage : Z;
  damage_type : DamageType.t;
}.

(** [replace(dmg, damage=d)] *)
Definition replace_damage (dmg : t) (d : Z) : t :=
  mk (source dmg) (target dmg) (element dmg) d (damage_type dmg).

End SpecificDamageEffect.

(** [event.py]: the events a status may preprocess.  Only the damage event
    carries its payload in full; of the others the embedding keeps the
    fields that do not need the dice types. *)
Inductive PreprocessableEvent :=
  | DmgPEvent (dmg : SpecificDamageEffect.t)
  | ActionPEvent (source : StaticTarget.t)
  | CardPEvent (pid : Pid) (card_type : Card) (invalidated : bool)
  | DiceRollInitPEvent (pid : Pid)
  | RollChancePEvent (pid : Pid) (chances : Z).

(** [event.py]: the events statuses are informed of. *)
Inductive InformableEvent :=
  | CharacterDeathIEvent (target : StaticTarget.t)
  | DmgIEvent (dmg : SpecificDamageEffect.t) (lethal : bool)
  | HealingIEvent (source target : StaticTarget.t) (healing : Z)
  | SwapIEvent (source target : StaticTarget.t)
  | SupportRemovelIEvent (source : StaticTarget.t).

(** [DmgPEvent.delta_damage] *)
Definition delta_damage (dmg : SpecificDamageEffect.t) (d_damage : Z)
  : PreprocessableEvent :=
  DmgPEvent (SpecificDamageEffect.replace_damage dmg
               (Z.max 0 (SpecificDamageEffect.damage dmg + d_damage))).

(** The effects [status/status.py] builds.  A status class is named by its
    class name; [S] is the type of the status values an update carries. *)
Inductive Effect (S : Type) :=
  | RemoveCharacterStatusEffect (target : StaticTarget.t) (status : string)
  | UpdateCharacterStatusEffect (target : StaticTarget.t) (status : S)
  | AddCharacterStatusEffect (target : StaticTarget.t) (status : string)
  | RemoveHiddenStatusEffect (target_pid : Pid) (status : string)
  | UpdateHiddenStatusEffect (target_pid : Pid) (status : S)
  | RemoveCombatStatusEffect (target_pid : Pid) (status : string)
  | UpdateCombatStatusEffect (target_pid : Pid) (status : S)
  | RemoveSummonEffect (target_pid : Pid) (summon : string)
  | UpdateSummonEffect (target_pid : Pid) (summon : S)
  | RemoveSupportEffect (target_pid : Pid) (sid : Z)
  | UpdateSupportEffect (target_pid : Pid) (support : S)
  | ReferredDamageEffect (source : StaticTarget.t)
      (target : DynamicCharacterTarget) (element : Element) (damage : Z)
      (damage_type : DamageType.t)
  | SpecificDamageEffect_ (dmg : SpecificDamageEffect.t)
  | ReviveRecoverHPEffect (source target : StaticTarget.t) (recovery : Z)
  | CheckerEffect (name : string).

Arguments RemoveCharacterStatusEffect {S}.
Arguments UpdateCharacterStatusEffect {S}.
Arguments AddCharacterStatusEffect {S}.
Arguments RemoveHiddenStatusEffect {S}.
Arguments UpdateHiddenStatusEffect {S}.
Arguments RemoveCombatStatusEffect {S}.
Arguments UpdateCombatStatusEffect {S}.
Arguments RemoveSummonEffect {S}.
Arguments UpdateSummonEffect {S}.
Arguments RemoveSupportEffect {S}.
Arguments UpdateSupportEffect {S}.
Arguments ReferredDamageEffect {S}.
Arguments SpecificDamageEffect_ {S}.
Arguments ReviveRecoverHPEffect {S}.
Arguments CheckerEffect {S}.

(** [isinstance(effect, ReferredDamageEffect) or isinstance(effect,
    SpecificDamageEffect)] *)
Definition is_damage_effect {S} (effect : Effect S) : bool :=
  match effect with
  | ReferredDamageEffect _ _ _ _ _ | SpecificDamageEffect_ _ => true
  | _ => false
  end.

(** ** [status/status.py] *)

(** [helper/quality_of_life.py] *)
Definition BIG_INT : Z := 0x7fffffff.

Module Status.

(** The type classes of the file ([PersonalStatus] and its subclasses,
    [PlayerHiddenStatus], [CombatStatus], and the [Summon] and [Support]
    of the sibling modules) are what the dispatchers test with
    [isinstance]; a class that is none of them makes them raise. *)
Inductive StatusFamily :=
  | PersonalStatus | PlayerHiddenStatus | CombatStatus | Summon | Support
  | Unclassified.

(** What [_react_to_signal] hands back as the new self: the very same
    object (no change requested), [None] (a removal request) or another
    object (an update). *)
Inductive NewSelf (S : Type) :=
  | SameObject
  | Removal
  | Updated (new_status : S).

Arguments SameObject {S}.
Arguments Removal {S}.
Arguments Updated {S}.

(** The class-level part of a status: its identity, its place in the
    hierarchy, its overridable methods. *)
Record Class (S : Type) := mkClass {
  type_name : string;
  family : StatusFamily;
  _AUTO_REUSE_SAME_UPDATE : bool;
  __eq__ : S -> S -> bool;
  sid : S -> Z;
  _react_to_signal :
    S -> GameState.t -> StaticTarget.t -> TriggeringSignal ->
    option InformableEvent -> list (Effect S) * NewSelf S;
  update : S -> S -> option S;
  _post_update_react_to_signal :
    S -> GameState.t -> list (Effect S) -> StaticTarget.t ->
    TriggeringSignal -> option InformableEvent -> list (Effect S);
}.

Arguments type_name {S}.
Arguments family {S}.
Arguments _AUTO_REUSE_SAME_UPDATE {S}.
Arguments __eq__ {S}.
Arguments sid {S}.
Arguments _react_to_signal {S}.
Arguments update {S}.
Arguments _post_update_react_to_signal {S}.

Section Base.
Context {S : Type}.

(** The defaults of the base class. *)
Definition _preprocess (self : S) (game_state : GameState.t)
    (status_source : StaticTarget.t) (item : PreprocessableEvent)
    (signal : Preprocessables) : option (PreprocessableEvent * option S) :=
  Some (item, Some self).

Definition _post_preprocess (new_item : PreprocessableEvent)
    (new_self : option S) : PreprocessableEvent * option S :=
  (new_item, new_self).

Definition _update (self other : S) : option S := Some other.

Definition _post_update (new_self : option S) : option S := new_self.

Definition update_default (self other : S) : option S :=
  _post_update (_update self other).

Definition _post_update_react_to_signal_default (self : S)
    (game_state : GameState.t) (effects : list (Effect S))
    (source : StaticTarget.t) (signal : TriggeringSignal)
    (detail : option InformableEvent) : list (Effect S) :=
  effects.

Definition _BUDGET_SIGNALS (signal : TriggeringSignal) : bool :=
  match signal with
  | POST_DMG | DIRECT_TRIGGER => true
  | _ => false
  end.

Definition _post_react_to_signal (cls : Class S) (self : S)
    (effects : list (Effect S)) (new_status : NewSelf S)
  : list (Effect S) * NewSelf S :=
  if _AUTO_REUSE_SAME_UPDATE cls then
    (effects,
     match new_status with
     | Updated s' => if __eq__ cls s' self then SameObject else Updated s'
     | other => other
     end)
  else (effects, new_status).

(** [self.update(new_status) != self] *)
Definition update_differs (cls : Class S) (self new_status : S) : bool :=
  match update cls self new_status with
  | None => true
  | Some s' => negb (__eq__ cls s' self)
  end.

(** The removal or update of the status that [react_to_signal] appends,
    one branch per type class; [None] is the [NotImplementedError]. *)
Definition removal_or_update (cls : Class S) (self : S)
    (source : StaticTarget.t) (new_status : NewSelf S)
  : option (list (Effect S)) :=
  let upd (remove : Effect S) (change : S -> Effect S) :=
    match new_status with
    | Removal => [remove]
    | Updated s' => if update_differs cls self s' then [change s'] else []
    | SameObject => []
    end in
  let pid := StaticTarget.pid source in
  match family cls with
  | PersonalStatus =>
      Some (upd (RemoveCharacterStatusEffect source (type_name cls))
                (UpdateCharacterStatusEffect source))
  | PlayerHiddenStatus =>
      Some (upd (RemoveHiddenStatusEffect pid (type_name cls))
                (UpdateHiddenStatusEffect pid))
  | CombatStatus =>
      Some (upd (RemoveCombatStatusEffect pid (type_name cls))
                (UpdateCombatStatusEffect pid))
  | Summon =>
      Some (upd (RemoveSummonEffect pid (type_name cls))
                (UpdateSummonEffect pid))
  | Support =>
      Some (upd (RemoveSupportEffect pid (sid cls self))
                (UpdateSupportEffect pid))
  | Unclassified => None
  end.

(** [effect/effects_template.py] is missing from the sources: the two
    functions that supply the trailing checker effects are parameters. *)
Variable budget_post_effect : GameState.t -> Pid -> bool -> list (Effect S).
Variable standard_post_effects : GameState.t -> Pid -> bool -> list (Effect S).

Definition react_to_signal (cls : Class S) (self : S)
    (game_state : GameState.t) (source : StaticTarget.t)
    (signal : TriggeringSignal) (detail : option InformableEvent)
  : option (list (Effect S)) :=
  let '(es, new_status) :=
    _react_to_signal cls self game_state source signal detail in
  let '(es, new_status) := _post_react_to_signal cls self es new_status in
  match removal_or_update cls self source new_status with
  | None => None
  | Some change =>
      let es := es ++ change in
      let es :=
        _post_update_react_to_signal cls self game_state es source signal detail in
      let has_damage := existsb is_damage_effect es in
      Some (es ++
            if _BUDGET_SIGNALS signal
            then budget_post_effect game_state (StaticTarget.pid source) has_damage
            else standard_post_effects game_state (StaticTarget.pid source) has_damage)
  end.

End Base.

End Status.

(** *** The template [_UsageStatus] *)

Module UsageStatus.

(** The class constants of the template.  [F] below collects the fields a
    subclass adds next to [usages]. *)
Record Class := mkClass {
  MAX_USAGES : Z;
  REPEATED_USAGES : option Z;
  AUTO_DESTROY : bool;
}.

Record t (F : Type) := mk {
  usages : Z;
  fields : F;
}.

Arguments mk {F}.
Arguments usages {F}.
Arguments fields {F}.

Section Template.
Context {F : Type}.

(** [replace(s, usages=u)] *)
Definition replace_usages (s : t F) (u : Z) : t F := mk u (fields s).

Definition _post_preprocess (cls : Class) (new_item : PreprocessableEvent)
    (new_self : option (t F)) : PreprocessableEvent * option (t F) :=
  let new_self :=
    match new_self with
    | None => None
    | Some s =>
        if AUTO_DESTROY cls && (usages s <=? 0) then None
        else if usages s <? 0 then Some (replace_usages s 0)
        else Some s
    end in
  Status._post_preprocess new_item new_self.

(** Remove the status if usages <= 0. *)
Definition _post_update (cls : Class) (new_self : option (t F))
  : option (t F) :=
  let new_self :=
    match new_self with
    | None => None
    | Some s =>
        if AUTO_DESTROY cls && (usages s <=? 0) then None
        else if usages s <? 0 then Some (replace_usages s 0)
        else Some s
    end in
  Status._post_update new_self.

Definition _update (cls : Class) (self other : t F) : option (t F) :=
  let max_usages :=
    Z.max (Z.max (usages self) (usages other)) (MAX_USAGES cls) in
  let new_usages := Z.min (usages self + usages other) max_usages in
  Some (replace_usages other new_usages).

(** [Status.update], with the template's two hooks. *)
Definition update (cls : Class) (self other : t F) : option (t F) :=
  _post_update cls (_update cls self other).

(** [add]: [other] is the freshly built default instance of the class. *)
Definition add (cls : Class) (self default_other : t F) : option (t F) :=
  match REPEATED_USAGES cls with
  | None => update cls self default_other
  | Some r => update cls self (replace_usages default_other r)
  end.

End Template.

(** [_UsageLivingStatus] *)
Definition living (cls : Class) : Class :=
  mkClass (MAX_USAGES cls) (REPEATED_USAGES cls) false.

End UsageStatus.

(** *** The shield templates *)

(** [ceil(a / b)] on two ints.  [a / b] is Python's true division: the
    double nearest to the quotient, a tie going to the even mantissa; it
    raises [ZeroDivisionError] when [b] is 0 and [OverflowError] when the
    rounded quotient is beyond the largest double.  [math.ceil] then
    gives the least integer that is not below that double.  A double is
    kept as a sign, a mantissa [m] and an exponent [p], standing for
    [m * 2 ^ p]; the constants are those of [sys.float_info]. *)
Definition DBL_MANT_DIG : Z := 53.
Definition DBL_MIN_EXP : Z := -1021.
Definition DBL_MAX_EXP : Z := 1024.

(** [n / d] rounded to the nearest integer, a tie to the even one, for
    [0 <= n] and [0 < d]. *)
Definition round_half_even (n d : Z) : Z :=
  let q := n / d in
  let r := n mod d in
  if 2 * r <? d then q
  else if d <? 2 * r then q + 1
  else if Z.even q then q else q + 1.

(** The numerator and the denominator of [n / (d * 2 ^ p)]. *)
Definition scale_num (n p : Z) : Z := n * 2 ^ Z.max 0 (- p).
Definition scale_den (d p : Z) : Z := d * 2 ^ Z.max 0 p.

(** The exponent [e] with [2 ^ e <= n / d < 2 ^ (e + 1)], for [0 < n] and
    [0 < d]. *)
Definition quotient_exponent (n d : Z) : Z :=
  let e := Z.log2 n - Z.log2 d in
  if scale_num n e <? scale_den d e then e - 1 else e.

(** [n / d] as a double, for [0 <= n] and [0 < d]: the mantissa has
    [DBL_MANT_DIG] bits, fewer for a subnormal; [None] is the overflow. *)
Definition true_divide (n d : Z) : option (Z * Z) :=
  if n =? 0 then Some (0, 0)
  else
    let p := Z.max (quotient_exponent n d - (DBL_MANT_DIG - 1))
                   (DBL_MIN_EXP - DBL_MANT_DIG) in
    let m := round_half_even (scale_num n p) (scale_den d p) in
    if (0 <=? p) && (2 ^ DBL_MAX_EXP <=? m * 2 ^ p) then None
    else Some (m, p).

(** [math.ceil] of the double [m * 2 ^ p], negated when [negative]. *)
Definition float_ceil (negative : bool) (m p : Z) : Z :=
  if 0 <=? p then (if negative then - (m * 2 ^ p) else m * 2 ^ p)
  else if negative then - (m / 2 ^ (- p))
  else - ((- m) / 2 ^ (- p)).

Definition ceil_div (a b : Z) : option Z :=
  if b =? 0 then None
  else
    match true_divide (Z.abs a) (Z.abs b) with
    | None => None
    | Some (m, p) => Some (float_ceil (xorb (a <? 0) (b <? 0)) m p)
    end.

Module ShieldStatus.

(** [_ShieldStatus._is_target]; [None] when [just_get_active_character]
    or the final [NotImplementedError] raises. *)
Definition _is_target (family : Status.StatusFamily)
    (game_state : GameState.t) (status_source : StaticTarget.t)
    (item : SpecificDamageEffect.t) : option bool :=
  let of_active_character :=
    match PlayerState.just_get_active_character
            (GameState.get_player game_state (StaticTarget.pid status_source)) with
    | None => None
    | Some c =>
        let attached_active_character :=
          StaticTarget.mk (StaticTarget.pid status_source) CHARACTERS
                          (Character.id c) in
        Some (StaticTarget.eqb (SpecificDamageEffect.target item)
                               attached_active_character)
    end in
  match family with
  | Status.PersonalStatus =>
      Some (StaticTarget.eqb (SpecificDamageEffect.target item) status_source)
  | Status.CombatStatus => of_active_character
  | Status.Summon => of_active_character
  | _ => None
  end.

End ShieldStatus.

Module FixedShieldStatus.

(** The shield where only one usage can be consumed by a DMG effect. *)
Record Class (F : Type) := mkClass {
  usage_class : UsageStatus.Class;
  family : Status.StatusFamily;
  SHIELD_AMOUNT : Z;
  _triggering_condition :
    UsageStatus.t F -> GameState.t -> StaticTarget.t ->
    SpecificDamageEffect.t -> bool;
}.

Arguments usage_class {F}.
Arguments family {F}.
Arguments SHIELD_AMOUNT {F}.
Arguments _triggering_condition {F}.

Section Template.
Context {F : Type}.

(** The default [_triggering_condition]. *)
Definition always (self : UsageStatus.t F) (game_state : GameState.t)
    (status_source : StaticTarget.t) (damage : SpecificDamageEffect.t) : bool :=
  true.

Definition _preprocess (cls : Class F) (self : UsageStatus.t F)
    (game_state : GameState.t) (status_source : StaticTarget.t)
    (item : PreprocessableEvent) (signal : Preprocessables)
  : option (PreprocessableEvent * option (UsageStatus.t F)) :=
  match signal with
  | DMG_AMOUNT_MINUS =>
      match item with
      | DmgPEvent dmg =>
          if (0 <? SpecificDamageEffect.damage dmg)
             && (0 <? UsageStatus.usages self)
             && negb (Element_eqb (SpecificDamageEffect.element dmg) PIERCING)
          then
            match ShieldStatus._is_target (family cls) game_state
                                          status_source dmg with
            | None => None
            | Some true =>
                if _triggering_condition cls self game_state status_source dmg
                then
                  let new_dmg_amount :=
                    Z.max 0 (SpecificDamageEffect.damage dmg - SHIELD_AMOUNT cls) in
                  let new_dmg :=
                    SpecificDamageEffect.replace_damage dmg new_dmg_amount in
                  let new_item := DmgPEvent new_dmg in
                  let new_usages := UsageStatus.usages self - 1 in
                  if UsageStatus.AUTO_DESTROY (usage_class cls)
                     && (new_usages =? 0)
                  then Some (new_item, None)
                  else Some (new_item,
                             Some (UsageStatus.replace_usages self new_usages))
                else Status._preprocess self game_state status_source item signal
            | Some false =>
                Status._preprocess self game_state status_source item signal
            end
          else Status._preprocess self game_state status_source item signal
      | _ => None
      end
  | _ => Status._preprocess self game_state status_source item signal
  end.

(** [Status.preprocess]: the class's [_preprocess], then the
    [_post_preprocess] it inherits from [_UsageStatus]. *)
Definition preprocess (cls : Class F) (self : UsageStatus.t F)
    (game_state : GameState.t) (status_source : StaticTarget.t)
    (item : PreprocessableEvent) (signal : Preprocessables)
  : option (PreprocessableEvent * option (UsageStatus.t F)) :=
  match _preprocess cls self game_state status_source item signal with
  | None => None
  | Some (new_item, new_self) =>
      Some (UsageStatus._post_preprocess (usage_class cls) new_item new_self)
  end.

End Template.

(** Two of the fixed shields of [status/status.py] that take
    [_preprocess] and [_triggering_condition] from the template. *)
Definition LotusFlowerCrispStatus {F} : Class F :=
  mkClass F (UsageStatus.mkClass 1 None true) Status.PersonalStatus 3 always.

Definition IceLotusStatus {F} : Class F :=
  mkClass F (UsageStatus.mkClass 2 None true) Status.CombatStatus 1 always.

End FixedShieldStatus.

Module StackedShieldStatus.

(** The shield where all usages can be consumed by a DMG effect. *)
Record Class := mkClass {
  type_name : string;
  usage_class : UsageStatus.Class;
  family : Status.StatusFamily;
  SHIELD_AMOUNT : Z;
}.

Section Template.
Context {F : Type}.

Definition _preprocess (cls : Class) (self : UsageStatus.t F)
    (game_state : GameState.t) (status_source : StaticTarget.t)
    (item : PreprocessableEvent) (signal : Preprocessables)
  : option (PreprocessableEvent * option (UsageStatus.t F)) :=
  match signal with
  | DMG_AMOUNT_MINUS =>
      match item with
      | DmgPEvent dmg =>
          if (0 <? SpecificDamageEffect.damage dmg)
             && (0 <? UsageStatus.usages self)
             && negb (Element_eqb (SpecificDamageEffect.element dmg) PIERCING)
          then
            match ShieldStatus._is_target (family cls) game_state
                                          status_source dmg with
            | None => None
            | Some true =>
                match ceil_div (SpecificDamageEffect.damage dmg)
                               (SHIELD_AMOUNT cls) with
                | None => None
                | Some quotient =>
                    let usages_consumed :=
                      Z.min quotient (UsageStatus.usages self) in
                    let new_dmg_amount :=
                      Z.max 0 (SpecificDamageEffect.damage dmg
                               - usages_consumed * SHIELD_AMOUNT cls) in
                    let new_dmg :=
                      SpecificDamageEffect.replace_damage dmg new_dmg_amount in
                    let new_item := DmgPEvent new_dmg in
                    let new_usages := UsageStatus.usages self - usages_consumed in
                    if new_usages =? 0
                    then Some (new_item, None)
                    else Some (new_item,
                               Some (UsageStatus.replace_usages self new_usages))
                end
            | Some false =>
                Status._preprocess self game_state status_source item signal
            end
          else Status._preprocess self game_state status_source item signal
      | _ => None
      end
  | _ => Status._preprocess self game_state status_source item signal
  end.

Definition preprocess (cls : Class) (self : UsageStatus.t F)
    (game_state : GameState.t) (status_source : StaticTarget.t)
    (item : PreprocessableEvent) (signal : Preprocessables)
  : option (PreprocessableEvent * option (UsageStatus.t F)) :=
  match _preprocess cls self game_state status_source item signal with
  | None => None
  | Some (new_item, new_self) =>
      Some (UsageStatus._post_preprocess (usage_class cls) new_item new_self)
  end.

End Template.

(** The stacked shields of the sources that take [_preprocess] from the
    template, with their [MAX_USAGES], family and [SHIELD_AMOUNT];
    [_TempTestThickShieldStatus] is the shield of the test helpers. *)
Definition concrete (name : string) (max_usages : Z)
    (family : Status.StatusFamily) (shield_amount : Z) : Class :=
  mkClass name (UsageStatus.mkClass max_usages None true) family shield_amount.

Definition CrystallizeStatus : Class :=
  concrete "CrystallizeStatus" 2 Status.CombatStatus 1.
Definition RebelliousShieldStatus : Class :=
  concrete "RebelliousShieldStatus" 2 Status.CombatStatus 1.
Definition ButterCrabStatus : Class :=
  concrete "ButterCrabStatus" 1 Status.PersonalStatus 2.
Definition LithicGuardStatus : Class :=
  concrete "LithicGuardStatus" 3 Status.PersonalStatus 1.
Definition UnmovableMountainStatus : Class :=
  concrete "UnmovableMountainStatus" 2 Status.PersonalStatus 1.
Definition CatClawShieldEnhancedStatus : Class :=
  concrete "CatClawShieldEnhancedStatus" 2 Status.CombatStatus 1.
Definition CatClawShieldStatus : Class :=
  concrete "CatClawShieldStatus" 1 Status.CombatStatus 1.
Definition FlowingCicinShieldStatus : Class :=
  concrete "FlowingCicinShieldStatus" 4 Status.PersonalStatus 1.
Definition CurtainOfSlumberStatus : Class :=
  concrete "CurtainOfSlumberStatus" 2 Status.CombatStatus 1.

Definition _TempTestThickShieldStatus : Class :=
  concrete "_TempTestThickShieldStatus" BIG_INT Status.PersonalStatus BIG_INT.

Definition concrete_classes : list Class :=
  [ CrystallizeStatus; RebelliousShieldStatus; ButterCrabStatus;
    LithicGuardStatus; UnmovableMountainStatus; CatClawShieldEnhancedStatus;
    CatClawShieldStatus; FlowingCicinShieldStatus; CurtainOfSlumberStatus;
    _TempTestThickShieldStatus ].

End StackedShieldStatus.

(** *** Concrete statuses *)

Module DendroCoreStatus.

(** When you deal Pyro DMG or Electro DMG to an opposing active character,
    DMG dealt +2.  Usage(s): 1 *)
Record t := mk { usages : Z }.

Definition damage_boost : Z := 2.

Definition default : t := mk 1.

(** The three conditions are computed before they are tested, so the
    lookup of the target's active character raises first. *)
Definition _preprocess (self : t) (game_state : GameState.t)
    (status_source : StaticTarget.t) (item : PreprocessableEvent)
    (signal : Preprocessables) : option (PreprocessableEvent * option t) :=
  match signal with
  | DMG_AMOUNT_PLUS =>
      match item with
      | DmgPEvent dmg =>
          if 1 <=? usages self then
            let elem_can_boost :=
              Element_eqb (SpecificDamageEffect.element dmg) ELECTRO
              || Element_eqb (SpecificDamageEffect.element dmg) PYRO in
            let legal_to_boost :=
              Pid_eqb (StaticTarget.pid status_source)
                      (StaticTarget.pid (SpecificDamageEffect.source dmg))
              && DamageType.can_boost (SpecificDamageEffect.damage_type dmg) in
            match PlayerState.just_get_active_character
                    (GameState.get_player game_state
                       (StaticTarget.pid (SpecificDamageEffect.target dmg))) with
            | None => None
            | Some active =>
                let target_is_active :=
                  StaticTarget.id (SpecificDamageEffect.target dmg)
                  =? Character.id active in
                if elem_can_boost && legal_to_boost && target_is_active then
                  let new_damage :=
                    SpecificDamageEffect.replace_damage dmg
                      (SpecificDamageEffect.damage dmg + damage_boost) in
                  let new_item := DmgPEvent new_damage in
                  if usages self =? 1
                  then Some (new_item, None)
                  else Some (new_item, Some (mk (usages self - 1)))
                else Status._preprocess self game_state status_source item signal
            end
          else None
      | _ => None
      end
  | _ => Status._preprocess self game_state status_source item signal
  end.

(** [Status.preprocess] with the base class's [_post_preprocess]. *)
Definition preprocess (self : t) (game_state : GameState.t)
    (status_source : StaticTarget.t) (item : PreprocessableEvent)
    (signal : Preprocessables) : option (PreprocessableEvent * option t) :=
  match _preprocess self game_state status_source item signal with
  | None => None
  | Some (new_item, new_self) => Some (Status._post_preprocess new_item new_self)
  end.

End DendroCoreStatus.

Module RockPaperScissorsComboPaperStatus.

(** A [CharacterStatus] and [PrepareSkillStatus] without fields. *)
Inductive t : Set := mk.

Definition DAMAGE : Z := 3.

Definition type_name : string := "RockPaperScissorsComboPaperStatus".

Definition REACTABLE_SIGNALS (signal : TriggeringSignal) : bool :=
  match signal with
  | ACT_PRE_SKILL | SELF_SWAP => true
  | _ => false
  end.

Definition _react_to_signal (self : t) (game_state : GameState.t)
    (source : StaticTarget.t) (signal : TriggeringSignal)
    (detail : option InformableEvent)
  : list (Effect t) * Status.NewSelf t :=
  match signal with
  | ACT_PRE_SKILL =>
      ([ RemoveCharacterStatusEffect source type_name;
         ReferredDamageEffect source OPPO_ACTIVE ELECTRO DAMAGE
           (DamageType.mk false false false true false true false false) ],
       Status.SameObject)
  | SELF_SWAP => ([], Status.Removal)
  | _ => ([], Status.SameObject)
  end.

(** The class: a character status is a personal status; everything else
    is inherited from [Status]. *)
Definition class : Status.Class t :=
  Status.mkClass t type_name Status.PersonalStatus true
    (fun _ _ => true) (fun _ => 0)
    _react_to_signal Status.update_default
    Status._post_update_react_to_signal_default.

End RockPaperScissorsComboPaperStatus.

Module CatalyzingFieldStatus.

Record t := mk { usages : Z }.

Definition damage_boost : Z := 1.

Definition default : t := mk 2.

Definition _preprocess (self : t) (game_state : GameState.t)
    (status_source : StaticTarget.t) (item : PreprocessableEvent)
    (signal : Preprocessables) : option (PreprocessableEvent * option t) :=
  match signal with
  | DMG_AMOUNT_PLUS =>
      match item with
      | DmgPEvent dmg =>
          if 1 <=? usages self then
            let elem_can_boost :=
              Element_eqb (SpecificDamageEffect.element dmg) ELECTRO
              || Element_eqb (SpecificDamageEffect.element dmg) DENDRO in
            let legal_to_boost :=
              Pid_eqb (StaticTarget.pid status_source)
                      (StaticTarget.pid (SpecificDamageEffect.source dmg))
              && DamageType.can_boost (SpecificDamageEffect.damage_type dmg) in
            match PlayerState.just_get_active_character
                    (GameState.get_player game_state
                       (StaticTarget.pid (SpecificDamageEffect.target dmg))) with
            | None => None
            | Some active =>
                let target_is_active :=
                  StaticTarget.id (SpecificDamageEffect.target dmg)
                  =? Character.id active in
                if elem_can_boost && legal_to_boost && target_is_active then
                  let new_damage :=
                    SpecificDamageEffect.replace_damage dmg
                      (SpecificDamageEffect.damage dmg + damage_boost) in
                  let new_item := DmgPEvent new_damage in
                  if usages self =? 1
                  then Some (new_item, None)
                  else Some (new_item, Some (mk (usages self - 1)))
                else Status._preprocess self game_state status_source item signal
            end
          else None
      | _ => None
      end
  | _ => Status._preprocess self game_state status_source item signal
  end.

Definition preprocess (self : t) (game_state : GameState.t)
    (status_source : StaticTarget.t) (item : PreprocessableEvent)
    (signal : Preprocessables) : option (PreprocessableEvent * option t) :=
  match _preprocess self game_state status_source item signal with
  | None => None
  | Some (new_item, new_self) => Some (Status._post_preprocess new_item new_self)
  end.

End CatalyzingFieldStatus.

Module FrozenStatus.

Inductive t : Set := mk.

Definition damage_boost : Z := 2.

Definition type_name : string := "FrozenStatus".

Definition _preprocess (self : t) (game_state : GameState.t)
    (status_source : StaticTarget.t) (item : PreprocessableEvent)
    (signal : Preprocessables) : option (PreprocessableEvent * option t) :=
  match signal with
  | DMG_AMOUNT_PLUS =>
      match item with
      | DmgPEvent dmg =>
          let can_reaction :=
            Element_eqb (SpecificDamageEffect.element dmg) PYRO
            || Element_eqb (SpecificDamageEffect.element dmg) PHYSICAL in
          let is_damage_target :=
            StaticTarget.eqb (SpecificDamageEffect.target dmg) status_source in
          if is_damage_target && can_reaction then
            Some (DmgPEvent
                    (SpecificDamageEffect.replace_damage dmg
                       (SpecificDamageEffect.damage dmg + damage_boost)),
                  None)
          else Status._preprocess self game_state status_source item signal
      | _ => None
      end
  | _ => Status._preprocess self game_state status_source item signal
  end.

Definition preprocess (self : t) (game_state : GameState.t)
    (status_source : StaticTarget.t) (item : PreprocessableEvent)
    (signal : Preprocessables) : option (PreprocessableEvent * option t) :=
  match _preprocess self game_state status_source item signal with
  | None => None
  | Some (new_item, new_self) => Some (Status._post_preprocess new_item new_self)
  end.

Definition _react_to_signal (self : t) (game_state : GameState.t)
    (source : StaticTarget.t) (signal : TriggeringSignal)
    (detail : option InformableEvent)
  : list (Effect t) * Status.NewSelf t :=
  match signal with
  | ROUND_END => ([], Status.Removal)
  | _ => ([], Status.SameObject)
  end.

Definition class : Status.Class t :=
  Status.mkClass t type_name Status.PersonalStatus true
    (fun _ _ => true) (fun _ => 0)
    _react_to_signal Status.update_default
    Status._post_update_react_to_signal_default.

End FrozenStatus.

Module PlungeAttackStatus.

Record t := mk { can_plunge : bool }.

Definition default : t := mk false.

Definition type_name : string := "PlungeAttackStatus".

Definition _react_to_signal (self : t) (game_state : GameState.t)
    (source : StaticTarget.t) (signal : TriggeringSignal)
    (detail : option InformableEvent)
  : list (Effect t) * Status.NewSelf t :=
  match signal with
  | POST_SKILL =>
      if can_plunge self then ([], Status.Updated (mk false))
      else ([], Status.SameObject)
  | ROUND_END =>
      if can_plunge self then ([], Status.Updated (mk false))
      else ([], Status.SameObject)
  | SELF_SWAP =>
      if negb (can_plunge self) then ([], Status.Updated (mk true))
      else ([], Status.SameObject)
  | _ => ([], Status.SameObject)
  end.

Definition class : Status.Class t :=
  Status.mkClass t type_name Status.PlayerHiddenStatus true
    (fun a b => Bool.eqb (can_plunge a) (can_plunge b)) (fun _ => 0)
    _react_to_signal Status.update_default
    Status._post_update_react_to_signal_default.

End PlungeAttackStatus.

(** What a status is once the update [_react_to_signal] asks for has been
    carried out: itself when the same object comes back, gone on a
    removal request, and otherwise what its own [update] makes of the
    object handed back. *)
Definition status_after {S : Type} (cls : Status.Class S) (self : S)
    (game_state : GameState.t) (source : StaticTarget.t)
    (signal : TriggeringSignal) (detail : option InformableEvent)
  : option S :=
  let '(es, new_status) :=
    Status._react_to_signal cls self game_state source signal detail in
  match (Status._post_react_to_signal cls self es new_status).2 with
  | Status.SameObject => Some self
  | Status.Removal => None
  | Status.Updated s' => Status.update cls self s'
  end.

(** The status that is left after a run of signals. *)
Fixpoint status_after_all {S : Type} (cls : Status.Class S) (self : S)
    (game_state : GameState.t) (source : StaticTarget.t)
    (signals : list TriggeringSignal) : option S :=
  match signals with
  | [] => Some self
  | signal :: rest =>
      match status_after cls self game_state source signal None with
      | None => None
      | Some s' => status_after_all cls s' game_state source rest
      end
  end.

(** ** [summon/summon.py] *)

Module DmgPerRoundSummon.

(** [_DmgPerRoundSummon]: a [Summon] and [_UsageStatus] (through
    [_DestroyOnNumSummon]) that deals [DMG] of its [ELEMENT] at the end of
    every round. *)
Record Class := mkClass {
  type_name : string;
  usage_class : UsageStatus.Class;
  DMG : Z;
  ELEMENT : Element;
}.

Definition summon_damage : DamageType.t :=
  DamageType.mk false false false false false false true false.

Definition _react_to_signal (cls : Class) (self : UsageStatus.t unit)
    (game_state : GameState.t) (source : StaticTarget.t)
    (signal : TriggeringSignal) (detail : option InformableEvent)
  : list (Effect (UsageStatus.t unit)) * Status.NewSelf (UsageStatus.t unit) :=
  let '(es, d_usages) :=
    match signal with
    | END_ROUND_CHECK_OUT =>
        ([ReferredDamageEffect source OPPO_ACTIVE (ELEMENT cls) (DMG cls)
            summon_damage], -1)
    | _ => ([], 0)
    end in
  if d_usages =? 0 then (es, Status.SameObject)
  else (es, Status.Updated (UsageStatus.replace_usages self d_usages)).

(** The class as [Status.react_to_signal] sees it: a summon, whose
    [update] is the one of [_UsageStatus], which also turns
    [_AUTO_REUSE_SAME_UPDATE] off. *)
Definition class (cls : Class) : Status.Class (UsageStatus.t unit) :=
  Status.mkClass (UsageStatus.t unit) (type_name cls) Status.Summon false
    (fun a b => UsageStatus.usages a =? UsageStatus.usages b) (fun _ => 0)
    (_react_to_signal cls) (UsageStatus.update (usage_class cls))
    Status._post_update_react_to_signal_default.

Definition BurningFlameSummon : Class :=
  mkClass "BurningFlameSummon" (UsageStatus.mkClass 2 None true) 1 PYRO.

Definition CuileinAnbarSummon : Class :=
  mkClass "CuileinAnbarSummon" (UsageStatus.mkClass 2 None true) 2 DENDRO.

End DmgPerRoundSummon.

(** ** [event/effect.py] (the early engine) *)

Module EventEffect.

Inductive Zone := CHARACTER | SUMMONS | SUPPORT | HAND | EFFECT.

Record StaticTarget := mkStaticTarget {
  pid : Pid;
  zone : Zone;
  id : Z;
}.

Definition _DAMAGE_ELEMENTS (e : Element) : bool :=
  match e with
  | PYRO | HYDRO | ANEMO | ELECTRO | DENDRO | CRYO | GEO
  | PHYSICAL | PIERCING => true
  | _ => false
  end.

(** Modelled from the spec: [GameState.get_target] is missing from the
    sources.  A target in the character zone resolves to the character of
    that id of player [pid], if there is one; nothing else the state can
    return is a [Character], which is all [execute] asks of the result
    ([isinstance(character, char.Character)]). *)
Definition get_target (game_state : GameState.t) (target : StaticTarget)
  : option Character.t :=
  match zone target with
  | CHARACTER =>
      Characters.get_character
        (PlayerState.characters (GameState.get_player game_state (pid target)))
        (id target)
  | _ => None
  end.

Module DamageEffect.

Record t := mk {
  source : StaticTarget;
  target : DynamicCharacterTarget;
  element : Element;
  damage : Z;
}.

Definition legal (self : t) : bool := _DAMAGE_ELEMENTS (element self).

(** [execute]; both "Not implemented yet" exceptions are [None]. *)
Definition execute (self : t) (game_state : GameState.t)
  : option GameState.t :=
  let pid := pid (source self) in
  match target self with
  | OPPO_ACTIVE =>
      match Characters.get_active_character
              (PlayerState.characters
                 (GameState.get_other_player game_state pid)) with
      | None => None
      | Some opponent =>
          let hp := Character.hp opponent in
          let hp := Z.max 0 (hp - damage self) in
          let opponent := Character.set_hp hp opponent in
          let other_player := GameState.get_other_player game_state pid in
          let other_characters :=
            Characters.character opponent (PlayerState.characters other_player) in
          let other_player :=
            PlayerState.set_characters other_characters other_player in
          Some (GameState.other_player pid other_player game_state)
      end
  | _ => None
  end.

End DamageEffect.

Module EnergyRechargeEffect.

Record t := mk {
  target : StaticTarget;
  recharge : Z;
}.

Definition execute (self : t) (game_state : GameState.t) : GameState.t :=
  match get_target game_state (target self) with
  | None => game_state
  | Some character =>
      let energy :=
        Z.min (Character.energy character + recharge self)
              (Character.max_energy character) in
      if energy =? Character.energy character then game_state
      else
        let character := Character.set_energy energy character in
        let player := GameState.get_player game_state (pid (target self)) in
        let characters :=
          Characters.character character (PlayerState.characters player) in
        let player := PlayerState.set_characters characters player in
        GameState.player (pid (target self)) player game_state
  end.

End EnergyRechargeEffect.

Definition Zone_eqb (a b : Zone) : bool :=
  match a, b with
  | CHARACTER, CHARACTER | SUMMONS, SUMMONS | SUPPORT, SUPPORT
  | HAND, HAND | EFFECT, EFFECT => true
  | _, _ => false
  end.

Module SwapCharacterEffect.

Record t := mk {
  source : StaticTarget;
  target : StaticTarget;
}.

(** [execute]: the [assert] asks for one player, two character targets
    and two different ids; the target's id then becomes the active one. *)
Definition execute (self : t) (game_state : GameState.t)
  : option GameState.t :=
  if Pid_eqb (pid (source self)) (pid (target self))
     && Zone_eqb (zone (source self)) CHARACTER
     && Zone_eqb (zone (target self)) CHARACTER
     && negb (id (source self) =? id (target self))
  then
    let pid := pid (source self) in
    let player := GameState.get_player game_state pid in
    let characters := PlayerState.characters player in
    let characters :=
      Characters.mk (Characters.characters characters)
                    (Some (id (target self))) in
    let player := PlayerState.set_characters characters player in
    Some (GameState.player pid player game_state)
  else None.

End SwapCharacterEffect.

Module DeathCheckCheckerEffect.

Inductive PhaseEffect := DeathSwapPhaseStartEffect | DeathSwapPhaseEndEffect.

Definition set_phase (phase : Act) (p : PlayerState.t) : PlayerState.t :=
  PlayerState.mk phase (PlayerState.characters p) (PlayerState.hand_cards p)
                 (PlayerState.deck_cards p) (PlayerState.card_redraw_chances p).

(** [execute].  [Character.defeated()] is missing from the sources and is
    a parameter.  The effect stack is not part of [GameState.t] as
    embedded here: the effects [execute] pushes with [push_many_fl] come
    back next to the state, first to last.  The [assert] raises when a
    side has no active character. *)
Definition execute (defeated : Character.t -> bool)
    (game_state : GameState.t) : option (GameState.t * list PhaseEffect) :=
  match Characters.get_active_character
          (PlayerState.characters (GameState.player1 game_state)),
        Characters.get_active_character
          (PlayerState.characters (GameState.player2 game_state)) with
  | Some p1_character, Some p2_character =>
      let death_swap pid :=
        let effects := [DeathSwapPhaseStartEffect; DeathSwapPhaseEndEffect] in
        Some
          (GameState.other_player pid
             (set_phase PASSIVE_WAIT_PHASE
                (GameState.get_other_player game_state pid))
             (GameState.player pid
                (set_phase ACTION_PHASE (GameState.get_player game_state pid))
                game_state),
           effects) in
      if defeated p1_character then death_swap P1
      else if defeated p2_character then death_swap P2
      else Some (game_state, [])
  | _, _ => None
  end.

End DeathCheckCheckerEffect.

End EventEffect.

(** ** The dice pool *)

Module Dice.

(** Modelled from the spec: the dice module is missing from the sources,
    which hold its tests only.  Section 4.1: a dice pool "is a
    non-negative multiset keyed by element", with "addition/subtraction as
    multisets"; a requirement has the same shape, with the keys [OMNI]
    (all of one element) and [ANY] (no colour constraint). *)
Abbreviation Dice := (gmultiset Element).

(** The pool a dictionary of counts describes; a count below one puts no
    die in the pool ([test_contains]). *)
Definition from_dict (d : list (Element * Z)) : Dice :=
  foldr (fun kv acc =>
           Nat.iter (Z.to_nat kv.2) (fun m => {[+ kv.1 +]} ⊎ m) acc) ∅ d.

Definition __getitem__ (self : Dice) (e : Element) : nat := multiplicity e self.

Definition num_dice (self : Dice) : nat := size self.

Definition __add__ (self other : Dice) : Dice := self ⊎ other.

Definition __sub__ (self other : Dice) : Dice := self ∖ other.

Definition _PURE_ELEMS : list Element :=
  [PYRO; HYDRO; ANEMO; ELECTRO; DENDRO; CRYO; GEO].

(** Modelled from the spec: [just_satisfy] (section 4.1).  A payment
    exactly covers a requirement when (d) both hold as many dice, (a) the
    coloured requirements are met by dice of their colour, real [OMNI]
    dice standing in for the missing ones, (b) the [OMNI] requirement is
    met by the spare dice of one colour together with the [OMNI] dice
    left, and (c) what then remains pays the [ANY] requirement, which
    (d) makes an equality. *)
Definition just_satisfy (self requirement : Dice) : bool :=
  let lacking e := (__getitem__ requirement e - __getitem__ self e)%nat in
  let spare e := (__getitem__ self e - __getitem__ requirement e)%nat in
  let omni_needed := foldr Nat.add 0%nat (lacking <$> _PURE_ELEMS) in
  let omni_left := (__getitem__ self OMNI - omni_needed)%nat in
  let omni_required := __getitem__ requirement OMNI in
  (num_dice self =? num_dice requirement)%nat
  && (omni_needed <=? __getitem__ self OMNI)%nat
  && ((omni_required =? 0)%nat
      || existsb (fun e => (omni_required <=? spare e + omni_left)%nat)
                 _PURE_ELEMS
      || (omni_required <=? omni_left)%nat).

(** Modelled from the spec: [pick_random_dices], as [test_dices.py] uses
    it: [num] dice leave the pool, and with nothing to pick the pool
    itself comes back.  [sample] is the draw of the random source. *)
Definition pick_random_dice (sample : Dice) (self : Dice) (num : nat)
  : Dice * Dice :=
  let num := Nat.min (num_dice self) num in
  if (num =? 0)%nat then (self, ∅)
  else (__sub__ self sample, sample).

Definition valid_sample (self : Dice) (num : nat) (sample : Dice) : Prop :=
  sample ⊆ self /\ size sample = Nat.min (num_dice self) num.

End Dice.

(** ** Boards and hits for the examples *)

(** Player 1 fields character 1 as the active one; player 2 likewise. *)
Definition board : GameState.t :=
  let fighter := Character.mk 1 10 10 true 0 3 in
  let reserve := Character.mk 2 10 10 true 0 2 in
  let side :=
    PlayerState.mk ACTION_PHASE (Characters.mk [fighter; reserve] (Some 1))
                   ∅ ∅ 0 in
  GameState.mk side side.

(** A hit of [damage] points of [element] that player 2's active
    character lands on player 1's active character. *)
Definition hit (element : Element) (damage : Z) : SpecificDamageEffect.t :=
  SpecificDamageEffect.mk (StaticTarget.mk P2 CHARACTERS 1)
    (StaticTarget.mk P1 CHARACTERS 1) element damage DamageType.default.

(** A board where player 2's active character is down to 3 HP. *)
Definition wounded_board : GameState.t :=
  let side hp :=
    PlayerState.mk ACTION_PHASE
      (Characters.mk [Character.mk 1 hp 10 true 0 3;
                      Character.mk 2 10 10 true 0 2] (Some 1)) ∅ ∅ 0 in
  GameState.mk (side 10) (side 3).

(** A hit of [damage] points of [element] that player 1's active
    character lands on the active character of player [pid]. *)
Definition strike (pid : Pid) (element : Element) (damage : Z)
    (damage_type : DamageType.t) : SpecificDamageEffect.t :=
  SpecificDamageEffect.mk (StaticTarget.mk P1 CHARACTERS 1)
    (StaticTarget.mk pid CHARACTERS 1) element damage damage_type.

(** An encoding plan for two kinds of card, and room for three cards. *)
Definition two_card_plan : EncodingPlan.t :=
  EncodingPlan.mk
    (fun card => if String.eqb card "Paimon" then 1 else 2)
    (fun code => if code =? 1 then Some "Paimon"
                 else if code =? 2 then Some "Timmie" else None)
    3
    (fun _ => true).

(** The board before the cards are dealt: both players wait. *)
Definition waiting_board : GameState.t :=
  GameState.mk
    (CardSelectPhase.set_phase PASSIVE_WAIT_PHASE (GameState.player1 board))
    (CardSelectPhase.set_phase PASSIVE_WAIT_PHASE (GameState.player2 board)).

(** The same with a deck of seven cards for each player. *)
Definition stocked_deck : Cards.Cards := {["Paimon" := 4; "Timmie" := 3]}.

Definition stocked_board : GameState.t :=
  let side p :=
    PlayerState.mk PASSIVE_WAIT_PHASE (PlayerState.characters p)
                   ∅ stocked_deck 0 in
  GameState.mk (side (GameState.player1 board))
               (side (GameState.player2 board)).

(** ** Invariants *)

(** The invariant of section 3 of the spec: energy within [0, max_energy]. *)
Definition energy_in_range (c : Character.t) : Prop :=
  0 <= Character.energy c <= Character.max_energy c.

(** * Part II: lemmas and theorems *)

(** ** Enumerations *)

Lemma Pid_eqb_eq a b : Pid_eqb a b = true <-> a = b.
Proof. destruct a, b; simpl; split; congruence. Qed.

Lemma Pid_other_involutive pid : Pid_other (Pid_other pid) = pid.
Proof. by destruct pid. Qed.

Lemma Element_eqb_eq a b : Element_eqb a b = true <-> a = b.
Proof. destruct a, b; simpl; split; congruence. Qed.

Lemma Zone_eqb_eq a b : Zone_eqb a b = true <-> a = b.
Proof. destruct a, b; simpl; split; congruence. Qed.

(** ** Counting in a [HashableDict] *)

Section HashableDictFacts.
Context {K : Type} `{Countable K}.
Implicit Types (d a b : gmap K Z) (k : K) (L : list K).

Import HashableDict.

Lemma get_empty k : get (∅ : gmap K Z) k = 0.
Proof. unfold get. by rewrite lookup_empty. Qed.

Lemma get_add a b k : get (__add__ a b) k = get a k + get b k.
Proof.
  unfold get, __add__. rewrite lookup_union_with.
  destruct (a !! k), (b !! k); simpl; lia.
Qed.

Lemma get_sub a b k : get (__sub__ a b) k = get a k - get b k.
Proof.
  unfold get, __sub__. rewrite lookup_merge.
  destruct (a !! k), (b !! k); simpl; lia.
Qed.

Lemma get_singleton k v k' :
  get ({[k := v]} : gmap K Z) k' = if decide (k = k') then v else 0.
Proof. unfold get. rewrite lookup_singleton. by case_decide. Qed.

Lemma get_insert d k v k' :
  get (<[k := v]> d) k' = if decide (k = k') then v else get d k'.
Proof. unfold get. rewrite lookup_insert. by case_decide. Qed.

Lemma get_absent d k : d !! k = None -> get d k = 0.
Proof. unfold get. by intros ->. Qed.

Lemma sum_list_perm (l1 l2 : list Z) :
  l1 ≡ₚ l2 -> foldr Z.add 0 l1 = foldr Z.add 0 l2.
Proof. induction 1; simpl; lia. Qed.

Lemma total_empty : total (∅ : gmap K Z) = 0.
Proof. unfold total, values. by rewrite map_to_list_empty. Qed.

Lemma total_insert d k v :
  d !! k = None -> total (<[k := v]> d) = v + total d.
Proof.
  intros Hk. unfold total, values.
  rewrite (sum_list_perm _ (v :: (map_to_list d).*2)); [done|].
  by rewrite map_to_list_insert.
Qed.

Lemma sum_over_ext f g L :
  (forall k, k ∈ L -> f k = g k) -> sum_over f L = sum_over g L.
Proof.
  induction L as [|x L IH]; intros Hfg; simpl; [done|].
  rewrite Hfg, IH; [done| |]; intros; try apply Hfg; set_solver.
Qed.

Lemma sum_over_plus f g L :
  sum_over (fun k => f k + g k) L = sum_over f L + sum_over g L.
Proof. induction L; simpl; lia. Qed.

Lemma sum_over_minus f g L :
  sum_over (fun k => f k - g k) L = sum_over f L - sum_over g L.
Proof. induction L; simpl; lia. Qed.

Lemma sum_over_zero L : sum_over (fun _ => 0) L = 0.
Proof. induction L; simpl; lia. Qed.

(** Changing [f] at one key of a duplicate-free list moves the sum by
    the change. *)
Lemma sum_over_point f g L k :
  NoDup L -> k ∈ L -> (forall k', k' ≠ k -> f k' = g k') ->
  sum_over f L = sum_over g L + (f k - g k).
Proof.
  induction L as [|x L IH]; intros Hnd Hin Hfg; [by apply elem_of_nil in Hin|].
  apply NoDup_cons in Hnd as [Hx Hnd]. simpl.
  destruct (decide (x = k)) as [->|Hne].
  - rewrite (sum_over_ext f g L); [lia|].
    intros k' Hk'. apply Hfg. intros ->. done.
  - apply elem_of_cons in Hin as [->|Hin]; [done|].
    rewrite (Hfg x Hne), IH; [lia|done..].
Qed.

(** The total of a dictionary is the sum of its counts over any
    duplicate-free list of keys that covers it. *)
Lemma total_sum_over d L :
  NoDup L -> (forall k, is_Some (d !! k) -> k ∈ L) ->
  total d = sum_over (get d) L.
Proof.
  intros Hnd. induction d as [|i x m Hi IH] using map_ind; intros Hcov.
  - rewrite total_empty. rewrite (sum_over_ext _ (fun _ => 0)).
    + by rewrite sum_over_zero.
    + intros. apply get_empty.
  - rewrite total_insert by done.
    rewrite IH.
    + rewrite (sum_over_point (get (<[i:=x]> m)) (get m) L i); [| done | |].
      * rewrite get_insert, decide_True by done. rewrite (get_absent m i) by done. lia.
      * apply Hcov. rewrite lookup_insert_eq. by eexists.
      * intros k' Hk'. rewrite get_insert, decide_False by done. done.
    + intros k [v Hv]. apply Hcov.
      destruct (decide (i = k)) as [->|Hne]; [congruence|].
      rewrite lookup_insert_ne by done. by eexists.
Qed.

Lemma total_add a b : total (__add__ a b) = total a + total b.
Proof.
  pose (L := elements (dom a ∪ dom b)).
  assert (HL : NoDup L) by apply NoDup_elements.
  assert (Hin : forall d, dom d ⊆ dom a ∪ dom b ->
                 forall k, is_Some (d !! k) -> k ∈ L).
  { intros d Hd k Hk. apply elem_of_elements, Hd. by apply elem_of_dom. }
  rewrite (total_sum_over (__add__ a b) L), (total_sum_over a L),
    (total_sum_over b L); try done.
  - rewrite <- sum_over_plus. apply sum_over_ext. intros. apply get_add.
  - apply Hin. set_solver.
  - apply Hin. set_solver.
  - intros k Hk. apply elem_of_elements.
    unfold __add__ in Hk. rewrite lookup_union_with in Hk.
    rewrite elem_of_union, !elem_of_dom.
    destruct (a !! k), (b !! k); simpl in *; eauto; by destruct Hk.
Qed.

Lemma total_sub a b : total (__sub__ a b) = total a - total b.
Proof.
  pose (L := elements (dom a ∪ dom b)).
  assert (HL : NoDup L) by apply NoDup_elements.
  assert (Hin : forall d, dom d ⊆ dom a ∪ dom b ->
                 forall k, is_Some (d !! k) -> k ∈ L).
  { intros d Hd k Hk. apply elem_of_elements, Hd. by apply elem_of_dom. }
  rewrite (total_sum_over (__sub__ a b) L), (total_sum_over a L),
    (total_sum_over b L); try done.
  - rewrite <- sum_over_minus. apply sum_over_ext. intros. apply get_sub.
  - apply Hin. set_solver.
  - apply Hin. set_solver.
  - intros k Hk. apply elem_of_elements.
    unfold __sub__ in Hk. rewrite lookup_merge in Hk.
    rewrite elem_of_union, !elem_of_dom.
    destruct (a !! k), (b !! k); simpl in *; eauto; by destruct Hk.
Qed.

Lemma total_singleton k v : total ({[k := v]} : gmap K Z) = v.
Proof.
  rewrite <- insert_empty, total_insert, total_empty; [lia|].
  apply lookup_empty.
Qed.

(** [Counter] counts occurrences. *)
Lemma get_Counter (l : list K) k :
  get (Counter l) k = Z.of_nat (length (filter (fun x => x = k) l)).
Proof.
  induction l as [|x l IH]; simpl.
  - apply get_empty.
  - rewrite get_insert. rewrite filter_cons.
    destruct (decide (x = k)) as [->|Hne]; simpl.
    + rewrite IH. lia.
    + done.
Qed.

Lemma get_Counter_nonneg (l : list K) k : 0 <= get (Counter l) k.
Proof. rewrite get_Counter. lia. Qed.

Lemma total_Counter (l : list K) : total (Counter l) = Z.of_nat (length l).
Proof.
  induction l as [|x l IH]; simpl.
  - apply total_empty.
  - destruct (Counter l !! x) as [v|] eqn:Hx.
    + rewrite <- (insert_delete_id (Counter l) x v) at 2 by done.
      rewrite insert_insert_eq.
      rewrite total_insert by apply lookup_delete_eq.
      rewrite <- (insert_delete_id (Counter l) x v) in IH by done.
      rewrite total_insert in IH by apply lookup_delete_eq.
      unfold get. rewrite Hx. simpl. lia.
    + rewrite total_insert by done. rewrite get_absent by done. lia.
Qed.

End HashableDictFacts.

(** ** [Cards]: counts, sizes, [contains] and [remove] *)

Section CardsFacts.
Implicit Types (c other : gmap string Z) (card : string).

Import Cards.

Lemma getitem_add c other card :
  __getitem__ (__add__ c other) card = __getitem__ c card + __getitem__ other card.
Proof. apply get_add. Qed.

Lemma getitem_sub c other card :
  __getitem__ (__sub__ c other) card = __getitem__ c card - __getitem__ other card.
Proof. apply get_sub. Qed.

Lemma getitem_from_empty card : __getitem__ from_empty card = 0.
Proof. apply get_empty. Qed.

Lemma getitem_one card card' :
  __getitem__ {[card := 1]} card' = if decide (card = card') then 1 else 0.
Proof. apply get_singleton. Qed.

Lemma num_cards_add c other :
  num_cards (__add__ c other) = num_cards c + num_cards other.
Proof. apply total_add. Qed.

Lemma num_cards_sub c other :
  num_cards (__sub__ c other) = num_cards c - num_cards other.
Proof. apply total_sub. Qed.

Lemma num_cards_from_empty : num_cards from_empty = 0.
Proof. apply total_empty. Qed.

Lemma num_cards_one card : num_cards {[card := 1]} = 1.
Proof. apply total_singleton. Qed.

Lemma contains_spec c card :
  contains c card = true <->
  0 < __getitem__ c card \/ 0 < __getitem__ c OmniCard.
Proof. unfold contains. rewrite orb_true_iff, !Z.ltb_lt. tauto. Qed.

(** [remove] when the card is held: one copy of it goes. *)
Lemma remove_held c card :
  0 < __getitem__ c card ->
  remove c card = Some (__sub__ c {[card := 1]}).
Proof.
  intros Hpos. unfold remove.
  destruct (Z.leb_spec (__getitem__ c card) 0); [lia|done].
Qed.

(** [remove] when the card is not held but an [OmniCard] is: one
    [OmniCard] goes. *)
Lemma remove_omni c card :
  __getitem__ c card <= 0 -> 0 < __getitem__ c OmniCard ->
  remove c card = Some (__sub__ c {[OmniCard := 1]}).
Proof.
  intros Hnone Homni. unfold remove.
  destruct (Z.leb_spec (__getitem__ c card) 0); [|lia].
  destruct (Z.ltb_spec 0 (__getitem__ c OmniCard)); [done|lia].
Qed.

(** [remove] raises exactly when the container does not [contain] the
    card. *)
Lemma remove_raises c card :
  remove c card = None <-> contains c card = false.
Proof.
  unfold remove, contains.
  destruct (Z.leb_spec (__getitem__ c card) 0),
    (Z.ltb_spec 0 (__getitem__ c OmniCard)),
    (Z.ltb_spec 0 (__getitem__ c card)); simpl; split; try done; lia.
Qed.

(** C10.  A container with at least one [OmniCard] contains every kind of
    card, held or not.  Removing a card the container contains always
    succeeds: it takes away one copy of the card when one is held and one
    [OmniCard] otherwise, every other count staying as it was, so the
    container loses exactly one card. *)
Theorem Cards_contains_remove_omni c card :
  (0 < __getitem__ c OmniCard -> contains c card = true) /\
  (0 < __getitem__ c card ->
   remove c card = Some (__sub__ c {[card := 1]})) /\
  (__getitem__ c card <= 0 -> 0 < __getitem__ c OmniCard ->
   remove c card = Some (__sub__ c {[OmniCard := 1]})) /\
  (contains c card = true ->
   exists c', remove c card = Some c' /\
     __getitem__ c' (spent c card) = __getitem__ c (spent c card) - 1 /\
     (forall card', card' <> spent c card ->
        __getitem__ c' card' = __getitem__ c card') /\
     num_cards c' = num_cards c - 1).
Proof.
  split; [|split; [|split]].
  - intros Homni. apply contains_spec. by right.
  - apply remove_held.
  - apply remove_omni.
  - intros Hc. apply contains_spec in Hc. unfold spent.
    destruct (Z.ltb_spec 0 (__getitem__ c card)) as [Hheld|Hnone].
    + exists (__sub__ c {[card := 1]}). split; [by apply remove_held|].
      split; [|split].
      * rewrite getitem_sub, getitem_one, decide_True by done. lia.
      * intros card' Hne. rewrite getitem_sub, getitem_one, decide_False by done. lia.
      * rewrite num_cards_sub, num_cards_one. lia.
    + assert (Homni : 0 < __getitem__ c OmniCard) by (destruct Hc; [lia|done]).
      exists (__sub__ c {[OmniCard := 1]}). split; [by apply remove_omni|].
      split; [|split].
      * rewrite getitem_sub, getitem_one, decide_True by done. lia.
      * intros card' Hne. rewrite getitem_sub, getitem_one, decide_False by done. lia.
      * rewrite num_cards_sub, num_cards_one. lia.
Qed.

(** A hidden hand of two placeholders "contains" a card it does not
    hold, and removing that card spends a placeholder. *)
Lemma Cards_contains_remove_omni_witness :
  let hidden : gmap string Z := {[OmniCard := 2]} in
  contains hidden "Paimon" = true /\
  exists c', remove hidden "Paimon" = Some c' /\
    __getitem__ c' OmniCard = 1 /\ __getitem__ c' "Paimon" = 0 /\
    num_cards c' = num_cards hidden - 1.
Proof.
  intros hidden.
  destruct (Cards_contains_remove_omni hidden "Paimon") as (H1 & _ & _ & H4).
  assert (Homni : 0 < __getitem__ hidden OmniCard) by (vm_compute; reflexivity).
  split; [exact (H1 Homni)|].
  destruct (H4 (H1 Homni)) as (c' & Hrem & Hspent & Hother & Hnum).
  exists c'. split; [exact Hrem|]. split; [exact Hspent|].
  split; [|exact Hnum].
  rewrite (Hother "Paimon"); [reflexivity|]. vm_compute. discriminate.
Defined.

(** *** Drawing at random *)

Lemma pick_random_spec sample c num :
  num <= num_cards c -> valid_sample c num sample ->
  exists picked,
    pick_random sample c num = (__sub__ c picked, picked) /\
    num_cards picked = num /\
    forall card, 0 <= __getitem__ picked card <= __getitem__ c card.
Proof.
  intros Hnum [Hlen Hsub]. unfold pick_random.
  rewrite Z.min_r by lia.
  destruct (Z.eqb_spec num 0) as [->|Hne].
  - exists from_empty. destruct sample; [|simpl in Hlen; lia].
    simpl in Hsub. split; [|split].
    + f_equal. apply map_eq. intros k. unfold __sub__, HashableDict.__sub__, from_empty.
      rewrite lookup_merge, lookup_empty. destruct (c !! k); simpl; f_equal; lia.
    + apply num_cards_from_empty.
    + intros card. specialize (Hsub card). rewrite getitem_from_empty.
      unfold __getitem__ in *. rewrite get_empty in Hsub. lia.
  - exists (HashableDict.Counter sample). split; [done|]. split.
    + unfold num_cards. by rewrite total_Counter.
    + intros card. split; [apply get_Counter_nonneg|apply Hsub].
Qed.

(** The cards of a container in a row, and what the row holds. *)
Lemma ordered_cards_insert c card v :
  c !! card = None ->
  ordered_cards (<[card := v]> c) ≡ₚ replicate (Z.to_nat v) card ++ ordered_cards c.
Proof.
  intros Hc. unfold ordered_cards.
  rewrite map_to_list_insert by done. by rewrite bind_cons.
Qed.

Lemma filter_replicate_eq (n : nat) card card' :
  length (filter (fun x => x = card') (replicate n card))
  = if decide (card = card') then n else 0%nat.
Proof.
  induction n as [|n IH]; simpl; [by case_decide|].
  rewrite filter_cons. destruct (decide (card = card')); simpl; lia.
Qed.

Lemma count_ordered_cards c card :
  length (filter (fun x => x = card) (ordered_cards c))
  = Z.to_nat (__getitem__ c card).
Proof.
  induction c as [|i x m Hi IH] using map_ind.
  - unfold ordered_cards. rewrite map_to_list_empty. simpl.
    unfold __getitem__. by rewrite get_empty.
  - rewrite (ordered_cards_insert m i x Hi), filter_app, length_app, IH.
    rewrite filter_replicate_eq. unfold __getitem__. rewrite get_insert.
    destruct (decide (i = card)) as [->|Hne]; [|done].
    rewrite (get_absent m card Hi). simpl. lia.
Qed.

Lemma length_ordered_cards c :
  (forall card, 0 <= __getitem__ c card) ->
  Z.of_nat (length (ordered_cards c)) = num_cards c.
Proof.
  induction c as [|i x m Hi IH] using map_ind; intros Hlegal.
  - unfold ordered_cards. rewrite map_to_list_empty. simpl.
    symmetry. apply num_cards_from_empty.
  - rewrite (ordered_cards_insert m i x Hi), length_app, length_replicate.
    unfold num_cards. rewrite total_insert by done.
    assert (Hx : 0 <= x).
    { specialize (Hlegal i). unfold __getitem__ in Hlegal.
      rewrite get_insert, decide_True in Hlegal by done. done. }
    rewrite Nat2Z.inj_add, IH; [unfold num_cards; lia|].
    intros card. specialize (Hlegal card). unfold __getitem__ in *.
    rewrite get_insert in Hlegal.
    destruct (decide (i = card)) as [->|Hne]; [|done].
    rewrite (get_absent m card Hi). lia.
Qed.

Lemma length_filter_take {A} (P : A -> Prop) `{forall x, Decision (P x)}
    (n : nat) (l : list A) :
  (length (filter P (take n l)) <= length (filter P l))%nat.
Proof.
  rewrite <- (take_drop n l) at 2. rewrite filter_app, length_app. lia.
Qed.

(** The random source can always deliver: a legal container of at least
    [num] cards has a valid sample of [num] cards. *)
Lemma valid_sample_exists c num :
  (forall card, 0 <= __getitem__ c card) ->
  0 <= num <= num_cards c ->
  exists sample, valid_sample c num sample.
Proof.
  intros Hlegal Hnum.
  exists (take (Z.to_nat num) (ordered_cards c)). split.
  - rewrite length_take_le; [lia|].
    pose proof (length_ordered_cards c Hlegal). lia.
  - intros card. unfold __getitem__ at 1. rewrite get_Counter.
    pose proof (length_filter_take (fun x => x = card) (Z.to_nat num)
                  (ordered_cards c)) as Hle.
    rewrite count_ordered_cards in Hle. specialize (Hlegal card). lia.
Qed.

End CardsFacts.

(** ** The game state *)

Lemma get_player_player pid p gs :
  GameState.get_player (GameState.player pid p gs) pid = p.
Proof. by destruct pid. Qed.

Lemma get_player_player_other pid p gs :
  GameState.get_player (GameState.player pid p gs) (Pid_other pid)
  = GameState.get_player gs (Pid_other pid).
Proof. by destruct pid. Qed.

Lemma get_other_player_other_player pid p gs :
  GameState.get_other_player (GameState.other_player pid p gs) pid = p.
Proof. by destruct pid. Qed.


(** ** The redraw of the card-select phase *)

Section CardSelectFacts.
Import Cards CardSelectPhase.

Local Abbreviation hand_of gs pid :=
  (PlayerState.hand_cards (GameState.get_player gs pid)).
Local Abbreviation deck_of gs pid :=
  (PlayerState.deck_cards (GameState.get_player gs pid)).

(** C4.  A player who selects a part of the hand while the deck holds at
    least as many cards gets the selection put into the deck and as many
    cards drawn from the deck into the hand: the hand keeps its size, the
    deck keeps its size, and hand and deck together hold the same cards
    as before.  The other player is left alone. *)
Theorem card_select_redraw_preserves_cards
    (sample : list string) (game_state : GameState.t) (pid : Pid)
    (selected_cards : gmap string Z)
    (Hsubset : forall card,
        0 <= __getitem__ selected_cards card
          <= __getitem__ (hand_of game_state pid) card)
    (Hdeck : num_cards selected_cards <= num_cards (deck_of game_state pid))
    (Hsample : valid_sample (deck_of game_state pid)
                 (num_cards selected_cards) sample) :
  exists game_state' drawn,
    step_action sample game_state pid (CardSelectAction selected_cards)
      = Some game_state' /\
    num_cards drawn = num_cards selected_cards /\
    (forall card,
        0 <= __getitem__ drawn card
          <= __getitem__ (deck_of game_state pid) card) /\
    (forall card,
        __getitem__ (deck_of game_state' pid) card
        = __getitem__ (deck_of game_state pid) card
          - __getitem__ drawn card + __getitem__ selected_cards card) /\
    (forall card,
        __getitem__ (hand_of game_state' pid) card
        = __getitem__ (hand_of game_state pid) card
          - __getitem__ selected_cards card + __getitem__ drawn card) /\
    num_cards (hand_of game_state' pid) = num_cards (hand_of game_state pid) /\
    num_cards (deck_of game_state' pid) = num_cards (deck_of game_state pid) /\
    (forall card,
        __getitem__ (hand_of game_state' pid) card
        + __getitem__ (deck_of game_state' pid) card
        = __getitem__ (hand_of game_state pid) card
          + __getitem__ (deck_of game_state pid) card) /\
    GameState.get_player game_state' (Pid_other pid)
    = GameState.get_player game_state (Pid_other pid).
Proof.
  destruct (pick_random_spec sample (deck_of game_state pid)
              (num_cards selected_cards) Hdeck Hsample)
    as (drawn & Hpick & Hnum & Hdrawn).
  eexists. exists drawn. split; [reflexivity|].
  unfold _handle_card_drawing. rewrite Hpick.
  rewrite get_player_player, get_player_player_other. simpl.
  repeat split.
  - exact Hnum.
  - apply Hdrawn.
  - apply Hdrawn.
  - intros card. rewrite getitem_add, getitem_sub. lia.
  - intros card. rewrite getitem_add, getitem_sub. lia.
  - rewrite num_cards_add, num_cards_sub. lia.
  - rewrite num_cards_add, num_cards_sub. lia.
  - intros card. rewrite !getitem_add, !getitem_sub. lia.
Qed.

(** A hand of two, a deck of two, one card sent back. *)
Lemma card_select_redraw_witness :
  let no_characters := Characters.mk [] None in
  let p1 :=
    PlayerState.mk ACTION_PHASE no_characters
      {["Paimon" := 1; "Timmie" := 1]} {["Katheryne" := 2]} 1 in
  let p2 := PlayerState.mk ACTION_PHASE no_characters ∅ ∅ 1 in
  let game_state := GameState.mk p1 p2 in
  exists game_state',
    step_action ["Katheryne"] game_state P1 (CardSelectAction {["Paimon" := 1]})
      = Some game_state' /\
    num_cards (hand_of game_state' P1) = 2 /\
    num_cards (deck_of game_state' P1) = 2 /\
    __getitem__ (hand_of game_state' P1) "Paimon" = 0 /\
    __getitem__ (deck_of game_state' P1) "Paimon" = 1.
Proof.
  intros no_characters p1 p2 game_state.
  assert (Hsubset : forall card,
             0 <= __getitem__ {["Paimon" := 1]} card
               <= __getitem__ (hand_of game_state P1) card).
  { intros card. simpl. unfold __getitem__.
    rewrite get_insert, !get_singleton. repeat case_decide; lia. }
  assert (Hdeck : num_cards {["Paimon" := 1]} <= num_cards (deck_of game_state P1)).
  { vm_compute. discriminate. }
  assert (Hsample : valid_sample (deck_of game_state P1)
                      (num_cards {["Paimon" := 1]}) ["Katheryne"]).
  { split; [vm_compute; reflexivity|].
    intros card. simpl. unfold __getitem__.
    rewrite get_insert, get_singleton, !get_empty. repeat case_decide; lia. }
  destruct (card_select_redraw_preserves_cards ["Katheryne"] game_state P1
              {["Paimon" := 1]} Hsubset Hdeck Hsample)
    as (game_state' & drawn & Hstep & _ & _ & _ & _ & Hhand & Hdeck' & _).
  exists game_state'. split; [exact Hstep|].
  split; [rewrite Hhand; vm_compute; reflexivity|].
  split; [rewrite Hdeck'; vm_compute; reflexivity|].
  vm_compute in Hstep. injection Hstep as <-. split; vm_compute; reflexivity.
Defined.

(** The redraw also spends one redraw chance and, with none left, ends
    the player's part of the phase. *)
Lemma card_select_redraw_chances sample game_state pid selected_cards :
  let player := GameState.get_player game_state pid in
  let player' :=
    GameState.get_player
      (_handle_card_drawing sample game_state pid selected_cards) pid in
  PlayerState.card_redraw_chances player'
  = PlayerState.card_redraw_chances player - 1 /\
  (PlayerState.card_redraw_chances player <= 1 ->
   PlayerState.phase player' = END_PHASE) /\
  (1 < PlayerState.card_redraw_chances player ->
   PlayerState.phase player' = PlayerState.phase player).
Proof.
  unfold _handle_card_drawing.
  destruct (pick_random _ _ _) as [new_deck new_cards].
  rewrite get_player_player. simpl. split; [done|].
  destruct (Z.ltb_spec 0 (PlayerState.card_redraw_chances
                            (GameState.get_player game_state pid) - 1));
    split; intros; try done; lia.
Qed.

End CardSelectFacts.

(** ** [_UsageStatus]: merging usages *)

Section UsageStatusFacts.
Context {F : Type}.
Implicit Types (cls : UsageStatus.Class) (s o : UsageStatus.t F).

Import UsageStatus.

(** What [update] computes, for any two statuses of the class. *)
Lemma UsageStatus_update_eq cls s o :
  update cls s o =
  let n := Z.min (usages s + usages o)
                 (Z.max (Z.max (usages s) (usages o)) (MAX_USAGES cls)) in
  if AUTO_DESTROY cls && (n <=? 0) then None
  else Some (mk (Z.max 0 n) (fields o)).
Proof.
  unfold update, _post_update, _update, Status._post_update, replace_usages.
  cbn [usages fields].
  set (n := Z.min _ _).
  destruct (AUTO_DESTROY cls); cbn [andb].
  - destruct (Z.leb_spec n 0); [done|].
    destruct (Z.ltb_spec n 0); [lia|]. f_equal. f_equal. lia.
  - destruct (Z.ltb_spec n 0); f_equal; f_equal; lia.
Qed.

(** The cap is [MAX_USAGES] as long as neither status is above it. *)
Lemma UsageStatus_cap cls s o :
  usages s <= MAX_USAGES cls -> usages o <= MAX_USAGES cls ->
  Z.max (Z.max (usages s) (usages o)) (MAX_USAGES cls) = MAX_USAGES cls.
Proof. lia. Qed.

(** C3, as amended.  When neither status is above [MAX_USAGES], [update]
    computes [n = min(s.usages + o.usages, MAX_USAGES)]; a result [n <= 0]
    removes the status if [AUTO_DESTROY] is set; otherwise the incoming
    status comes back with [n] usages, or with 0 when [n] is negative. *)
Theorem UsageStatus_update_capped cls s o
    (Hs : usages s <= MAX_USAGES cls) (Ho : usages o <= MAX_USAGES cls) :
  update cls s o =
  if AUTO_DESTROY cls
     && (Z.min (usages s + usages o) (MAX_USAGES cls) <=? 0)
  then None
  else Some (mk (Z.max 0 (Z.min (usages s + usages o) (MAX_USAGES cls)))
                (fields o)).
Proof.
  rewrite UsageStatus_update_eq. cbv zeta.
  by rewrite UsageStatus_cap.
Qed.

End UsageStatusFacts.

(** A [CrystallizeStatus] of one usage is added once more. *)
Lemma UsageStatus_update_capped_witness :
  let cls := UsageStatus.mkClass 2 None true in
  UsageStatus.update cls (UsageStatus.mk 1 tt) (UsageStatus.mk 1 tt)
  = Some (UsageStatus.mk 2 tt) /\
  UsageStatus.update cls (UsageStatus.mk 2 tt) (UsageStatus.mk 1 tt)
  = Some (UsageStatus.mk 2 tt) /\
  UsageStatus.update cls (UsageStatus.mk 1 tt) (UsageStatus.mk (-1) tt)
  = None.
Proof.
  intros cls. split; [|split].
  - rewrite (UsageStatus_update_capped cls (UsageStatus.mk 1 tt)
               (UsageStatus.mk 1 tt)); [reflexivity | simpl; lia | simpl; lia].
  - rewrite (UsageStatus_update_capped cls (UsageStatus.mk 2 tt)
               (UsageStatus.mk 1 tt)); [reflexivity | simpl; lia | simpl; lia].
  - rewrite (UsageStatus_update_capped cls (UsageStatus.mk 1 tt)
               (UsageStatus.mk (-1) tt)); [reflexivity | simpl; lia | simpl; lia].
Defined.

(** C3 as stated fails in two ways.  A status that already holds more
    than [MAX_USAGES] keeps its usages instead of being cut down to the
    maximum (3 and 1 under a maximum of 2 give 3), and a class that is
    not auto-destroyed lifts a negative sum to 0 (0 and -1 give 0). *)
Lemma UsageStatus_update_counterexample :
  (let cls := UsageStatus.mkClass 2 None true in
   let s := UsageStatus.mk 3 tt in
   let o := UsageStatus.mk 1 tt in
   exists r,
     UsageStatus.update cls s o = Some r /\
     UsageStatus.usages r = 3 /\
     UsageStatus.usages r
     <> Z.min (UsageStatus.usages s + UsageStatus.usages o)
              (UsageStatus.MAX_USAGES cls)) /\
  (let cls := UsageStatus.mkClass 2 None false in
   let s := UsageStatus.mk 0 tt in
   let o := UsageStatus.mk (-1) tt in
   exists r,
     UsageStatus.update cls s o = Some r /\
     UsageStatus.usages r = 0 /\
     UsageStatus.usages r
     <> Z.min (UsageStatus.usages s + UsageStatus.usages o)
              (UsageStatus.MAX_USAGES cls)).
Proof.
  split.
  - eexists. split; [reflexivity|]. split; [reflexivity|]. simpl. lia.
  - eexists. split; [reflexivity|]. split; [reflexivity|]. simpl. lia.
Qed.

(** ** Shields *)

(** *** The division of the stacked shield *)

Lemma round_half_even_spec n d :
  0 <= n -> 0 < d ->
  0 <= round_half_even n d /\
  - d <= 2 * (n - round_half_even n d * d) <= d.
Proof.
  intros Hn Hd. unfold round_half_even.
  pose proof (Z.div_mod n d ltac:(lia)) as Hdiv.
  pose proof (Z.mod_pos_bound n d Hd) as Hmod.
  pose proof (Z.div_pos n d Hn Hd) as Hq.
  destruct (Z.ltb_spec (2 * (n mod d)) d); [split; [done|nia]|].
  destruct (Z.ltb_spec d (2 * (n mod d))); [split; [lia|nia]|].
  destruct (Z.even (n / d)); split; try lia; nia.
Qed.

Lemma div_nonpos x y : x <= 0 -> 0 < y -> x / y <= 0.
Proof.
  intros Hx Hy. pose proof (Z.div_mod x y ltac:(lia)).
  pose proof (Z.mod_pos_bound x y Hy). nia.
Qed.

(** The ceiling of a quotient of positive ints is never negative,
    however large or small the quotient. *)
Lemma ceil_div_nonneg a b q :
  0 <= a -> 0 < b -> ceil_div a b = Some q -> 0 <= q.
Proof.
  intros Ha Hb. unfold ceil_div. destruct (Z.eqb_spec b 0); [lia|].
  rewrite !Z.abs_eq by lia.
  destruct (Z.ltb_spec a 0); [lia|]. destruct (Z.ltb_spec b 0); [lia|].
  cbn [xorb]. unfold true_divide.
  destruct (Z.eqb_spec a 0); [intros [= <-]; done|]. cbv zeta.
  set (p := Z.max _ _).
  assert (Hnum : 0 <= scale_num a p).
  { unfold scale_num. apply Z.mul_nonneg_nonneg; [done|].
    apply Z.pow_nonneg. lia. }
  assert (Hden : 0 < scale_den b p).
  { unfold scale_den. apply Z.mul_pos_pos; [done|].
    apply Z.pow_pos_nonneg; lia. }
  destruct (round_half_even_spec _ _ Hnum Hden) as [Hm _].
  set (m := round_half_even _ _) in *.
  destruct (_ && _); [done|]. intros [= <-]. unfold float_ceil.
  destruct (Z.leb_spec 0 p).
  - apply Z.mul_nonneg_nonneg; [done|]. by apply Z.pow_nonneg.
  - assert (0 < 2 ^ (- p)) by (apply Z.pow_pos_nonneg; lia).
    pose proof (div_nonpos (- m) (2 ^ (- p))). lia.
Qed.

(** As long as both ints are below [2 ^ 53], where a double holds them
    exactly, the division neither raises nor rounds the ceiling away:
    [ceil_div a b] is the least integer [q] with [a <= q * b]. *)
Lemma ceil_div_spec a b :
  0 < a < 2 ^ 53 -> 0 < b < 2 ^ 53 ->
  exists q, ceil_div a b = Some q /\ (q - 1) * b < a <= q * b.
Proof.
  intros [Ha Ha53] [Hb Hb53]. unfold ceil_div.
  destruct (Z.eqb_spec b 0); [lia|]. rewrite !Z.abs_eq by lia.
  destruct (Z.ltb_spec a 0); [lia|]. destruct (Z.ltb_spec b 0); [lia|].
  cbn [xorb]. unfold true_divide. destruct (Z.eqb_spec a 0); [lia|].
  cbv zeta. set (e := quotient_exponent a b).
  assert (Hlb : 0 <= Z.log2 b) by apply Z.log2_nonneg.
  assert (He : e <= 52 - Z.log2 b).
  { assert (Z.log2 a < 53) by (apply Z.log2_lt_pow2; lia).
    subst e. unfold quotient_exponent. cbv zeta. destruct (_ <? _); lia. }
  unfold DBL_MANT_DIG, DBL_MIN_EXP, DBL_MAX_EXP.
  set (p := Z.max (e - (53 - 1)) (-1021 - 53)).
  assert (Hp : -1074 <= p <= 0) by lia.
  unfold scale_num, scale_den.
  rewrite (Z.max_l 0 p), (Z.max_r 0 (- p)) by lia.
  rewrite Z.pow_0_r, Z.mul_1_r.
  set (S := 2 ^ (- p)).
  assert (HS : 0 < S) by (apply Z.pow_pos_nonneg; lia).
  assert (HbS : b < 2 * S).
  { destruct (Z.log2_spec b Hb) as [_ Hlog].
    rewrite Z.pow_succ_r in Hlog by done.
    assert (2 ^ Z.log2 b <= S); [|lia].
    subst S. destruct (Z.max_spec (e - (53 - 1)) (-1021 - 53)) as [[_ Hpe]|[_ Hpe]].
    - transitivity (2 ^ 53); [|apply Z.pow_le_mono_r; lia].
      apply Z.pow_le_mono_r; [lia|].
      assert (Z.log2 b < 53) by (apply Z.log2_lt_pow2; lia). lia.
    - apply Z.pow_le_mono_r; lia. }
  destruct (round_half_even_spec (a * S) b ltac:(nia) Hb) as [Hm0 Hm].
  set (m := round_half_even (a * S) b) in *.
  set (c := - (- a / b)).
  assert (Hc : (c - 1) * b < a <= c * b).
  { pose proof (Z.div_mod (- a) b ltac:(lia)).
    pose proof (Z.mod_pos_bound (- a) b Hb). subst c. nia. }
  assert (Hhi : m <= c * S).
  { destruct (Z.le_gt_cases m (c * S)); [done|]. exfalso.
    assert ((c * S + 1) * b <= m * b) by nia.
    assert (a * S <= c * b * S) by nia. nia. }
  assert (Hlo : (c - 1) * S < m).
  { destruct (Z.lt_ge_cases ((c - 1) * S) m); [done|]. exfalso.
    assert (m * b <= (c - 1) * S * b) by nia.
    assert ((c - 1) * b * S <= (a - 1) * S) by nia. nia. }
  exists c. split; [|done].
  destruct (Z.leb_spec 0 p) as [Hp0|Hp0]; cbn [andb].
  - assert (p = 0) as Hzero by lia. subst S. rewrite Hzero in *.
    change (2 ^ (- 0)) with 1 in *. change (2 ^ 0) with 1.
    assert (m = c) as -> by lia.
    assert (c <= a) by nia.
    assert (2 ^ 53 <= 2 ^ 1024) by (apply Z.pow_le_mono_r; lia).
    destruct (Z.leb_spec (2 ^ 1024) (c * 1)); [lia|].
    unfold float_ceil. cbn [Z.leb Z.compare]. f_equal. lia.
  - unfold float_ceil. destruct (Z.leb_spec 0 p); [lia|]. fold S. f_equal.
    pose proof (Z.div_mod (- m) S ltac:(lia)).
    pose proof (Z.mod_pos_bound (- m) S HS). nia.
Qed.

(** What [ceil(a / b)] gives on the ints of the game, and where it
    parts from the quotient: beyond [2 ^ 53] the double drops the low
    bits ([2 ^ 23 * BIG_INT + 1] over [BIG_INT] is more than [2 ^ 23],
    and the ceiling is [2 ^ 23]), a quotient below the least double is
    0, and a quotient beyond the largest one raises, as a zero divisor
    does. *)
Example ceil_div_examples :
  ceil_div 3 1 = Some 3 /\ ceil_div 3 2 = Some 2 /\ ceil_div 4 2 = Some 2 /\
  ceil_div 1 BIG_INT = Some 1 /\ ceil_div 5 0 = None /\
  ceil_div (-7) 2 = Some (-3) /\
  ceil_div (2 ^ 23 * BIG_INT + 1) BIG_INT = Some (2 ^ 23) /\
  ceil_div (2 ^ 53 + 1) 1 = Some (2 ^ 53) /\
  ceil_div 1 (2 ^ 1074) = Some 1 /\
  ceil_div 1 (2 ^ 1075) = Some 0 /\
  ceil_div (2 ^ 1024 - 2 ^ 970 - 1) 1 = Some (2 ^ 1024 - 2 ^ 971) /\
  ceil_div (2 ^ 1024 - 2 ^ 970) 1 = None.
Proof. repeat split; vm_compute; reflexivity. Qed.

Lemma ceil_div_least a b q' :
  0 < a < 2 ^ 53 -> 0 < b < 2 ^ 53 -> a <= q' * b ->
  exists q, ceil_div a b = Some q /\ q <= q'.
Proof.
  intros Ha Hb Hq'. destruct (ceil_div_spec a b Ha Hb) as (q & Hq & Hlo & Hhi).
  exists q. split; [done|]. nia.
Qed.

Lemma StaticTarget_eqb_eq a b : StaticTarget.eqb a b = true <-> a = b.
Proof.
  unfold StaticTarget.eqb. rewrite !andb_true_iff, Pid_eqb_eq, Zone_eqb_eq, Z.eqb_eq.
  destruct a, b; simpl. split; [intros [[-> ->] ->]; done|].
  intros [= -> -> ->]. done.
Qed.

(** Who a shield protects: the character it is attached to, or the active
    character of the side it belongs to. *)
Lemma ShieldStatus_is_target family gs src dmg :
  ShieldStatus._is_target family gs src dmg = Some true ->
  (family = Status.PersonalStatus /\ SpecificDamageEffect.target dmg = src) \/
  ((family = Status.CombatStatus \/ family = Status.Summon) /\
   exists c,
     PlayerState.get_active_character
       (GameState.get_player gs (StaticTarget.pid src)) = Some c /\
     SpecificDamageEffect.target dmg
     = StaticTarget.mk (StaticTarget.pid src) CHARACTERS (Character.id c)).
Proof.
  unfold ShieldStatus._is_target, PlayerState.just_get_active_character.
  destruct family; try discriminate.
  - intros [= Heq]. left. split; [done|]. by apply StaticTarget_eqb_eq.
  - destruct (PlayerState.get_active_character _) as [c|]; [|discriminate].
    intros [= Heq]. right. split; [by left|]. exists c. split; [done|].
    by apply StaticTarget_eqb_eq.
  - destruct (PlayerState.get_active_character _) as [c|]; [|discriminate].
    intros [= Heq]. right. split; [by right|]. exists c. split; [done|].
    by apply StaticTarget_eqb_eq.
Qed.

Section ShieldFacts.
Context {F : Type}.
Implicit Types (self : UsageStatus.t F) (dmg : SpecificDamageEffect.t).




End ShieldFacts.

(** Every stacked shield of the sources has a positive [SHIELD_AMOUNT]. *)
Lemma StackedShieldStatus_concrete_amount cls :
  In cls StackedShieldStatus.concrete_classes ->
  0 < StackedShieldStatus.SHIELD_AMOUNT cls.
Proof.
  unfold StackedShieldStatus.concrete_classes. simpl.
  intros H. repeat (destruct H as [<-|H]; [done|]). done.
Qed.

(** *** The shields on a concrete board *)


(** A butter crab (2 points per usage, one usage) against a hit of 3 lets
    1 through and is used up; a cicin shield of 4 usages against the same
    hit keeps 1 usage and lets nothing through; piercing damage and the
    other signals pass a shield by. *)
Example StackedShieldStatus_preprocess_examples :
  let on_character := StaticTarget.mk P1 CHARACTERS 1 in
  StackedShieldStatus.preprocess StackedShieldStatus.ButterCrabStatus
    (UsageStatus.mk 1 tt) board on_character
    (DmgPEvent (hit HYDRO 3)) DMG_AMOUNT_MINUS
  = Some (DmgPEvent (hit HYDRO 1), None) /\
  StackedShieldStatus.preprocess StackedShieldStatus.FlowingCicinShieldStatus
    (UsageStatus.mk 4 tt) board on_character
    (DmgPEvent (hit HYDRO 3)) DMG_AMOUNT_MINUS
  = Some (DmgPEvent (hit HYDRO 0), Some (UsageStatus.mk 1 tt)) /\
  StackedShieldStatus.preprocess StackedShieldStatus.FlowingCicinShieldStatus
    (UsageStatus.mk 4 tt) board on_character
    (DmgPEvent (hit PIERCING 3)) DMG_AMOUNT_MINUS
  = Some (DmgPEvent (hit PIERCING 3), Some (UsageStatus.mk 4 tt)) /\
  StackedShieldStatus.preprocess StackedShieldStatus.FlowingCicinShieldStatus
    (UsageStatus.mk 4 tt) board on_character
    (DmgPEvent (hit HYDRO 3)) DMG_AMOUNT_PLUS
  = Some (DmgPEvent (hit HYDRO 3), Some (UsageStatus.mk 4 tt)) /\
  FixedShieldStatus.preprocess FixedShieldStatus.IceLotusStatus
    (UsageStatus.mk 2 tt) board (StaticTarget.mk P1 COMBAT_STATUSES 0)
    (DmgPEvent (hit HYDRO 7)) DMG_AMOUNT_MINUS
  = Some (DmgPEvent (hit HYDRO 6), Some (UsageStatus.mk 1 tt)).
Proof. repeat split; vm_compute; reflexivity. Qed.

(** Beyond [2 ^ 53] the shield follows the double: the thick shield of
    the test helpers meets [2 ^ 23 * BIG_INT + 1] points of damage, the
    quotient rounds to [2 ^ 23], and one point gets through although
    usages are left. *)
Example StackedShieldStatus_preprocess_beyond_doubles :
  StackedShieldStatus.preprocess StackedShieldStatus._TempTestThickShieldStatus
    (UsageStatus.mk BIG_INT tt) board (StaticTarget.mk P1 CHARACTERS 1)
    (DmgPEvent (hit PYRO (2 ^ 23 * BIG_INT + 1))) DMG_AMOUNT_MINUS
  = Some (DmgPEvent (hit PYRO 1),
          Some (UsageStatus.mk (BIG_INT - 2 ^ 23) tt)).
Proof. vm_compute. reflexivity. Qed.


(** ** [DendroCoreStatus] *)

Section DendroCoreFacts.
Import DendroCoreStatus.

(** C5, as amended.  At the [DMG_AMOUNT_PLUS] signal, a Pyro or Electro
    damage that comes from the status's own side, is of a type that can
    be boosted, and targets the opposing player's active character is
    raised by exactly 2, and a status of one usage is removed.  A damage
    of any other element, or one whose target is not the active character
    of the targeted player, passes through unchanged and leaves the
    status as it was. *)
Theorem DendroCoreStatus_preprocess_boost
    (self : t) (game_state : GameState.t) (status_source : StaticTarget.t)
    (dmg : SpecificDamageEffect.t) (active : Character.t)
    (Husages : 1 <= usages self)
    (Hactive :
       PlayerState.get_active_character
         (GameState.get_player game_state
            (StaticTarget.pid (SpecificDamageEffect.target dmg)))
       = Some active) :
  ((SpecificDamageEffect.element dmg = PYRO
    \/ SpecificDamageEffect.element dmg = ELECTRO) ->
   StaticTarget.pid (SpecificDamageEffect.source dmg)
   = StaticTarget.pid status_source ->
   DamageType.can_boost (SpecificDamageEffect.damage_type dmg) = true ->
   SpecificDamageEffect.target dmg
   = StaticTarget.mk (Pid_other (StaticTarget.pid status_source)) CHARACTERS
       (Character.id active) ->
   preprocess self game_state status_source (DmgPEvent dmg) DMG_AMOUNT_PLUS
   = Some
       (DmgPEvent
          (SpecificDamageEffect.replace_damage dmg
             (SpecificDamageEffect.damage dmg + 2)),
        if usages self =? 1 then None else Some (mk (usages self - 1)))) /\
  ((SpecificDamageEffect.element dmg <> PYRO
    /\ SpecificDamageEffect.element dmg <> ELECTRO)
   \/ StaticTarget.id (SpecificDamageEffect.target dmg) <> Character.id active ->
   preprocess self game_state status_source (DmgPEvent dmg) DMG_AMOUNT_PLUS
   = Some (DmgPEvent dmg, Some self)).
Proof.
  unfold preprocess, _preprocess, PlayerState.just_get_active_character.
  rewrite Hactive.
  destruct (Z.leb_spec 1 (usages self)); [|lia].
  split.
  - intros Helem Hside Hboost Htarget.
    assert (Hel : Element_eqb (SpecificDamageEffect.element dmg) ELECTRO
                  || Element_eqb (SpecificDamageEffect.element dmg) PYRO = true).
    { destruct Helem as [-> | ->]; reflexivity. }
    rewrite Hel, Hside, Hboost, Htarget. cbn [StaticTarget.id].
    rewrite Z.eqb_refl.
    replace (Pid_eqb _ _) with true by (symmetry; by apply Pid_eqb_eq).
    cbn [andb]. by destruct (usages self =? 1).
  - intros Hpass.
    destruct (Element_eqb (SpecificDamageEffect.element dmg) ELECTRO
              || Element_eqb (SpecificDamageEffect.element dmg) PYRO) eqn:Hel;
      [|done].
    destruct Hpass as [[Hp He] | Hid].
    + apply orb_true_iff in Hel as [Hel|Hel]; apply Element_eqb_eq in Hel; done.
    + destruct (Z.eqb_spec (StaticTarget.id (SpecificDamageEffect.target dmg))
                  (Character.id active)); [done|].
      by rewrite andb_false_r.
Qed.

End DendroCoreFacts.

(** The scenario of the spec: player 1 has a dendro core of one usage and
    deals 2 Electro damage to player 2's active character; the damage
    becomes 4 and the status is removed. *)
Lemma DendroCoreStatus_preprocess_witness :
  DendroCoreStatus.preprocess DendroCoreStatus.default board
    (StaticTarget.mk P1 COMBAT_STATUSES 0)
    (DmgPEvent (strike P2 ELECTRO 2 DamageType.default)) DMG_AMOUNT_PLUS
  = Some (DmgPEvent (strike P2 ELECTRO 4 DamageType.default), None).
Proof.
  destruct (DendroCoreStatus_preprocess_boost DendroCoreStatus.default board
              (StaticTarget.mk P1 COMBAT_STATUSES 0)
              (strike P2 ELECTRO 2 DamageType.default)
              (Character.mk 1 10 10 true 0 3))
    as [Hboost _].
  - simpl; lia.
  - reflexivity.
  - rewrite Hboost; [reflexivity | by right | reflexivity..].
Defined.

(** C5 as stated fails in two ways.  An Electro hit from the status's
    side on the opposing active character that the sources mark as
    [no_boost] meets every condition of the claim, and is neither raised
    nor does it use the status up.  A Pyro hit on the active character of
    the status's own side is aimed at another target than the opposing
    active character, and is raised by 2 all the same. *)
Lemma DendroCoreStatus_preprocess_counterexample :
  let no_boost := DamageType.mk false false false false false true false true in
  let source := StaticTarget.mk P1 COMBAT_STATUSES 0 in
  let marked := strike P2 ELECTRO 2 no_boost in
  let own := strike P1 PYRO 1 DamageType.default in
  (exists dmg' self',
     DendroCoreStatus.preprocess DendroCoreStatus.default board source
       (DmgPEvent marked) DMG_AMOUNT_PLUS
     = Some (DmgPEvent dmg', self') /\
     SpecificDamageEffect.damage dmg'
     <> SpecificDamageEffect.damage marked + 2 /\
     self' <> None) /\
  (exists dmg' self',
     DendroCoreStatus.preprocess DendroCoreStatus.default board source
       (DmgPEvent own) DMG_AMOUNT_PLUS
     = Some (DmgPEvent dmg', self') /\
     StaticTarget.pid (SpecificDamageEffect.target own)
     <> Pid_other (StaticTarget.pid source) /\
     dmg' <> own /\
     SpecificDamageEffect.damage dmg' = SpecificDamageEffect.damage own + 2).
Proof.
  split.
  - do 2 eexists. split; [reflexivity|]. split; simpl; [lia|discriminate].
  - do 2 eexists. split; [reflexivity|].
    split; [simpl; discriminate|]. split; [discriminate|reflexivity].
Qed.

(** ** [RockPaperScissorsComboPaperStatus] *)

Section PrepareSkillFacts.
Import RockPaperScissorsComboPaperStatus.

Variables budget_post_effect standard_post_effects :
  GameState.t -> Pid -> bool -> list (Effect t).

(** C7.  On [SELF_SWAP] the status asks for its own removal and emits no
    effect of its own, so that all [react_to_signal] issues is the
    removal of the status and the trailing checkers of a reaction without
    damage.  On [ACT_PRE_SKILL] it emits the removal of itself followed
    by 3 Electro damage at the opposing active character, and nothing
    else before the trailing checkers of a reaction with damage. *)
Theorem RockPaperScissorsComboPaper_react
    (self : t) (game_state : GameState.t) (source : StaticTarget.t)
    (detail : option InformableEvent) :
  _react_to_signal self game_state source SELF_SWAP detail
  = ([], Status.Removal) /\
  Status.react_to_signal budget_post_effect standard_post_effects class self
    game_state source SELF_SWAP detail
  = Some (RemoveCharacterStatusEffect source type_name
          :: standard_post_effects game_state (StaticTarget.pid source) false) /\
  _react_to_signal self game_state source ACT_PRE_SKILL detail
  = ([ RemoveCharacterStatusEffect source type_name;
       ReferredDamageEffect source OPPO_ACTIVE ELECTRO 3
         (DamageType.mk false false false true false true false false) ],
     Status.SameObject) /\
  Status.react_to_signal budget_post_effect standard_post_effects class self
    game_state source ACT_PRE_SKILL detail
  = Some (RemoveCharacterStatusEffect source type_name
          :: ReferredDamageEffect source OPPO_ACTIVE ELECTRO 3
               (DamageType.mk false false false true false true false false)
          :: standard_post_effects game_state (StaticTarget.pid source) true).
Proof. repeat split. Qed.

(** Any other signal leaves the status alone. *)
Lemma RockPaperScissorsComboPaper_idle
    (self : t) (game_state : GameState.t) (source : StaticTarget.t)
    (signal : TriggeringSignal) (detail : option InformableEvent) :
  REACTABLE_SIGNALS signal = false ->
  _react_to_signal self game_state source signal detail
  = ([], Status.SameObject).
Proof. by destruct signal. Qed.

(** Of its own effects, only those of [ACT_PRE_SKILL] hold a damage. *)
Lemma RockPaperScissorsComboPaper_damage
    (self : t) (game_state : GameState.t) (source : StaticTarget.t)
    (signal : TriggeringSignal) (detail : option InformableEvent) :
  existsb is_damage_effect
    (_react_to_signal self game_state source signal detail).1
  = match signal with ACT_PRE_SKILL => true | _ => false end.
Proof. by destruct signal. Qed.

End PrepareSkillFacts.

(** ** Looking up and replacing a character *)

Lemma get_character_split cs i c :
  Characters.get_character cs i = Some c ->
  Character.id c = i /\
  exists l1 l2,
    Characters.characters cs = l1 ++ c :: l2 /\
    Forall (fun x => Character.id x <> i) l1.
Proof.
  unfold Characters.get_character.
  induction (Characters.characters cs) as [|x l IH]; simpl; [discriminate|].
  destruct (Z.eqb_spec (Character.id x) i) as [Hx|Hx].
  - intros [= ->]. split; [done|]. by exists [], l.
  - intros Hfind. destruct (IH Hfind) as (Hid & l1 & l2 & -> & Hl1).
    split; [done|]. exists (x :: l1), l2. split; [done|]. by constructor.
Qed.

Lemma replace_by_id_app c c' l1 l2 :
  Forall (fun x => Character.id x <> Character.id c') l1 ->
  Character.id c = Character.id c' ->
  Characters.replace_by_id c' (l1 ++ c :: l2) = l1 ++ c' :: l2.
Proof.
  intros Hl1 Hid. induction Hl1 as [|x l1 Hx _ IH]; simpl.
  - destruct (Z.eqb_spec (Character.id c) (Character.id c')); [done|lia].
  - destruct (Z.eqb_spec (Character.id x) (Character.id c')); [done|].
    by rewrite IH.
Qed.

Lemma find_by_id_app i c l1 l2 :
  Forall (fun x => Character.id x <> i) l1 -> Character.id c = i ->
  List.find (fun x => Character.id x =? i) (l1 ++ c :: l2) = Some c.
Proof.
  intros Hl1 Hid. induction Hl1 as [|x l1 Hx _ IH]; simpl.
  - destruct (Z.eqb_spec (Character.id c) i); [done|lia].
  - destruct (Z.eqb_spec (Character.id x) i); [done|exact IH].
Qed.

(** Putting a changed copy of a character that is found by its id in its
    place changes that one position of the list and nothing else. *)
Lemma character_replaces cs i c c' :
  Characters.get_character cs i = Some c ->
  Character.id c' = Character.id c ->
  exists l1 l2,
    Characters.characters cs = l1 ++ c :: l2 /\
    Characters.characters (Characters.character c' cs) = l1 ++ c' :: l2 /\
    Characters.active_character_id (Characters.character c' cs)
    = Characters.active_character_id cs /\
    Characters.get_character (Characters.character c' cs) i = Some c'.
Proof.
  intros Hget Hid.
  destruct (get_character_split cs i c Hget) as (Hi & l1 & l2 & Hl & Hl1).
  exists l1, l2. split; [done|].
  assert (Hrep : Characters.characters (Characters.character c' cs)
                 = l1 ++ c' :: l2).
  { unfold Characters.character. simpl. rewrite Hl.
    apply replace_by_id_app; [|done].
    eapply Forall_impl; [exact Hl1|]. simpl. intros x Hx. lia. }
  split; [done|]. split; [done|].
  unfold Characters.get_character. rewrite Hrep.
  apply find_by_id_app; [done|lia].
Qed.

(** ** [DamageEffect.execute] *)

Section DamageEffectFacts.
Import EventEffect EventEffect.DamageEffect.


End DamageEffectFacts.



(** ** [EnergyRechargeEffect.execute] *)

Lemma set_energy_same c : Character.set_energy (Character.energy c) c = c.
Proof. by destruct c. Qed.

Lemma all_characters_player pid p gs :
  GameState.all_characters (GameState.player pid p gs)
  = match pid with
    | P1 => Characters.characters (PlayerState.characters p)
            ++ Characters.characters
                 (PlayerState.characters (GameState.player2 gs))
    | P2 => Characters.characters
              (PlayerState.characters (GameState.player1 gs))
            ++ Characters.characters (PlayerState.characters p)
    end.
Proof. by destruct pid. Qed.

Section EnergyRechargeFacts.
Import EventEffect EventEffect.EnergyRechargeEffect.

(** What [execute] does to the board when the target is a character. *)
Lemma EnergyRechargeEffect_execute_character self game_state character :
  get_target game_state (target self) = Some character ->
  let energy' :=
    Z.min (Character.energy character + recharge self)
          (Character.max_energy character) in
  let character' := Character.set_energy energy' character in
  (energy' = Character.energy character -> execute self game_state = game_state) /\
  get_target (execute self game_state) (target self) = Some character' /\
  exists l1 l2,
    Characters.characters
      (PlayerState.characters
         (GameState.get_player game_state (pid (target self))))
    = l1 ++ character :: l2 /\
    Characters.characters
      (PlayerState.characters
         (GameState.get_player (execute self game_state) (pid (target self))))
    = l1 ++ character' :: l2 /\
    GameState.get_player (execute self game_state) (Pid_other (pid (target self)))
    = GameState.get_player game_state (Pid_other (pid (target self))).
Proof.
  intros Hget energy' character'.
  assert (Hzone : zone (target self) = CHARACTER).
  { unfold get_target in Hget. by destruct (zone (target self)). }
  assert (Hchar :
    Characters.get_character
      (PlayerState.characters
         (GameState.get_player game_state (pid (target self))))
      (id (target self)) = Some character).
  { unfold get_target in Hget. by rewrite Hzone in Hget. }
  destruct (character_replaces _ _ character character' Hchar eq_refl)
    as (l1 & l2 & Hl & Hl' & _ & Hget').
  unfold execute. rewrite Hget. fold energy' character'.
  destruct (Z.eqb_spec energy' (Character.energy character)) as [Heq|Hne].
  - split; [done|].
    assert (character' = character) as ->.
    { subst character'. rewrite Heq. apply set_energy_same. }
    split; [done|]. exists l1, l2. by rewrite Hl.
  - split; [done|]. split.
    + unfold get_target. rewrite Hzone, get_player_player. exact Hget'.
    + exists l1, l2. rewrite get_player_player, get_player_player_other.
      by rewrite Hl.
Qed.

(** C8, as amended.  Executing an [EnergyRechargeEffect] whose recharge
    is not negative keeps every character's energy within
    [0, max_energy].  The target character's energy becomes
    [min(energy + recharge, max_energy)]; when the target is not a
    character, or the energy would not change, the game state comes back
    unchanged; no other field of the character and no other character is
    touched. *)
Theorem EnergyRechargeEffect_execute_energy
    (self : t) (game_state : GameState.t)
    (Hrecharge : 0 <= recharge self)
    (Hinv : Forall energy_in_range (GameState.all_characters game_state)) :
  Forall energy_in_range
    (GameState.all_characters (execute self game_state)) /\
  (get_target game_state (target self) = None ->
   execute self game_state = game_state) /\
  (forall character,
     get_target game_state (target self) = Some character ->
     let energy' :=
       Z.min (Character.energy character + recharge self)
             (Character.max_energy character) in
     let character' := Character.set_energy energy' character in
     (energy' = Character.energy character ->
      execute self game_state = game_state) /\
     get_target (execute self game_state) (target self) = Some character' /\
     exists l1 l2,
       Characters.characters
         (PlayerState.characters
            (GameState.get_player game_state (pid (target self))))
       = l1 ++ character :: l2 /\
       Characters.characters
         (PlayerState.characters
            (GameState.get_player (execute self game_state) (pid (target self))))
       = l1 ++ character' :: l2 /\
       GameState.get_player (execute self game_state)
         (Pid_other (pid (target self)))
       = GameState.get_player game_state (Pid_other (pid (target self)))).
Proof.
  split; [|split].
  - destruct (get_target game_state (target self)) as [character|] eqn:Hget.
    + destruct (EnergyRechargeEffect_execute_character self game_state
                  character Hget)
        as (_ & _ & l1 & l2 & Hl & Hl' & Hother).
      assert (Hc : energy_in_range character).
      { unfold GameState.all_characters in Hinv.
        apply Forall_app in Hinv as [Hp1 Hp2].
        destruct (pid (target self)); simpl in Hl.
        - rewrite Hl in Hp1. apply Forall_app in Hp1 as [_ Hp1].
          by apply Forall_cons in Hp1 as [? _].
        - rewrite Hl in Hp2. apply Forall_app in Hp2 as [_ Hp2].
          by apply Forall_cons in Hp2 as [? _]. }
      assert (Hc' : energy_in_range
                (Character.set_energy
                   (Z.min (Character.energy character + recharge self)
                          (Character.max_energy character)) character)).
      { unfold energy_in_range in *. simpl. lia. }
      unfold GameState.all_characters in *.
      apply Forall_app in Hinv as [Hp1 Hp2].
      destruct (pid (target self)); simpl in Hl, Hl', Hother.
      * rewrite Hl', Hother. rewrite Hl in Hp1.
        apply Forall_app in Hp1 as [H1 H2]. apply Forall_cons in H2 as [_ H2].
        apply Forall_app. split; [|done].
        apply Forall_app. split; [done|]. by apply Forall_cons.
      * rewrite Hl', Hother. rewrite Hl in Hp2.
        apply Forall_app in Hp2 as [H1 H2]. apply Forall_cons in H2 as [_ H2].
        apply Forall_app. split; [done|].
        apply Forall_app. split; [done|]. by apply Forall_cons.
    + unfold execute. by rewrite Hget.
  - intros Hget. unfold execute. by rewrite Hget.
  - intros character Hget.
    apply (EnergyRechargeEffect_execute_character self game_state character Hget).
Qed.

End EnergyRechargeFacts.

(** One point of energy for player 1's active character, who has none
    yet. *)
Lemma EnergyRechargeEffect_execute_witness :
  let self :=
    EventEffect.EnergyRechargeEffect.mk
      (EventEffect.mkStaticTarget P1 EventEffect.CHARACTER 1) 1 in
  Forall energy_in_range
    (GameState.all_characters
       (EventEffect.EnergyRechargeEffect.execute self board)) /\
  EventEffect.get_target
    (EventEffect.EnergyRechargeEffect.execute self board)
    (EventEffect.EnergyRechargeEffect.target self)
  = Some (Character.mk 1 10 10 true 1 3).
Proof.
  intros self.
  assert (Hrecharge : 0 <= EventEffect.EnergyRechargeEffect.recharge self)
    by (simpl; lia).
  assert (Hinv : Forall energy_in_range (GameState.all_characters board)).
  { repeat constructor; simpl; lia. }
  destruct (EnergyRechargeEffect_execute_energy self board Hrecharge Hinv)
    as (Hall & _ & Hchar).
  split; [exact Hall|].
  destruct (Hchar (Character.mk 1 10 10 true 0 3) eq_refl) as (_ & Hget & _).
  exact Hget.
Defined.

(** C8 as stated fails for a negative recharge: the energy of a character
    without energy drops below 0. *)
Lemma EnergyRechargeEffect_execute_counterexample :
  let self :=
    EventEffect.EnergyRechargeEffect.mk
      (EventEffect.mkStaticTarget P1 EventEffect.CHARACTER 1) (-1) in
  Forall energy_in_range (GameState.all_characters board) /\
  EventEffect.get_target
    (EventEffect.EnergyRechargeEffect.execute self board)
    (EventEffect.EnergyRechargeEffect.target self)
  = Some (Character.mk 1 10 10 true (-1) 3) /\
  ~ Forall energy_in_range
      (GameState.all_characters
         (EventEffect.EnergyRechargeEffect.execute self board)).
Proof.
  intros self. split; [|split].
  - repeat constructor; simpl; lia.
  - reflexivity.
  - intros Hall. apply Forall_cons in Hall as [Hc _].
    unfold energy_in_range in Hc. simpl in Hc. lia.
Qed.

(** ** The dice pool *)

Section DiceFacts.
Import Dice.

(** [__hash__]: whatever the hash function is, it is a function of the
    value. *)
Variable hash : gmultiset Element -> Z.

(** C9.  A payment that exactly satisfies a requirement and is contained
    in the pool can be taken out of the pool and put back: the pool that
    results equals the original one, and so does its hash. *)
Theorem Dice_payment_round_trip
    (pool requirement payment : gmultiset Element)
    (Hsatisfy : just_satisfy payment requirement = true)
    (Hcontained : payment ⊆ pool) :
  __add__ (__sub__ pool payment) payment = pool /\
  hash (__add__ (__sub__ pool payment) payment) = hash pool /\
  (num_dice (__sub__ pool payment) + num_dice payment)%nat = num_dice pool.
Proof.
  assert (Heq : __add__ (__sub__ pool payment) payment = pool).
  { unfold __add__, __sub__. multiset_solver. }
  split; [done|]. split; [by rewrite Heq|].
  unfold num_dice. rewrite <- gmultiset_size_disj_union.
  unfold __add__ in Heq. by rewrite Heq.
Qed.

(** [test_pick_random_dices]: the dice left and the dice picked add up to
    the pool, with equal hashes; picking nothing gives the pool back. *)
Lemma Dice_pick_random_dice (sample pool : gmultiset Element) (num : nat) :
  valid_sample pool num sample ->
  let '(rest, picked) := pick_random_dice sample pool num in
  __add__ rest picked = pool /\
  hash (__add__ rest picked) = hash pool /\
  num_dice picked = Nat.min (num_dice pool) num /\
  (num = 0%nat -> rest = pool).
Proof.
  intros [Hsub Hsize]. unfold pick_random_dice.
  destruct (Nat.eqb_spec (Nat.min (num_dice pool) num) 0) as [H0|H0].
  - assert (Heq : __add__ pool ∅ = pool) by (unfold __add__; multiset_solver).
    rewrite Heq. by repeat split.
  - assert (Heq : __add__ (__sub__ pool sample) sample = pool)
      by (unfold __add__, __sub__; multiset_solver).
    rewrite Heq. repeat split; try done. intros ->.
    rewrite Nat.min_0_r in H0. done.
Qed.

End DiceFacts.

(** The cases of [test_dices.py] for [just_satisfy]. *)
Example Dice_just_satisfy_tests :
  let d := Dice.from_dict in
  (* test_just_satisfy_pure_request *)
  Dice.just_satisfy (d [(OMNI, 2)]) (d [(PYRO, 2)]) = true /\
  Dice.just_satisfy (d [(OMNI, 1); (PYRO, 1)]) (d [(PYRO, 2)]) = true /\
  Dice.just_satisfy (d [(PYRO, 2)]) (d [(PYRO, 2)]) = true /\
  Dice.just_satisfy (d [(PYRO, 3)]) (d [(PYRO, 2)]) = false /\
  (* test_just_satisfy_typical_1pure_2any *)
  Dice.just_satisfy (d [(OMNI, 3)]) (d [(DENDRO, 1); (ANY, 2)]) = true /\
  Dice.just_satisfy (d [(OMNI, 1); (PYRO, 1); (ELECTRO, 1)])
    (d [(DENDRO, 1); (ANY, 2)]) = true /\
  Dice.just_satisfy (d [(DENDRO, 3)]) (d [(DENDRO, 1); (ANY, 2)]) = true /\
  Dice.just_satisfy (d [(OMNI, 1); (DENDRO, 1); (ANEMO, 1)])
    (d [(DENDRO, 1); (ANY, 2)]) = true /\
  Dice.just_satisfy (d [(GEO, 2); (ANEMO, 1)])
    (d [(DENDRO, 1); (ANY, 2)]) = false /\
  (* test_just_satisfy_typical_elemental_skill *)
  Dice.just_satisfy (d [(OMNI, 3)]) (d [(ELECTRO, 3)]) = true /\
  Dice.just_satisfy (d [(OMNI, 1); (ELECTRO, 2)]) (d [(ELECTRO, 3)]) = true /\
  Dice.just_satisfy (d [(ELECTRO, 3)]) (d [(ELECTRO, 3)]) = true /\
  Dice.just_satisfy (d [(OMNI, 1); (DENDRO, 1); (ANEMO, 1)])
    (d [(ELECTRO, 3)]) = false /\
  Dice.just_satisfy (d [(GEO, 2); (ANEMO, 1)]) (d [(ELECTRO, 3)]) = false /\
  (* test_just_satisfy_typical_all_omni *)
  Dice.just_satisfy (d [(OMNI, 4)]) (d [(OMNI, 4)]) = true /\
  Dice.just_satisfy (d [(OMNI, 1); (ELECTRO, 3)]) (d [(OMNI, 4)]) = true /\
  Dice.just_satisfy (d [(ELECTRO, 4)]) (d [(OMNI, 4)]) = true /\
  Dice.just_satisfy (d [(OMNI, 4); (DENDRO, 1)]) (d [(OMNI, 4)]) = false /\
  Dice.just_satisfy (d [(GEO, 2); (ANEMO, 2)]) (d [(OMNI, 4)]) = false.
Proof. vm_compute. repeat split. Qed.

(** A pool of four dice pays a skill that costs two Pyro dice with one
    Pyro die and the wildcard. *)
Lemma Dice_payment_round_trip_witness :
  let pool := Dice.from_dict [(PYRO, 2); (OMNI, 1); (GEO, 1)] in
  let payment := Dice.from_dict [(OMNI, 1); (PYRO, 1)] in
  Dice.__add__ (Dice.__sub__ pool payment) payment = pool /\
  Dice.num_dice (Dice.__sub__ pool payment) = 2%nat.
Proof.
  intros pool payment.
  assert (Hsatisfy : Dice.just_satisfy payment (Dice.from_dict [(PYRO, 2)]) = true)
    by (vm_compute; reflexivity).
  assert (Hcontained : payment ⊆ pool).
  { apply (bool_decide_unpack _). vm_compute. exact I. }
  destruct (Dice_payment_round_trip (fun d => Z.of_nat (size d)) pool
              (Dice.from_dict [(PYRO, 2)]) payment Hsatisfy Hcontained)
    as (Hround & _ & Hnum).
  split; [exact Hround|].
  assert (Hp : Dice.num_dice payment = 2%nat) by (vm_compute; reflexivity).
  assert (Hq : Dice.num_dice pool = 4%nat) by (vm_compute; reflexivity).
  lia.
Defined.

(** * More of [card/cards.py] *)

(** Counts in a container written out are settled kind by kind. *)
Ltac count_cards :=
  intros; cbn [HashableDict.Counter foldr];
  unfold Cards.__getitem__;
  repeat (rewrite ?get_insert, ?get_singleton, ?get_empty, ?get_add, ?get_sub);
  repeat case_decide; subst; try discriminate; cbn; lia.

Section MoreCardsFacts.
Implicit Types (c other cards : gmap string Z) (card : string).

Import Cards.

Lemma total_nonneg {K : Type} `{Countable K} (d : gmap K Z) :
  (forall k, 0 <= HashableDict.get d k) -> 0 <= HashableDict.total d.
Proof.
  induction d as [|i x m Hi IH] using map_ind; intros Hd.
  - pose proof (@total_empty K _ _) as H0. lia.
  - rewrite total_insert by done.
    assert (0 <= x).
    { specialize (Hd i). rewrite get_insert, decide_True in Hd; done. }
    assert (0 <= HashableDict.total m); [|lia].
    apply IH. intros k. specialize (Hd k). rewrite get_insert in Hd.
    destruct (decide (i = k)) as [->|]; [|done].
    rewrite (get_absent m k Hi). lia.
Qed.

Lemma pick_random_any (sample : list string) c (num : Z) :
  valid_sample c (Z.min (num_cards c) num) sample ->
  exists picked,
    pick_random sample c num = (__sub__ c picked, picked) /\
    num_cards picked = Z.min (num_cards c) num /\
    forall card, 0 <= __getitem__ picked card <= __getitem__ c card.
Proof.
  intros Hsample.
  destruct (pick_random_spec sample c (Z.min (num_cards c) num)
              ltac:(lia) Hsample) as (picked & Hpick & Hnum & Hsub).
  exists picked. split; [|done].
  rewrite <- Hpick. unfold pick_random.
  by replace (Z.min (num_cards c) (Z.min (num_cards c) num))
       with (Z.min (num_cards c) num) by lia.
Qed.

Lemma get_avoided_cards_in_pool c cards_back card :
  __getitem__ (avoided_cards_in_pool c cards_back) card
  = if 0 <? __getitem__ cards_back card then __getitem__ c card else 0.
Proof.
  unfold avoided_cards_in_pool, __getitem__, HashableDict.get.
  rewrite map_lookup_imap. destruct (cards_back !! card) as [v|]; simpl; [|done].
  by destruct (0 <? v).
Qed.

(** X1.  [pick_random] splits the container: what is left and what is
    picked add up to it kind by kind, the picked cards are as many as
    asked for, or all of them when fewer are held, and come out of the
    container. *)
Theorem Cards_pick_random_splits (sample : list string) c (num : Z)
    (Hsample : valid_sample c (Z.min (num_cards c) num) sample) :
  (forall card,
      __getitem__ (pick_random sample c num).1 card
      + __getitem__ (pick_random sample c num).2 card
      = __getitem__ c card) /\
  (forall card,
      0 <= __getitem__ (pick_random sample c num).2 card
        <= __getitem__ c card) /\
  num_cards (pick_random sample c num).2 = Z.min (num_cards c) num /\
  num_cards (pick_random sample c num).1
  = num_cards c - Z.min (num_cards c) num.
Proof.
  destruct (pick_random_any sample c num Hsample)
    as (picked & -> & Hnum & Hsub).
  cbn [fst snd]. repeat split.
  - intros card. rewrite getitem_sub. lia.
  - apply Hsub.
  - apply Hsub.
  - done.
  - rewrite num_cards_sub. lia.
Qed.

(** Two of three cards are picked. *)
Lemma Cards_pick_random_splits_witness :
  let c : gmap string Z := {["Paimon" := 2; "Timmie" := 1]} in
  num_cards (pick_random ["Paimon"; "Timmie"] c 2).2 = 2 /\
  num_cards (pick_random ["Paimon"; "Timmie"] c 2).1 = 1.
Proof.
  intros c.
  assert (Hsample : valid_sample c (Z.min (num_cards c) 2) ["Paimon"; "Timmie"]).
  { split; [vm_compute; reflexivity|]. subst c. count_cards. }
  destruct (Cards_pick_random_splits ["Paimon"; "Timmie"] c 2 Hsample)
    as (_ & _ & Hpicked & Hleft).
  split; [rewrite Hpicked | rewrite Hleft]; vm_compute; reflexivity.
Defined.

(** X2.  [add] and [remove] undo each other on the counts: a card added
    to a container that holds no negative count of it is the one
    [remove] takes out again, and a card that is held and removed is put
    back by [add]. *)
Theorem Cards_add_remove_round_trip c card :
  (0 <= __getitem__ c card ->
   exists c', remove (add c card) card = Some c' /\
     forall card', __getitem__ c' card' = __getitem__ c card') /\
  (0 < __getitem__ c card ->
   exists c', remove c card = Some c' /\
     forall card', __getitem__ (add c' card) card' = __getitem__ c card').
Proof.
  split.
  - intros Hc. eexists. split.
    + apply remove_held. unfold add. rewrite getitem_add, getitem_one.
      rewrite decide_True by done. lia.
    + intros card'. unfold add. rewrite getitem_sub, getitem_add. lia.
  - intros Hc. eexists. split; [by apply remove_held|].
    intros card'. unfold add. rewrite getitem_add, getitem_sub. lia.
Qed.

Lemma Cards_add_remove_round_trip_witness :
  let c : gmap string Z := {["Paimon" := 1]} in
  exists c', remove (add c "Paimon") "Paimon" = Some c' /\
    __getitem__ c' "Paimon" = 1.
Proof.
  intros c.
  destruct (Cards_add_remove_round_trip c "Paimon") as [Hadd _].
  destruct Hadd as (c' & Hrem & Hcount); [vm_compute; discriminate|].
  exists c'. split; [exact Hrem|]. rewrite Hcount. vm_compute. reflexivity.
Defined.

(** X3.  [remove_all] takes every copy of a kind that is held and no
    other card.  When the kind is not held the container comes back as it
    is, [OmniCard]s or not: unlike [remove], it never spends a
    placeholder. *)
Theorem Cards_remove_all_counts c card :
  __getitem__ (remove_all c card) card = Z.min (__getitem__ c card) 0 /\
  (forall card', card' <> card ->
     __getitem__ (remove_all c card) card' = __getitem__ c card') /\
  num_cards (remove_all c card)
  = num_cards c - Z.max (__getitem__ c card) 0 /\
  (__getitem__ c card <= 0 -> remove_all c card = c).
Proof.
  unfold remove_all.
  destruct (Z.leb_spec 1 (__getitem__ c card)) as [Hheld|Hnone].
  - split; [|split; [|split]].
    + rewrite getitem_sub. unfold __getitem__ in *.
      rewrite get_singleton, decide_True by done. lia.
    + intros card' Hne. rewrite getitem_sub. unfold __getitem__ in *.
      rewrite get_singleton, decide_False by done. lia.
    + rewrite num_cards_sub. unfold num_cards at 2.
      rewrite total_singleton. lia.
    + lia.
  - split; [lia|]. split; [done|]. split; [lia|done].
Qed.

(** X4.  [hide_all] keeps the number of cards, turns every one of them
    into an [OmniCard], and so makes a hand that is not empty contain
    every kind of card. *)
Theorem Cards_hide_all_counts c card :
  num_cards (hide_all c) = num_cards c /\
  __getitem__ (hide_all c) card
  = (if decide (card = OmniCard) then num_cards c else 0) /\
  contains (hide_all c) card = (0 <? num_cards c).
Proof.
  assert (Hget : forall k, __getitem__ (hide_all c) k
                           = if decide (k = OmniCard) then num_cards c else 0).
  { intros k. unfold hide_all, __getitem__. rewrite get_singleton.
    destruct (decide (OmniCard = k)), (decide (k = OmniCard)); congruence. }
  split; [apply total_singleton|]. split; [apply Hget|].
  unfold contains. rewrite !Hget. rewrite (decide_True (P := OmniCard = OmniCard)) by done.
  destruct (decide (card = OmniCard)); [by rewrite orb_diag|].
  done.
Qed.

Lemma get_qualified_cards (issubclass : string -> string -> bool)
    c card_type card :
  HashableDict.get (qualified_cards issubclass c card_type) card
  = if issubclass card card_type then HashableDict.get c card else 0.
Proof.
  unfold HashableDict.get, qualified_cards.
  destruct (filter _ c !! card) as [v|] eqn:Hf.
  - apply map_lookup_filter_Some in Hf as [-> Hq]. simpl in Hq.
    by rewrite Hq.
  - apply map_lookup_filter_None in Hf as [->|Hf]; [by destruct issubclass|].
    destruct (c !! card) as [v|] eqn:Hc; [|by destruct issubclass].
    specialize (Hf v eq_refl). simpl in Hf.
    by destruct (issubclass card card_type).
Qed.

(** X25.  [pick_random_of_type] picks cards of the asked type only:
    what is left and what is picked add up to the container, every
    picked kind is a subclass of the type and is held at least as often
    as it is picked, and the picked cards are as many as asked for, or
    all the cards of the type when they are fewer. *)
Theorem Cards_pick_random_of_type_picks_type
    (issubclass : string -> string -> bool) (sample : list string)
    c (num : Z) (card_type : string)
    (Hsample :
       valid_sample (qualified_cards issubclass c card_type)
         (Z.min (num_cards (qualified_cards issubclass c card_type)) num)
         sample) :
  let result := pick_random_of_type issubclass sample c num card_type in
  (forall card,
      __getitem__ result.1 card + __getitem__ result.2 card
      = __getitem__ c card) /\
  (forall card,
      0 < __getitem__ result.2 card ->
      issubclass card card_type = true /\
      __getitem__ result.2 card <= __getitem__ c card) /\
  num_cards result.2
  = Z.min (num_cards (qualified_cards issubclass c card_type)) num.
Proof.
  intros result. subst result. unfold pick_random_of_type.
  destruct Hsample as [Hlen Hsub]. fold (num_cards (qualified_cards issubclass c card_type)).
  destruct (Z.eqb_spec
              (Z.min (num_cards (qualified_cards issubclass c card_type)) num)
              0) as [H0|Hne]; cbn [fst snd].
  - split; [intros card; rewrite getitem_from_empty; lia|].
    split; [intros card; rewrite getitem_from_empty; lia|].
    by rewrite num_cards_from_empty.
  - split; [intros card; rewrite getitem_sub; lia|]. split.
    + intros card Hpicked. specialize (Hsub card).
      unfold __getitem__ in *. rewrite get_qualified_cards in Hsub.
      destruct (issubclass card card_type); [split; [done|lia]|lia].
    + unfold num_cards at 1. by rewrite total_Counter.
Qed.

Lemma Cards_pick_random_of_type_witness :
  let c : gmap string Z := {["Paimon" := 2; "Timmie" := 1]} in
  let issubclass := fun card card_type => String.eqb card card_type in
  num_cards (pick_random_of_type issubclass ["Timmie"] c 3 "Timmie").2 = 1.
Proof.
  intros c issubclass.
  destruct (Cards_pick_random_of_type_picks_type issubclass ["Timmie"] c 3
              "Timmie") as (_ & _ & Hnum).
  { split; [vm_compute; reflexivity|]. intros card.
    unfold __getitem__. rewrite get_qualified_cards. subst c issubclass.
    cbn [HashableDict.Counter foldr].
    repeat (rewrite ?get_insert, ?get_singleton, ?get_empty).
    destruct (String.eqb_spec card "Timmie") as [->|Hne];
      repeat case_decide; try discriminate; try congruence; lia. }
  rewrite Hnum. vm_compute. reflexivity.
Defined.

(** X5.  [switch_random_different] puts [cards_back] into the pool and
    draws as many cards as were put back: nothing is lost or made, kind
    by kind; the pool keeps its size; and when the pool holds enough
    cards of other kinds, no drawn card is of a kind that was put back. *)
Theorem Cards_switch_random_different_counts (sample : list string)
    c cards_back
    (Hlegal : forall card, 0 <= __getitem__ c card)
    (Hsample :
       valid_sample
         (if num_cards (diff_pool c cards_back) <? num_cards cards_back
          then same_pool c cards_back else diff_pool c cards_back)
         (if num_cards (diff_pool c cards_back) <? num_cards cards_back
          then num_cards cards_back - num_cards (diff_pool c cards_back)
          else num_cards cards_back)
         sample) :
  (forall card,
      __getitem__ (switch_random_different sample c cards_back).1 card
      + __getitem__ (switch_random_different sample c cards_back).2 card
      = __getitem__ c card + __getitem__ cards_back card) /\
  num_cards (switch_random_different sample c cards_back).2
  = num_cards cards_back /\
  num_cards (switch_random_different sample c cards_back).1 = num_cards c /\
  (num_cards cards_back <= num_cards (diff_pool c cards_back) ->
   forall card, 0 < __getitem__ cards_back card ->
     __getitem__ (switch_random_different sample c cards_back).2 card = 0).
Proof.
  pose proof (total_nonneg c Hlegal) as Hc. fold (num_cards c) in Hc.
  assert (Hdiff : num_cards (diff_pool c cards_back)
                  = num_cards c
                    - num_cards (avoided_cards_in_pool c cards_back)).
  { unfold diff_pool. apply num_cards_sub. }
  assert (Hsame : num_cards (same_pool c cards_back)
                  = num_cards cards_back
                    + num_cards (avoided_cards_in_pool c cards_back)).
  { unfold same_pool. apply num_cards_add. }
  assert (Hkind : forall card,
             __getitem__ (diff_pool c cards_back) card
             + __getitem__ (same_pool c cards_back) card
             = __getitem__ c card + __getitem__ cards_back card).
  { intros card. unfold diff_pool, same_pool.
    rewrite getitem_sub, getitem_add. lia. }
  unfold switch_random_different.
  destruct (Z.ltb_spec (num_cards (diff_pool c cards_back))
              (num_cards cards_back)) as [Hlt|Hge].
  - destruct (pick_random_any sample (same_pool c cards_back)
                (num_cards cards_back - num_cards (diff_pool c cards_back)))
      as (picked & -> & Hnum & Hsub).
    { by rewrite Z.min_r by lia. }
    cbn [fst snd]. split; [|split; [|split]].
    + intros card. rewrite getitem_add, getitem_sub.
      specialize (Hkind card). lia.
    + rewrite num_cards_add. lia.
    + rewrite num_cards_sub. lia.
    + lia.
  - destruct (pick_random_any sample (diff_pool c cards_back)
                (num_cards cards_back))
      as (picked & -> & Hnum & Hsub).
    { by rewrite Z.min_r by lia. }
    cbn [fst snd]. split; [|split; [|split]].
    + intros card. rewrite getitem_add, getitem_sub.
      specialize (Hkind card). lia.
    + lia.
    + rewrite num_cards_add, num_cards_sub. lia.
    + intros _ card Hback. specialize (Hsub card).
      unfold diff_pool in Hsub.
      rewrite getitem_sub, get_avoided_cards_in_pool in Hsub.
      destruct (Z.ltb_spec 0 (__getitem__ cards_back card)); lia.
Qed.

(** One card is put back and another kind is drawn. *)
Lemma Cards_switch_random_different_witness :
  let c : gmap string Z := {["Paimon" := 1; "Timmie" := 1]} in
  let cards_back : gmap string Z := {["Paimon" := 1]} in
  __getitem__ (switch_random_different ["Timmie"] c cards_back).2 "Paimon" = 0
  /\ num_cards (switch_random_different ["Timmie"] c cards_back).1 = 2.
Proof.
  intros c cards_back.
  assert (Hlegal : forall card, 0 <= __getitem__ c card).
  { subst c. count_cards. }
  assert (Hcond : (num_cards (diff_pool c cards_back)
                   <? num_cards cards_back) = false)
    by (vm_compute; reflexivity).
  destruct (Cards_switch_random_different_counts ["Timmie"] c cards_back Hlegal)
    as (_ & _ & Hleft & Havoid).
  { rewrite Hcond. split; [vm_compute; reflexivity|].
    clear Hlegal Hcond. intros card. unfold diff_pool.
    rewrite getitem_sub, get_avoided_cards_in_pool. subst c cards_back.
    count_cards. }
  split.
  - apply Havoid; vm_compute; [discriminate|reflexivity].
  - rewrite Hleft. vm_compute. reflexivity.
Defined.

(** X6.  [extend] with a limit adds only as many of the new cards as
    still fit under it: the size grows by the smaller of the number of
    new cards and the room left, so it ends at most at the limit or at
    the size the container already had; no card of the container is
    dropped, and no kind gains more than the new cards hold of it.
    Without a limit all the new cards are added. *)
Theorem Cards_extend_limit (sample : list string) c cards (limit : Z)
    (Hsample :
       valid_sample cards
         (Z.min (num_cards cards) (Z.max (limit - num_cards c) 0)) sample) :
  num_cards (extend sample c cards (Some limit))
  = num_cards c + Z.min (num_cards cards) (Z.max (limit - num_cards c) 0) /\
  num_cards (extend sample c cards (Some limit))
  <= Z.max limit (num_cards c) /\
  (forall card,
      __getitem__ c card
      <= __getitem__ (extend sample c cards (Some limit)) card
      <= __getitem__ c card + __getitem__ cards card) /\
  (forall card,
      __getitem__ (extend sample c cards None) card
      = __getitem__ c card + __getitem__ cards card).
Proof.
  unfold extend.
  destruct (pick_random_any sample cards (Z.max (limit - num_cards c) 0)
              Hsample) as (picked & -> & Hnum & Hsub).
  cbn [fst snd]. rewrite num_cards_add, Hnum.
  split; [done|]. split; [lia|]. split.
  - intros card. rewrite getitem_add. specialize (Hsub card). lia.
  - intros card. apply getitem_add.
Qed.

(** A hand of two with a limit of three takes one of two new cards. *)
Lemma Cards_extend_limit_witness :
  let c : gmap string Z := {["Paimon" := 2]} in
  let cards : gmap string Z := {["Timmie" := 2]} in
  num_cards (extend ["Timmie"] c cards (Some 3)) = 3.
Proof.
  intros c cards.
  destruct (Cards_extend_limit ["Timmie"] c cards 3) as (Hnum & _).
  { split; [vm_compute; reflexivity|]. subst cards. count_cards. }
  rewrite Hnum. vm_compute. reflexivity.
Defined.

End MoreCardsFacts.

(** * [OrderedCards] *)

Section OrderedCardsFacts.
Implicit Types (self cards : list string) (card : string).

Import OrderedCards.

Lemma slice_to_from {A} (l : list A) (k : Z) :
  slice_to l k ++ slice_from l k = l.
Proof.
  unfold slice_to, slice_from. destruct (0 <=? k); apply take_drop.
Qed.

Lemma pick_app self (n : Z) : (pick self n).1 ++ (pick self n).2 = self.
Proof.
  unfold pick. destruct (_ =? 0); cbn [fst snd].
  - apply app_nil_r.
  - apply slice_to_from.
Qed.

Lemma pick_top self (n : Z) :
  0 <= n -> (pick self n).2 = drop (length self - Z.to_nat n) self.
Proof.
  intros Hn. unfold pick.
  destruct (Z.eqb_spec (Z.min (Z.of_nat (length self)) n) 0) as [H0|Hne];
    cbn [fst snd].
  - unfold from_empty. symmetry. apply drop_ge.
    destruct (decide (n = 0)) as [->|]; lia.
  - unfold slice_from.
    destruct (Z.leb_spec 0 (- Z.min (Z.of_nat (length self)) n)); [lia|].
    f_equal. lia.
Qed.

(** X7.  [pick] cuts the row in two with nothing lost or reordered, for
    every [n]; for an [n] that is not negative the picked cards are the
    top [n] cards, or the whole row when it is shorter. *)
Theorem OrderedCards_pick_splits self (n : Z) :
  (pick self n).1 ++ (pick self n).2 = self /\
  (0 <= n ->
   (pick self n).2 = drop (length self - Z.to_nat n) self /\
   num_cards (pick self n).2 = Z.min (num_cards self) n).
Proof.
  split; [apply pick_app|]. intros Hn. rewrite pick_top by done.
  split; [done|]. unfold num_cards. rewrite length_drop. lia.
Qed.

Lemma OrderedCards_pick_splits_witness :
  (pick ["Paimon"; "Timmie"; "Katheryne"] 2).2 = ["Timmie"; "Katheryne"].
Proof.
  destruct (OrderedCards_pick_splits ["Paimon"; "Timmie"; "Katheryne"] 2)
    as [_ Htop].
  destruct Htop as [-> _]; [lia|]. reflexivity.
Defined.

(** X8.  [remove] takes the top card off the row whichever card it is
    asked to remove (the loop variable hides the parameter), and leaves
    an empty row as it is. *)
Theorem OrderedCards_remove_takes_top self card :
  remove self card = removelast self.
Proof.
  unfold remove. destruct self as [|x l _] using rev_ind; [done|].
  rewrite imap_app, reverse_app. cbn [imap]. rewrite reverse_singleton.
  cbn [app remove_loop].
  rewrite String.eqb_refl, removelast_last.
  rewrite Nat.add_0_r, take_app_length.
  rewrite drop_ge by (rewrite length_app; simpl; lia).
  apply app_nil_r.
Qed.

(** X9.  [extend] with a limit keeps the row and puts on top of it the
    top cards of the new ones, as many as still fit: the row grows by
    the smaller of the number of new cards and the room left. *)
Theorem OrderedCards_extend_limit self cards (limit : Z) :
  extend self cards (Some limit)
  = self ++ drop (length cards
                  - Z.to_nat (Z.max (limit - Z.of_nat (length self)) 0)) cards /\
  num_cards (extend self cards (Some limit))
  = num_cards self
    + Z.min (num_cards cards) (Z.max (limit - num_cards self) 0) /\
  num_cards (extend self cards (Some limit))
  <= Z.max limit (num_cards self).
Proof.
  unfold extend, __add__. rewrite pick_top by lia.
  split; [done|]. unfold num_cards. rewrite length_app, length_drop. lia.
Qed.

(** *** From one container to the other *)

Lemma ordered_cards_incr (c : gmap string Z) card :
  0 <= HashableDict.get c card ->
  Cards.ordered_cards (<[card := HashableDict.get c card + 1]> c)
  ≡ₚ card :: Cards.ordered_cards c.
Proof.
  destruct (c !! card) as [v|] eqn:Hx.
  - unfold HashableDict.get. rewrite Hx. simpl. intros Hv.
    rewrite <- (insert_delete_id c card v Hx). rewrite insert_insert_eq.
    rewrite !ordered_cards_insert by apply lookup_delete_eq.
    replace (Z.to_nat (v + 1)) with (S (Z.to_nat v)) by lia. done.
  - intros _. rewrite get_absent by done.
    by rewrite ordered_cards_insert by done.
Qed.

(** X10.  Turning a container into a row and back keeps the count of
    every kind that is not negative, and drops the negative ones to 0;
    turning a row into a container and back gives the same cards,
    possibly in another order. *)
Theorem Cards_OrderedCards_round_trip (c : gmap string Z) self card :
  Cards.__getitem__ (to_cards (of_cards c)) card
  = Z.max 0 (Cards.__getitem__ c card) /\
  of_cards (to_cards self) ≡ₚ self.
Proof.
  split.
  - unfold to_cards, to_dict, of_cards, Cards.__getitem__.
    rewrite get_Counter, count_ordered_cards.
    unfold Cards.__getitem__. lia.
  - unfold to_cards, to_dict, of_cards.
    induction self as [|x l IH]; [done|].
    cbn [HashableDict.Counter foldr].
    rewrite ordered_cards_incr by apply get_Counter_nonneg.
    by rewrite IH.
Qed.

(** *** Encodings *)

(** What [decoding] does with a code: the first code that is not 0
    decides. *)
Lemma decoding_first_code (code : list Z) plan acc :
  decoding_loop code plan acc
  = match List.find (fun card_code => negb (card_code =? 0)) code with
    | None => Some (Some acc)
    | Some card_code =>
        if EncodingPlan.type_for plan card_code is Some _ then None
        else Some None
    end.
Proof.
  induction code as [|card_code rest IH]; [done|].
  cbn [decoding_loop List.find].
  destruct (card_code =? 0); cbn [negb]; [exact IH|].
  by destruct (EncodingPlan.type_for plan card_code).
Qed.

Lemma find_replicate_zero (k : nat) :
  List.find (fun card_code => negb (card_code =? 0)) (replicate k 0) = None.
Proof. induction k as [|k IH]; [done|exact IH]. Qed.

(** X11.  A row that fits the plan's length is encoded to exactly that
    length, and a longer row is not encoded at all.  [decoding] never
    gives a card back: the first code that is not 0 makes it raise when
    the plan knows the code (the name [Card] is not bound where the
    method tests the card), and return [None] when the plan does not; a
    code of zeros alone gives the empty row.  So the code of a row that
    is not empty, made of codes other than 0 that the plan knows, is not
    decoded: the method raises. *)
Theorem OrderedCards_encoding_decoding self plan
    (Hplan : forall card, card ∈ self ->
       EncodingPlan.encode_item plan card <> 0 /\
       is_Some (EncodingPlan.type_for plan
                  (EncodingPlan.encode_item plan card)))
    (Hlen : num_cards self <= EncodingPlan.CARDS_FIXED_LEN plan) :
  (exists code,
     encoding self plan = Some code /\
     Z.of_nat (length code) = EncodingPlan.CARDS_FIXED_LEN plan /\
     decoding code plan = if self is [] then Some (Some []) else None) /\
  (forall cards, EncodingPlan.CARDS_FIXED_LEN plan < num_cards cards ->
     encoding cards plan = None) /\
  (forall code row, decoding code plan = Some (Some row) ->
     row = [] /\ Forall (fun card_code => card_code = 0) code).
Proof.
  unfold num_cards in *. split; [|split].
  - unfold encoding. rewrite length_fmap.
    destruct (Z.ltb_spec
                (EncodingPlan.CARDS_FIXED_LEN plan - Z.of_nat (length self)) 0);
      [lia|].
    eexists. split; [done|]. split.
    + rewrite length_app, length_fmap, length_replicate. lia.
    + unfold decoding. rewrite decoding_first_code.
      destruct self as [|card rest]; cbn [fmap list_fmap app List.find].
      * by rewrite find_replicate_zero.
      * destruct (Hplan card) as [Hne [c Hknown]]; [left|].
        destruct (Z.eqb_spec (EncodingPlan.encode_item plan card) 0); [done|].
        cbn [negb]. by rewrite Hknown.
  - intros cards Hlong. unfold encoding. rewrite length_fmap.
    destruct (Z.ltb_spec
                (EncodingPlan.CARDS_FIXED_LEN plan - Z.of_nat (length cards)) 0);
      [done|lia].
  - intros code row. unfold decoding. rewrite decoding_first_code.
    destruct (List.find _ code) as [card_code|] eqn:Hfind.
    + by destruct (EncodingPlan.type_for plan card_code).
    + intros [= <-]. split; [done|]. apply Forall_forall. intros x Hx.
      apply list_elem_of_In in Hx.
      pose proof (find_none _ _ Hfind x Hx) as Hzero. simpl in Hzero.
      destruct (Z.eqb_spec x 0); [done|discriminate].
Qed.

(** The code of a row of two known cards makes [decoding] raise. *)
Lemma OrderedCards_encoding_decoding_witness :
  exists code,
    encoding ["Timmie"; "Paimon"] two_card_plan = Some code /\
    decoding code two_card_plan = None.
Proof.
  destruct (OrderedCards_encoding_decoding ["Timmie"; "Paimon"] two_card_plan)
    as [(code & Henc & _ & Hdec) _].
  - intros card Hin.
    apply elem_of_cons in Hin as [->|Hin];
      [split; [by vm_compute|eexists; reflexivity]|].
    apply elem_of_cons in Hin as [->|Hin];
      [split; [by vm_compute|eexists; reflexivity]|].
    by apply elem_of_nil in Hin.
  - vm_compute. discriminate.
  - by exists code.
Defined.

Lemma Cards_decoding_loop_encode self plan (k : nat) (acc : gmap string Z) :
  (forall card, card ∈ self ->
     EncodingPlan.encode_item plan card <> 0 /\
     EncodingPlan.type_for plan (EncodingPlan.encode_item plan card)
     = Some card /\
     EncodingPlan.is_card plan card = true) ->
  exists decoded,
    Cards_decoding_loop
      ((EncodingPlan.encode_item plan <$> self) ++ replicate k 0) plan acc
    = Some decoded /\
    forall card,
      HashableDict.get decoded card
      = HashableDict.get acc card
        + Z.of_nat (length (filter (fun x => x = card) self)).
Proof.
  revert acc. induction self as [|x l IH]; intros acc Hplan.
  - exists acc. split; [|intros card; simpl; lia].
    simpl. induction k as [|k IHk]; [done|]. simpl. exact IHk.
  - destruct (Hplan x) as (Hne & Htype & Hcard); [left|].
    cbn [fmap list_fmap app Cards_decoding_loop].
    destruct (Z.eqb_spec (EncodingPlan.encode_item plan x) 0); [done|].
    rewrite Htype, Hcard. cbn [negb].
    destruct (IH (<[x := HashableDict.get acc x + 1]> acc))
      as (decoded & Hloop & Hcount).
    { intros card Hin. apply Hplan. by right. }
    exists decoded. split; [exact Hloop|].
    intros card. rewrite Hcount, get_insert, filter_cons.
    destruct (decide (x = card)) as [->|]; simpl; lia.
Qed.

(** X12.  A legal container that fits the plan's length is encoded, and
    decoding the code gives a container with the same count of every
    kind, whenever the plan gives every card held a code other than 0
    that it reads back as that card. *)
Theorem Cards_encoding_decoding (c : gmap string Z) plan
    (Hlegal : forall card, 0 <= Cards.__getitem__ c card)
    (Hplan : forall card, 0 < Cards.__getitem__ c card ->
       EncodingPlan.encode_item plan card <> 0 /\
       EncodingPlan.type_for plan (EncodingPlan.encode_item plan card)
       = Some card /\
       EncodingPlan.is_card plan card = true)
    (Hlen : Cards.num_cards c <= EncodingPlan.CARDS_FIXED_LEN plan) :
  exists code decoded,
    Cards_encoding c plan = Some code /\
    Z.of_nat (length code) = EncodingPlan.CARDS_FIXED_LEN plan /\
    Cards_decoding code plan = Some decoded /\
    forall card, Cards.__getitem__ decoded card = Cards.__getitem__ c card.
Proof.
  pose proof (length_ordered_cards c Hlegal) as Hrow.
  assert (Hplan' : forall card, card ∈ Cards.ordered_cards c ->
     EncodingPlan.encode_item plan card <> 0 /\
     EncodingPlan.type_for plan (EncodingPlan.encode_item plan card)
     = Some card /\
     EncodingPlan.is_card plan card = true).
  { intros card Hin. apply Hplan.
    pose proof (count_ordered_cards c card) as Hcount.
    assert (card ∈ filter (fun x => x = card) (Cards.ordered_cards c)) as Hf
      by (by apply list_elem_of_filter).
    destruct (filter (fun x => x = card) (Cards.ordered_cards c));
      [by apply elem_of_nil in Hf|].
    simpl in Hcount. lia. }
  unfold Cards_encoding, encoding. rewrite length_fmap.
  destruct (Z.ltb_spec
              (EncodingPlan.CARDS_FIXED_LEN plan
               - Z.of_nat (length (Cards.ordered_cards c))) 0); [lia|].
  destruct (Cards_decoding_loop_encode (Cards.ordered_cards c) plan
              (Z.to_nat (EncodingPlan.CARDS_FIXED_LEN plan
                         - Z.of_nat (length (Cards.ordered_cards c)))) ∅ Hplan')
    as (decoded & Hloop & Hcount).
  eexists _, decoded. split; [done|]. split; [|split].
  - rewrite length_app, length_fmap, length_replicate. lia.
  - exact Hloop.
  - intros card. unfold Cards.__getitem__. rewrite Hcount, get_empty.
    rewrite count_ordered_cards. specialize (Hlegal card).
    unfold Cards.__getitem__ in *. lia.
Qed.

Lemma Cards_encoding_decoding_witness :
  let c : gmap string Z := {["Paimon" := 2]} in
  exists code decoded,
    Cards_encoding c two_card_plan = Some code /\
    Cards_decoding code two_card_plan = Some decoded /\
    Cards.__getitem__ decoded "Paimon" = 2.
Proof.
  intros c.
  destruct (Cards_encoding_decoding c two_card_plan)
    as (code & decoded & Henc & _ & Hdec & Hcount).
  - subst c. count_cards.
  - intros card. subst c. unfold Cards.__getitem__.
    rewrite get_singleton. case_decide; [subst; by vm_compute|lia].
  - vm_compute. discriminate.
  - exists code, decoded. split; [exact Henc|]. split; [exact Hdec|].
    rewrite Hcount. vm_compute. reflexivity.
Defined.

(** *** Random insertions *)

Lemma list_insert_at_perm {A} (i : nat) (x : A) (c : list A) :
  list_insert_at i x c ≡ₚ x :: c.
Proof.
  unfold list_insert_at. rewrite <- Permutation_middle.
  by rewrite take_drop.
Qed.

Lemma list_insert_at_sublist {A} (i : nat) (x : A) (c : list A) :
  c `sublist_of` list_insert_at i x c.
Proof.
  unfold list_insert_at. rewrite <- (take_drop i c) at 1.
  apply sublist_app; [done|]. by apply sublist_cons.
Qed.

Lemma _standard_insertions_from_spec {A} (rand : nat -> nat) (k : nat)
    (c b : list A) :
  _standard_insertions_from rand k c b ≡ₚ c ++ b /\
  c `sublist_of` _standard_insertions_from rand k c b.
Proof.
  revert k c. induction b as [|n b IH]; intros k c; simpl.
  - by rewrite app_nil_r.
  - destruct (IH (S k) (list_insert_at (rand k) n c)) as [Hperm Hsub].
    split.
    + rewrite Hperm, list_insert_at_perm. simpl.
      by rewrite Permutation_middle.
    + etrans; [apply list_insert_at_sublist|exact Hsub].
Qed.

(** X13.  Whatever positions the random source gives,
    [_standard_insertions] returns the elements of [a] and [b] and no
    other, each as often as the two hold it, and keeps the elements of
    [a] in their order. *)
Theorem standard_insertions_mixes {A} (rand : nat -> nat) (a b : list A) :
  _standard_insertions rand a b ≡ₚ a ++ b /\
  a `sublist_of` _standard_insertions rand a b /\
  length (_standard_insertions rand a b) = (length a + length b)%nat.
Proof.
  destruct (_standard_insertions_from_spec rand 0 a b) as [Hperm Hsub].
  split; [exact Hperm|]. split; [exact Hsub|].
  unfold _standard_insertions. by rewrite Hperm, length_app.
Qed.

End OrderedCardsFacts.

(** * More of [phase/default/card_select_phase.py] *)

Section MoreCardSelectFacts.
Import Cards CardSelectPhase.

(** X14.  [_draw_cards_and_activate] deals each player a new hand out of
    that player's deck: hand and deck together hold what the deck held,
    the hand has [_NUM_CARDS] cards, or the whole deck when it is
    smaller, and the cards of the hand held before are in neither.  Both
    players get one redraw chance and are set to act. *)
Theorem card_select_draw_deals (sample1 sample2 : list string)
    (game_state : GameState.t)
    (Hsample1 :
       valid_sample (PlayerState.deck_cards (GameState.player1 game_state))
         (Z.min (num_cards (PlayerState.deck_cards
                              (GameState.player1 game_state))) _NUM_CARDS)
         sample1)
    (Hsample2 :
       valid_sample (PlayerState.deck_cards (GameState.player2 game_state))
         (Z.min (num_cards (PlayerState.deck_cards
                              (GameState.player2 game_state))) _NUM_CARDS)
         sample2)
    (pid : Pid) :
  let p := GameState.get_player game_state pid in
  let p' := GameState.get_player
              (_draw_cards_and_activate sample1 sample2 game_state) pid in
  (forall card,
      __getitem__ (PlayerState.hand_cards p') card
      + __getitem__ (PlayerState.deck_cards p') card
      = __getitem__ (PlayerState.deck_cards p) card) /\
  num_cards (PlayerState.hand_cards p')
  = Z.min (num_cards (PlayerState.deck_cards p)) _NUM_CARDS /\
  PlayerState.phase p' = ACTION_PHASE /\
  PlayerState.card_redraw_chances p' = 1 /\
  PlayerState.characters p' = PlayerState.characters p.
Proof.
  unfold _draw_cards_and_activate.
  destruct (pick_random_any sample1 _ _ Hsample1) as (h1 & -> & Hn1 & Hs1).
  destruct (pick_random_any sample2 _ _ Hsample2) as (h2 & -> & Hn2 & Hs2).
  destruct pid; cbn [GameState.get_player GameState.player1 GameState.player2
                     PlayerState.hand_cards PlayerState.deck_cards
                     PlayerState.phase PlayerState.card_redraw_chances
                     PlayerState.characters].
  - split; [|done]. intros card. rewrite getitem_sub. lia.
  - split; [|done]. intros card. rewrite getitem_sub. lia.
Qed.

Lemma card_select_draw_deals_witness :
  let sample := ["Paimon"; "Paimon"; "Timmie"; "Paimon"; "Timmie"] in
  num_cards (PlayerState.hand_cards
               (GameState.get_player
                  (_draw_cards_and_activate sample sample stocked_board) P2))
  = 5.
Proof.
  intros sample.
  assert (Hsample : valid_sample stocked_deck
                      (Z.min (num_cards stocked_deck) _NUM_CARDS) sample).
  { split; [vm_compute; reflexivity|]. unfold stocked_deck. subst sample.
    count_cards. }
  destruct (card_select_draw_deals sample sample stocked_board
              Hsample Hsample P2) as (_ & Hhand & _).
  rewrite Hhand. vm_compute. reflexivity.
Defined.

Lemma step_waiting (sample1 sample2 : list string) game_state :
  PlayerState.phase (GameState.player1 game_state) = PASSIVE_WAIT_PHASE ->
  PlayerState.phase (GameState.player2 game_state) = PASSIVE_WAIT_PHASE ->
  exists dealt,
    step sample1 sample2 game_state = Some (CardSelect, dealt) /\
    forall pid,
      PlayerState.phase (GameState.get_player dealt pid) = ACTION_PHASE /\
      PlayerState.card_redraw_chances (GameState.get_player dealt pid) = 1.
Proof.
  intros Hwait1 Hwait2. unfold step. rewrite Hwait1, Hwait2.
  cbn [Act_eqb andb]. eexists. split; [reflexivity|].
  unfold _draw_cards_and_activate.
  destruct (pick_random sample1 _ _), (pick_random sample2 _ _).
  intros []; done.
Qed.

Lemma step_action_done (sample : list string) game_state pid action :
  action <> OtherAction ->
  PlayerState.card_redraw_chances (GameState.get_player game_state pid) = 1 ->
  exists game_state',
    step_action sample game_state pid action = Some game_state' /\
    PlayerState.phase (GameState.get_player game_state' pid) = END_PHASE /\
    PlayerState.card_redraw_chances (GameState.get_player game_state' pid)
    = 0 /\
    GameState.get_player game_state' (Pid_other pid)
    = GameState.get_player game_state (Pid_other pid).
Proof.
  intros Haction Hchance. destruct action as [selected_cards| |]; [| |done];
    (eexists; split; [reflexivity|]).
  - unfold _handle_card_drawing. destruct (pick_random sample _ _).
    rewrite get_player_player, get_player_player_other, Hchance.
    done.
  - unfold _handle_end_round.
    by rewrite get_player_player, get_player_player_other.
Qed.

(** X15.  A round of the phase: from two waiting players [step] deals
    the cards and lets both act; a player who redraws or ends the round
    is done, having had one chance only; while one player is done and
    the other is not, [step] raises; once both are done [step] leads to
    the starting-hand phase, both players waiting again with the hands
    and decks they had. *)
Theorem card_select_round (sample1 sample2 sample3 sample4 : list string)
    (game_state : GameState.t) (action1 action2 : PlayerAction)
    (Hwait1 : PlayerState.phase (GameState.player1 game_state)
              = PASSIVE_WAIT_PHASE)
    (Hwait2 : PlayerState.phase (GameState.player2 game_state)
              = PASSIVE_WAIT_PHASE)
    (Haction1 : action1 <> OtherAction)
    (Haction2 : action2 <> OtherAction) :
  exists dealt half done over,
    step sample1 sample2 game_state = Some (CardSelect, dealt) /\
    step_action sample3 dealt P1 action1 = Some half /\
    step sample1 sample2 half = None /\
    step_action sample4 half P2 action2 = Some done /\
    step sample1 sample2 done = Some (StartingHandSelect, over) /\
    (forall pid,
        PlayerState.phase (GameState.get_player over pid)
        = PASSIVE_WAIT_PHASE /\
        PlayerState.card_redraw_chances (GameState.get_player over pid) = 0 /\
        PlayerState.hand_cards (GameState.get_player over pid)
        = PlayerState.hand_cards (GameState.get_player done pid) /\
        PlayerState.deck_cards (GameState.get_player over pid)
        = PlayerState.deck_cards (GameState.get_player done pid)).
Proof.
  destruct (step_waiting sample1 sample2 game_state Hwait1 Hwait2)
    as (dealt & Hdealt & Hacting).
  destruct (step_action_done sample3 dealt P1 action1 Haction1)
    as (half & Hhalf & Hend1 & Hzero1 & Hother1); [apply Hacting|].
  destruct (step_action_done sample4 half P2 action2 Haction2)
    as (done & Hdone & Hend2 & Hzero2 & Hother2).
  { cbn [Pid_other] in Hother1. rewrite Hother1. apply Hacting. }
  destruct (Hacting P2) as [Hact2 _].
  cbn [Pid_other GameState.get_player] in *.
  exists dealt, half, done, (_to_starting_hand_select_phase done).2.
  split; [exact Hdealt|]. split; [exact Hhalf|]. split.
  { unfold step. by rewrite Hend1, Hother1, Hact2. }
  split; [exact Hdone|]. split.
  { unfold step. rewrite Hend2, Hother2, Hend1. done. }
  intros []; cbn; [rewrite Hother2|]; done.
Qed.

Lemma card_select_round_witness :
  exists over,
    (CardSelectPhase.step [] [] waiting_board
       ≫= fun '(_, dealt) => step_action [] dealt P1 EndRoundAction
       ≫= fun half => step_action [] half P2 EndRoundAction
       ≫= fun done => CardSelectPhase.step [] [] done)
    = Some (StartingHandSelect, over).
Proof.
  destruct (card_select_round [] [] [] [] waiting_board
              EndRoundAction EndRoundAction)
    as (dealt & half & done & over & H1 & H2 & _ & H3 & H4 & _);
    try reflexivity; try discriminate.
  exists over. rewrite H1. cbn [mbind option_bind]. rewrite H2.
  cbn [mbind option_bind]. rewrite H3. cbn [mbind option_bind]. exact H4.
Defined.

End MoreCardSelectFacts.

(** * More of [status/status.py] *)

(** ** What a shield can never do *)

Section ShieldInvariants.
Context {F : Type}.
Implicit Types (self : UsageStatus.t F) (dmg : SpecificDamageEffect.t).

Lemma replace_damage_same dmg :
  SpecificDamageEffect.replace_damage dmg (SpecificDamageEffect.damage dmg)
  = dmg.
Proof. by destruct dmg. Qed.

(** What [_UsageStatus._post_preprocess] hands on. *)
Lemma UsageStatus_post_preprocess_spec (cls : UsageStatus.Class)
    (item : PreprocessableEvent) (new_self : option (UsageStatus.t F)) :
  (UsageStatus._post_preprocess cls item new_self).1 = item /\
  match (UsageStatus._post_preprocess cls item new_self).2 with
  | None => True
  | Some s' =>
      0 <= UsageStatus.usages s' /\
      (UsageStatus.AUTO_DESTROY cls = true -> 0 < UsageStatus.usages s') /\
      exists s, new_self = Some s /\
        UsageStatus.fields s' = UsageStatus.fields s /\
        UsageStatus.usages s' = Z.max 0 (UsageStatus.usages s)
  end.
Proof.
  unfold UsageStatus._post_preprocess, Status._post_preprocess.
  split; [done|]. cbn [snd]. destruct new_self as [s|]; [|done].
  destruct (UsageStatus.AUTO_DESTROY cls) eqn:Hauto; cbn [andb].
  - destruct (Z.leb_spec (UsageStatus.usages s) 0); [done|].
    destruct (Z.ltb_spec (UsageStatus.usages s) 0); [lia|].
    split; [lia|]. split; [lia|]. exists s. split; [done|]. split; [done|lia].
  - destruct (Z.ltb_spec (UsageStatus.usages s) 0).
    + cbn [UsageStatus.replace_usages UsageStatus.usages UsageStatus.fields].
      split; [lia|]. split; [done|]. exists s. split; [done|].
      split; [done|lia].
    + split; [lia|]. split; [done|]. exists s. split; [done|].
      split; [done|lia].
Qed.

Lemma UsageStatus_post_preprocess_inv (cls : UsageStatus.Class)
    (item new_item : PreprocessableEvent)
    (status new_status : option (UsageStatus.t F)) :
  UsageStatus._post_preprocess cls item status = (new_item, new_status) ->
  new_item = item /\
  match new_status with
  | None => True
  | Some s' =>
      0 <= UsageStatus.usages s' /\
      (UsageStatus.AUTO_DESTROY cls = true -> 0 < UsageStatus.usages s') /\
      exists s, status = Some s /\
        UsageStatus.fields s' = UsageStatus.fields s /\
        UsageStatus.usages s' = Z.max 0 (UsageStatus.usages s)
  end.
Proof.
  intros Hpost.
  pose proof (UsageStatus_post_preprocess_spec cls item status) as [Hi Hs].
  rewrite Hpost in Hi, Hs. by split.
Qed.

(** The ways [_preprocess] of a stacked shield can end where the damage
    is being lowered. *)
Lemma StackedShieldStatus_preprocess_cases (cls : StackedShieldStatus.Class)
    self game_state status_source dmg :
  0 < StackedShieldStatus.SHIELD_AMOUNT cls ->
  ((ShieldStatus._is_target (StackedShieldStatus.family cls) game_state
      status_source dmg = None \/
    (0 < SpecificDamageEffect.damage dmg /\
     ceil_div (SpecificDamageEffect.damage dmg)
       (StackedShieldStatus.SHIELD_AMOUNT cls) = None)) /\
   StackedShieldStatus._preprocess cls self game_state status_source
     (DmgPEvent dmg) DMG_AMOUNT_MINUS = None) \/
  StackedShieldStatus._preprocess cls self game_state status_source
    (DmgPEvent dmg) DMG_AMOUNT_MINUS = Some (DmgPEvent dmg, Some self) \/
  exists consumed,
    0 <= consumed <= UsageStatus.usages self /\
    0 < SpecificDamageEffect.damage dmg /\
    StackedShieldStatus._preprocess cls self game_state status_source
      (DmgPEvent dmg) DMG_AMOUNT_MINUS
    = Some
        (DmgPEvent
           (SpecificDamageEffect.replace_damage dmg
              (Z.max 0 (SpecificDamageEffect.damage dmg
                        - consumed * StackedShieldStatus.SHIELD_AMOUNT cls))),
         if UsageStatus.usages self - consumed =? 0 then None
         else Some (UsageStatus.replace_usages self
                      (UsageStatus.usages self - consumed))).
Proof.
  intros Hamount. unfold StackedShieldStatus._preprocess, Status._preprocess.
  destruct (Z.ltb_spec 0 (SpecificDamageEffect.damage dmg)) as [Hd|Hd];
    cbn [andb]; [|right; left; reflexivity].
  destruct (Z.ltb_spec 0 (UsageStatus.usages self)) as [Hu|Hu];
    cbn [andb]; [|right; left; reflexivity].
  destruct (negb _); [|right; left; reflexivity].
  destruct (ShieldStatus._is_target _ _ _ _) as [[|]|];
    [|right; left; reflexivity|left; split; [by left|done]].
  destruct (ceil_div _ _) as [q|] eqn:Hq;
    [|left; split; [by right|done]].
  right; right.
  assert (Hq0 : 0 <= q).
  { eapply ceil_div_nonneg; [|exact Hamount|exact Hq]. lia. }
  exists (Z.min q (UsageStatus.usages self)).
  split; [lia|]. split; [done|]. cbv zeta. by destruct (_ =? 0).
Qed.

(** X16.  Where a damage is being lowered, the one signal at which every
    stacked shield of the sources uses the template, a stacked shield
    with a positive [SHIELD_AMOUNT] never raises the damage and never
    changes what the damage is but its amount, whatever the target and
    its own usages; a shield that stays has usages left, at most as many
    as before, and its other fields are as they were.  Attached to a
    character it answers every damage below [2 ^ 53], its
    [SHIELD_AMOUNT] being below [2 ^ 53] too: beyond the doubles the
    division may raise. *)
Theorem StackedShieldStatus_preprocess_only_lowers
    (cls : StackedShieldStatus.Class) self
    (game_state : GameState.t) (status_source : StaticTarget.t) dmg
    (Hamount : 0 < StackedShieldStatus.SHIELD_AMOUNT cls) :
  (StackedShieldStatus.family cls = Status.PersonalStatus ->
   SpecificDamageEffect.damage dmg < 2 ^ 53 ->
   StackedShieldStatus.SHIELD_AMOUNT cls < 2 ^ 53 ->
   is_Some (StackedShieldStatus.preprocess cls self game_state status_source
              (DmgPEvent dmg) DMG_AMOUNT_MINUS)) /\
  (forall new_item new_self,
     StackedShieldStatus.preprocess cls self game_state status_source
       (DmgPEvent dmg) DMG_AMOUNT_MINUS = Some (new_item, new_self) ->
     exists d',
       new_item = DmgPEvent (SpecificDamageEffect.replace_damage dmg d') /\
       Z.min 0 (SpecificDamageEffect.damage dmg) <= d'
         <= SpecificDamageEffect.damage dmg /\
       match new_self with
       | None => True
       | Some s' =>
           UsageStatus.fields s' = UsageStatus.fields self /\
           0 <= UsageStatus.usages s' <= Z.max 0 (UsageStatus.usages self) /\
           (UsageStatus.AUTO_DESTROY (StackedShieldStatus.usage_class cls)
            = true -> 0 < UsageStatus.usages s')
       end).
Proof.
  unfold StackedShieldStatus.preprocess.
  destruct (StackedShieldStatus_preprocess_cases cls self game_state
              status_source dmg Hamount)
    as [[Hnone ->]|[->|(consumed & Hconsumed & Hd & ->)]].
  - split; [|done].
    intros Hfamily Hdmg HA. exfalso. destruct Hnone as [Hnone|[Hd Hnone]].
    + rewrite Hfamily in Hnone. discriminate.
    + destruct (ceil_div_spec (SpecificDamageEffect.damage dmg)
                  (StackedShieldStatus.SHIELD_AMOUNT cls))
        as (q & Hq & _); [lia|lia|]. congruence.
  - split; [by eexists|]. intros new_item new_self Hsome.
    apply (inj Some) in Hsome.
    apply UsageStatus_post_preprocess_inv in Hsome as [-> Hs].
    exists (SpecificDamageEffect.damage dmg). rewrite replace_damage_same.
    split; [done|]. split; [lia|].
    destruct new_self as [s'|]; [|done].
    destruct Hs as (H0 & Hauto & s & Hs & Hf & Hu). injection Hs as <-.
    split; [done|]. split; [lia|done].
  - split; [by eexists|]. intros new_item new_self Hsome.
    apply (inj Some) in Hsome.
    apply UsageStatus_post_preprocess_inv in Hsome as [-> Hs].
    eexists. split; [reflexivity|]. split; [nia|].
    destruct new_self as [s'|]; [|done].
    destruct Hs as (H0 & Hauto & s & Hs & Hf & Hu).
    destruct (_ =? 0); [discriminate|]. injection Hs as <-.
    cbn [UsageStatus.replace_usages UsageStatus.usages UsageStatus.fields]
      in Hf, Hu.
    split; [done|]. split; [lia|done].
Qed.

(** The ways [_preprocess] of a fixed shield can end where the damage is
    being lowered. *)
Lemma FixedShieldStatus_preprocess_cases (cls : FixedShieldStatus.Class F)
    self game_state status_source dmg :
  (ShieldStatus._is_target (FixedShieldStatus.family cls) game_state
     status_source dmg = None /\
   FixedShieldStatus._preprocess cls self game_state status_source
     (DmgPEvent dmg) DMG_AMOUNT_MINUS = None) \/
  FixedShieldStatus._preprocess cls self game_state status_source
    (DmgPEvent dmg) DMG_AMOUNT_MINUS = Some (DmgPEvent dmg, Some self) \/
  (0 < UsageStatus.usages self /\
   0 < SpecificDamageEffect.damage dmg /\
   FixedShieldStatus._preprocess cls self game_state status_source
     (DmgPEvent dmg) DMG_AMOUNT_MINUS
   = Some
       (DmgPEvent
          (SpecificDamageEffect.replace_damage dmg
             (Z.max 0 (SpecificDamageEffect.damage dmg
                       - FixedShieldStatus.SHIELD_AMOUNT cls))),
        if UsageStatus.AUTO_DESTROY (FixedShieldStatus.usage_class cls)
           && (UsageStatus.usages self - 1 =? 0)
        then None
        else Some (UsageStatus.replace_usages self
                     (UsageStatus.usages self - 1)))).
Proof.
  unfold FixedShieldStatus._preprocess, Status._preprocess.
  destruct (Z.ltb_spec 0 (SpecificDamageEffect.damage dmg)) as [Hd|Hd];
    cbn [andb]; [|right; left; reflexivity].
  destruct (Z.ltb_spec 0 (UsageStatus.usages self)) as [Hu|Hu];
    cbn [andb]; [|right; left; reflexivity].
  destruct (negb _); [|right; left; reflexivity].
  destruct (ShieldStatus._is_target _ _ _ _) as [[|]|];
    [|right; left; reflexivity|left; by split].
  destruct (FixedShieldStatus._triggering_condition _ _ _ _ _);
    [|right; left; reflexivity].
  right; right. split; [done|]. split; [done|].
  cbv zeta. by destruct (_ && _).
Qed.

(** X17.  Where a damage is being lowered, the one signal at which every
    fixed shield of the sources uses the template, a fixed shield whose
    [SHIELD_AMOUNT] is not negative never raises the damage and never
    changes what the damage is but its amount, whatever the target and
    the triggering condition; it never spends more than one usage, and a
    shield that stays has its other fields as they were, and usages left
    when it destroys itself.  Attached to a character it always
    answers. *)
Theorem FixedShieldStatus_preprocess_only_lowers
    (cls : FixedShieldStatus.Class F) self
    (game_state : GameState.t) (status_source : StaticTarget.t) dmg
    (Hamount : 0 <= FixedShieldStatus.SHIELD_AMOUNT cls) :
  (FixedShieldStatus.family cls = Status.PersonalStatus ->
   is_Some (FixedShieldStatus.preprocess cls self game_state status_source
              (DmgPEvent dmg) DMG_AMOUNT_MINUS)) /\
  (forall new_item new_self,
     FixedShieldStatus.preprocess cls self game_state status_source
       (DmgPEvent dmg) DMG_AMOUNT_MINUS = Some (new_item, new_self) ->
     exists d',
       new_item = DmgPEvent (SpecificDamageEffect.replace_damage dmg d') /\
       Z.min 0 (SpecificDamageEffect.damage dmg) <= d'
         <= SpecificDamageEffect.damage dmg /\
       match new_self with
       | None => True
       | Some s' =>
           UsageStatus.fields s' = UsageStatus.fields self /\
           UsageStatus.usages self - 1 <= UsageStatus.usages s'
             <= Z.max 0 (UsageStatus.usages self) /\
           0 <= UsageStatus.usages s' /\
           (UsageStatus.AUTO_DESTROY (FixedShieldStatus.usage_class cls)
            = true -> 0 < UsageStatus.usages s')
       end).
Proof.
  unfold FixedShieldStatus.preprocess.
  destruct (FixedShieldStatus_preprocess_cases cls self game_state
              status_source dmg)
    as [[Hnone ->]|[->|(Hu & Hd & ->)]].
  - split; [|done].
    intros Hfamily. rewrite Hfamily in Hnone. discriminate.
  - split; [by eexists|]. intros new_item new_self Hsome.
    apply (inj Some) in Hsome.
    apply UsageStatus_post_preprocess_inv in Hsome as [-> Hs].
    exists (SpecificDamageEffect.damage dmg). rewrite replace_damage_same.
    split; [done|]. split; [lia|].
    destruct new_self as [s'|]; [|done].
    destruct Hs as (H0 & Hauto & s & Hs & Hf & Hu'). injection Hs as <-.
    split; [done|]. split; [lia|]. split; [lia|done].
  - split; [by eexists|]. intros new_item new_self Hsome.
    apply (inj Some) in Hsome.
    apply UsageStatus_post_preprocess_inv in Hsome as [-> Hs].
    eexists. split; [reflexivity|]. split; [lia|].
    destruct new_self as [s'|]; [|done].
    destruct Hs as (H0 & Hauto & s & Hs & Hf & Hu').
    destruct (_ && _); [discriminate|]. injection Hs as <-.
    cbn [UsageStatus.replace_usages UsageStatus.usages UsageStatus.fields]
      in Hf, Hu'.
    split; [done|]. split; [lia|]. split; [lia|done].
Qed.

End ShieldInvariants.

(** A crab shield and a lotus shield on player 1's active character. *)
Lemma StackedShieldStatus_preprocess_only_lowers_witness :
  is_Some
    (StackedShieldStatus.preprocess StackedShieldStatus.ButterCrabStatus
       (UsageStatus.mk 1 tt) board (StaticTarget.mk P1 CHARACTERS 1)
       (DmgPEvent (hit PYRO 3)) DMG_AMOUNT_MINUS).
Proof.
  apply StackedShieldStatus_preprocess_only_lowers;
    [simpl; lia|reflexivity|reflexivity|reflexivity].
Defined.

Lemma FixedShieldStatus_preprocess_only_lowers_witness :
  is_Some
    (FixedShieldStatus.preprocess FixedShieldStatus.LotusFlowerCrispStatus
       (UsageStatus.mk 1 tt) board (StaticTarget.mk P1 CHARACTERS 1)
       (DmgPEvent (hit PYRO 3)) DMG_AMOUNT_MINUS).
Proof.
  apply FixedShieldStatus_preprocess_only_lowers;
    [simpl; lia|reflexivity].
Defined.

(** ** Statuses through a run of signals *)

Lemma status_after_all_app {S : Type} (cls : Status.Class S) (self : S)
    game_state source (signals1 signals2 : list TriggeringSignal) :
  status_after_all cls self game_state source (signals1 ++ signals2)
  = status_after_all cls self game_state source signals1
      ≫= fun s => status_after_all cls s game_state source signals2.
Proof.
  revert self. induction signals1 as [|signal rest IH]; intros self; [done|].
  cbn [app status_after_all].
  destruct (status_after cls self game_state source signal None); [|done].
  apply IH.
Qed.

Section HiddenStatusFacts.
Import PlungeAttackStatus.

Lemma PlungeAttackStatus_status_after (self : t) game_state source signal :
  status_after class self game_state source signal None
  = Some (mk match signal with
             | SELF_SWAP => true
             | POST_SKILL | ROUND_END => false
             | _ => can_plunge self
             end).
Proof. by destruct self as [[|]], signal. Qed.

(** X18.  [PlungeAttackStatus] is never removed, and after any run of
    signals a plunge attack is possible exactly when the last of the
    swaps, skills and round ends among them was a swap: a swap sets the
    flag, a skill or the end of the round clears it, and no other signal
    touches it. *)
Theorem PlungeAttackStatus_tracks_last_swap (self : t)
    (game_state : GameState.t) (source : StaticTarget.t)
    (signals : list TriggeringSignal) (signal : TriggeringSignal) :
  exists s,
    status_after_all class self game_state source signals = Some s /\
    status_after_all class self game_state source (signals ++ [signal])
    = Some (mk match signal with
               | SELF_SWAP => true
               | POST_SKILL | ROUND_END => false
               | _ => can_plunge s
               end).
Proof.
  assert (Hlives : forall signals self,
             is_Some (status_after_all class self game_state source signals)).
  { clear. intros signals. induction signals as [|signal rest IH];
      intros self; [by eexists|].
    cbn [status_after_all]. rewrite PlungeAttackStatus_status_after.
    apply IH. }
  destruct (Hlives signals self) as [s Hs]. exists s. split; [exact Hs|].
  rewrite status_after_all_app, Hs. cbn [mbind option_bind status_after_all].
  by rewrite PlungeAttackStatus_status_after.
Qed.

End HiddenStatusFacts.

Section FrozenFacts.
Import FrozenStatus.

(** X19.  A frozen character thaws at the end of the round and not
    before, whatever other signals come; and the one damage the status
    changes is a Pyro or Physical damage aimed at its own character as
    the damage is being raised: that damage gets 2 more and removes the
    status, every other one passes as it is and leaves the status. *)
Theorem FrozenStatus_thaws (self : t) (game_state : GameState.t)
    (source : StaticTarget.t) (signals : list TriggeringSignal)
    (dmg : SpecificDamageEffect.t) (signal : Preprocessables) :
  status_after_all class self game_state source signals
  = (if existsb (fun s => match s with ROUND_END => true | _ => false end)
          signals
     then None else Some self) /\
  exists new_self,
    preprocess self game_state source (DmgPEvent dmg) signal
    = Some (DmgPEvent
              (SpecificDamageEffect.replace_damage dmg
                 (SpecificDamageEffect.damage dmg
                  + if new_self is None then 2 else 0)),
            new_self) /\
    (new_self = None <->
     signal = DMG_AMOUNT_PLUS /\
     SpecificDamageEffect.target dmg = source /\
     (SpecificDamageEffect.element dmg = PYRO \/
      SpecificDamageEffect.element dmg = PHYSICAL)).
Proof.
  split.
  - induction signals as [|s rest IH]; [done|].
    cbn [status_after_all existsb]. destruct self.
    destruct s; cbn [orb]; try exact IH; done.
  - unfold preprocess, _preprocess, Status._preprocess, Status._post_preprocess.
    assert (Hpass : Some (DmgPEvent dmg, Some self)
                    = Some (DmgPEvent
                              (SpecificDamageEffect.replace_damage dmg
                                 (SpecificDamageEffect.damage dmg + 0)),
                            Some self)).
    { by rewrite Z.add_0_r, replace_damage_same. }
    destruct signal;
      try (exists (Some self); split; [exact Hpass|];
           split; [discriminate|intros (? & _); discriminate]).
    destruct (StaticTarget.eqb _ _) eqn:Htarget; cbn [andb].
    + apply StaticTarget_eqb_eq in Htarget.
      destruct (SpecificDamageEffect.element dmg) eqn:He; cbn [Element_eqb orb];
        try (exists (Some self); split; [exact Hpass|];
             split; [discriminate|intros (_ & _ & [?|?]); discriminate]);
        (exists None; split; [reflexivity|]; split; [|done]; intros _;
         split; [done|]; split; [done|]; by (left + right)).
    + exists (Some self). split; [exact Hpass|].
      split; [discriminate|]. intros (_ & Heq & _).
      apply StaticTarget_eqb_eq in Heq. congruence.
Qed.

End FrozenFacts.

Section SummonFacts.
Import DmgPerRoundSummon.

Variables budget_post_effect standard_post_effects :
  GameState.t -> Pid -> bool -> list (Effect (UsageStatus.t unit)).

Lemma UsageStatus_update_spend (cls : UsageStatus.Class) (usages : Z) :
  UsageStatus.AUTO_DESTROY cls = true ->
  UsageStatus.update cls (UsageStatus.mk usages tt) (UsageStatus.mk (-1) tt)
  = if usages <=? 1 then None else Some (UsageStatus.mk (usages - 1) tt).
Proof.
  intros Hauto.
  unfold UsageStatus.update, UsageStatus._update, UsageStatus._post_update,
    Status._post_update.
  cbn [UsageStatus.replace_usages UsageStatus.usages UsageStatus.fields].
  rewrite Hauto. cbn [andb].
  replace (Z.min (usages + -1)
             (Z.max (Z.max usages (-1)) (UsageStatus.MAX_USAGES cls)))
    with (usages - 1) by lia.
  destruct (Z.leb_spec (usages - 1) 0), (Z.leb_spec usages 1); try lia;
    [done|].
  destruct (Z.ltb_spec (usages - 1) 0); [lia|done].
Qed.

Lemma DmgPerRoundSummon_status_after (cls : Class) (usages : Z)
    game_state source :
  UsageStatus.AUTO_DESTROY (usage_class cls) = true ->
  status_after (class cls) (UsageStatus.mk usages tt) game_state source
    END_ROUND_CHECK_OUT None
  = if usages <=? 1 then None else Some (UsageStatus.mk (usages - 1) tt).
Proof.
  intros Hauto. unfold status_after.
  cbn [class Status._react_to_signal _react_to_signal Z.eqb
       Status._post_react_to_signal Status._AUTO_REUSE_SAME_UPDATE snd
       Status.update UsageStatus.replace_usages UsageStatus.fields].
  by apply UsageStatus_update_spend.
Qed.

(** X20.  A summon that deals damage every round and destroys itself
    lasts as many rounds as it has usages: at each end of a round it
    emits its damage at the opposing active character, then the update
    of itself by one usage less, then the checkers of a reaction with
    damage; after [n] round ends it has [n] usages less, and it is gone
    once they are spent. *)
Theorem DmgPerRoundSummon_lasts_usages (cls : Class) (usages : Z) (n : nat)
    (game_state : GameState.t) (source : StaticTarget.t)
    (Hauto : UsageStatus.AUTO_DESTROY (usage_class cls) = true)
    (Husages : 1 <= usages) :
  Status.react_to_signal budget_post_effect standard_post_effects (class cls)
    (UsageStatus.mk usages tt) game_state source END_ROUND_CHECK_OUT None
  = Some (ReferredDamageEffect source OPPO_ACTIVE (ELEMENT cls) (DMG cls)
            summon_damage
          :: UpdateSummonEffect (StaticTarget.pid source)
               (UsageStatus.mk (-1) tt)
          :: standard_post_effects game_state (StaticTarget.pid source) true)
  /\
  status_after_all (class cls) (UsageStatus.mk usages tt) game_state source
    (replicate n END_ROUND_CHECK_OUT)
  = if Z.of_nat n <? usages
    then Some (UsageStatus.mk (usages - Z.of_nat n) tt) else None.
Proof.
  split.
  - unfold Status.react_to_signal.
    cbn [class Status._react_to_signal _react_to_signal Z.eqb
         Status._post_react_to_signal Status._AUTO_REUSE_SAME_UPDATE
         UsageStatus.replace_usages UsageStatus.fields].
    unfold Status.removal_or_update, Status.update_differs.
    cbn [class Status.family Status.update Status.__eq__
         Status._post_update_react_to_signal].
    rewrite UsageStatus_update_spend by done.
    assert (Hdiffers :
              match (if usages <=? 1 then None
                     else Some (UsageStatus.mk (usages - 1) tt)) with
              | Some s' => negb (UsageStatus.usages s' =? usages)
              | None => true
              end = true).
    { destruct (Z.leb_spec usages 1); [done|]. cbn [UsageStatus.usages].
      destruct (Z.eqb_spec (usages - 1) usages); [lia|done]. }
    cbn [UsageStatus.usages] in *. rewrite Hdiffers. reflexivity.
  - revert usages Husages. induction n as [|n IH]; intros usages Husages.
    + cbn [replicate status_after_all].
      destruct (Z.ltb_spec (Z.of_nat 0) usages); [|lia].
      do 2 f_equal. lia.
    + cbn [replicate status_after_all].
      rewrite DmgPerRoundSummon_status_after by done.
      destruct (Z.leb_spec usages 1).
      * destruct (Z.ltb_spec (Z.of_nat (S n)) usages); [lia|done].
      * rewrite IH by lia.
        destruct (Z.ltb_spec (Z.of_nat n) (usages - 1)),
          (Z.ltb_spec (Z.of_nat (S n)) usages); try lia; [|done].
        do 2 f_equal. lia.
Qed.

End SummonFacts.

(** A burning flame of two usages is gone after two rounds. *)
Lemma DmgPerRoundSummon_lasts_usages_witness :
  status_after_all
    (DmgPerRoundSummon.class DmgPerRoundSummon.BurningFlameSummon)
    (UsageStatus.mk 2 tt) board (StaticTarget.mk P1 SUMMONS 0)
    [END_ROUND_CHECK_OUT; END_ROUND_CHECK_OUT]
  = None.
Proof.
  destruct (DmgPerRoundSummon_lasts_usages (fun _ _ _ => []) (fun _ _ _ => [])
              DmgPerRoundSummon.BurningFlameSummon 2 2 board
              (StaticTarget.mk P1 SUMMONS 0) eq_refl ltac:(lia))
    as [_ Hrun].
  exact Hrun.
Defined.

Section CatalyzingFieldFacts.
Import CatalyzingFieldStatus.

(** X21.  [CatalyzingFieldStatus] spends a usage for every point of
    damage it adds and for nothing else: with a usage left it answers
    every damage, adding 1 exactly to an Electro or Dendro damage of its
    own side that can be boosted and is aimed at an active character as
    the damage is being raised, and it is removed when the last usage is
    spent; without a usage left it raises at that signal. *)
Theorem CatalyzingFieldStatus_spends_what_it_adds
    (self : t) (game_state : GameState.t) (status_source : StaticTarget.t)
    (dmg : SpecificDamageEffect.t) (signal : Preprocessables)
    (active : Character.t)
    (Hactive :
       PlayerState.get_active_character
         (GameState.get_player game_state
            (StaticTarget.pid (SpecificDamageEffect.target dmg)))
       = Some active) :
  (usages self < 1 ->
   preprocess self game_state status_source (DmgPEvent dmg) DMG_AMOUNT_PLUS
   = None) /\
  (1 <= usages self ->
   exists boost,
     (boost = 0 \/ boost = 1) /\
     preprocess self game_state status_source (DmgPEvent dmg) signal
     = Some (DmgPEvent
               (SpecificDamageEffect.replace_damage dmg
                  (SpecificDamageEffect.damage dmg + boost)),
             if usages self - boost =? 0 then None
             else Some (mk (usages self - boost))) /\
     (boost = 1 <->
      signal = DMG_AMOUNT_PLUS /\
      (SpecificDamageEffect.element dmg = ELECTRO \/
       SpecificDamageEffect.element dmg = DENDRO) /\
      StaticTarget.pid status_source
      = StaticTarget.pid (SpecificDamageEffect.source dmg) /\
      DamageType.can_boost (SpecificDamageEffect.damage_type dmg) = true /\
      StaticTarget.id (SpecificDamageEffect.target dmg)
      = Character.id active)).
Proof.
  unfold preprocess, _preprocess, PlayerState.just_get_active_character,
    Status._preprocess, Status._post_preprocess.
  split.
  - intros Hnone. destruct (Z.leb_spec 1 (usages self)); [lia|done].
  - intros Husages.
    assert (Hpass :
              Some (DmgPEvent dmg, Some self)
              = Some (DmgPEvent
                        (SpecificDamageEffect.replace_damage dmg
                           (SpecificDamageEffect.damage dmg + 0)),
                      if usages self - 0 =? 0 then None
                      else Some (mk (usages self - 0)))).
    { rewrite Z.add_0_r, Z.sub_0_r, replace_damage_same.
      destruct (Z.eqb_spec (usages self) 0); [lia|]. by destruct self. }
    destruct signal;
      try (exists 0; split; [by left|]; split; [exact Hpass|];
           split; [discriminate|intros (? & _); discriminate]).
    rewrite Hactive. destruct (Z.leb_spec 1 (usages self)); [|lia].
    destruct (Element_eqb (SpecificDamageEffect.element dmg) ELECTRO
              || Element_eqb (SpecificDamageEffect.element dmg) DENDRO)
      eqn:Helem; cbn [andb].
    2:{ exists 0. split; [by left|]. split; [exact Hpass|].
        split; [discriminate|]. intros (_ & [He|He] & _);
          rewrite He in Helem; discriminate. }
    destruct (Pid_eqb _ _) eqn:Hpid; cbn [andb].
    2:{ exists 0. split; [by left|]. split; [exact Hpass|].
        split; [discriminate|]. intros (_ & _ & Hp & _).
        apply Pid_eqb_eq in Hp. congruence. }
    destruct (DamageType.can_boost _) eqn:Hboost; cbn [andb].
    2:{ exists 0. split; [by left|]. split; [exact Hpass|].
        split; [discriminate|]. intros (_ & _ & _ & Hb & _). discriminate. }
    destruct (Z.eqb_spec (StaticTarget.id (SpecificDamageEffect.target dmg))
                (Character.id active)) as [Hid|Hid].
    2:{ exists 0. split; [by left|]. split; [exact Hpass|].
        split; [discriminate|]. intros (_ & _ & _ & _ & Hi). done. }
    exists 1. split; [by right|]. split.
    + unfold damage_boost.
      destruct (Z.eqb_spec (usages self) 1), (Z.eqb_spec (usages self - 1) 0);
        try lia; done.
    + split; [|done]. intros _. split; [done|]. split.
      * apply orb_true_iff in Helem as [He|He]; apply Element_eqb_eq in He;
          by (left + right).
      * split; [by apply Pid_eqb_eq|]. by split.
Qed.

(** A field of two usages raises an Electro hit on the active character
    and keeps one usage. *)
Lemma CatalyzingFieldStatus_spends_witness :
  preprocess default board (StaticTarget.mk P1 COMBAT_STATUSES 0)
    (DmgPEvent (strike P2 ELECTRO 2 DamageType.default)) DMG_AMOUNT_PLUS
  = Some (DmgPEvent (strike P2 ELECTRO 3 DamageType.default), Some (mk 1)).
Proof.
  destruct (CatalyzingFieldStatus_spends_what_it_adds default board
              (StaticTarget.mk P1 COMBAT_STATUSES 0)
              (strike P2 ELECTRO 2 DamageType.default) DMG_AMOUNT_PLUS
              (Character.mk 1 10 10 true 0 3) eq_refl) as [_ Hboost].
  destruct Hboost as (boost & _ & Hpre & Hiff); [simpl; lia|].
  assert (boost = 1) as ->.
  { apply Hiff. split; [done|]. split; [by left|]. by repeat split. }
  rewrite Hpre. reflexivity.
Defined.

End CatalyzingFieldFacts.

(** * More of [event/effect.py] (the early engine) *)

Section SwapFacts.
Import EventEffect EventEffect.SwapCharacterEffect.

(** X22.  [SwapCharacterEffect] between two different characters of one
    player executes and makes the target the active character: the
    characters themselves, the player's phase and cards and the other
    player are as they were, and when the source was the active
    character, swapping back gives the state before.  A swap of a
    character with itself raises. *)
Theorem SwapCharacterEffect_execute_swaps
    (self : t) (game_state : GameState.t)
    (Hpid : pid (source self) = pid (target self))
    (Hsource : zone (source self) = CHARACTER)
    (Htarget : zone (target self) = CHARACTER)
    (Hid : id (source self) <> id (target self)) :
  (exists game_state',
     execute self game_state = Some game_state' /\
     let p := GameState.get_player game_state (pid (source self)) in
     let p' := GameState.get_player game_state' (pid (source self)) in
     Characters.active_character_id (PlayerState.characters p')
     = Some (id (target self)) /\
     Characters.characters (PlayerState.characters p')
     = Characters.characters (PlayerState.characters p) /\
     PlayerState.phase p' = PlayerState.phase p /\
     PlayerState.hand_cards p' = PlayerState.hand_cards p /\
     PlayerState.deck_cards p' = PlayerState.deck_cards p /\
     GameState.get_player game_state' (Pid_other (pid (source self)))
     = GameState.get_player game_state (Pid_other (pid (source self))) /\
     (Characters.active_character_id (PlayerState.characters p)
      = Some (id (source self)) ->
      execute (mk (target self) (source self)) game_state'
      = Some game_state)) /\
  execute (mk (source self) (source self)) game_state = None.
Proof.
  split.
  - unfold execute at 1. rewrite Hpid, Hsource, Htarget.
    replace (Pid_eqb _ _) with true by (symmetry; by apply Pid_eqb_eq).
    destruct (Z.eqb_spec (id (source self)) (id (target self))); [done|].
    cbn [andb negb Zone_eqb]. eexists. split; [reflexivity|].
    rewrite !get_player_player, <- Hpid, get_player_player_other.
    cbn [PlayerState.set_characters PlayerState.characters
         Characters.active_character_id Characters.characters
         PlayerState.phase PlayerState.hand_cards PlayerState.deck_cards].
    repeat (split; [done|]).
    intros Hactive. unfold execute.
    cbn [source target]. rewrite <- Hpid, Hsource, Htarget.
    replace (Pid_eqb _ _) with true by (symmetry; by apply Pid_eqb_eq).
    destruct (Z.eqb_spec (id (target self)) (id (source self))); [lia|].
    cbn [andb negb Zone_eqb]. f_equal.
    rewrite get_player_player.
    destruct game_state as [[ph1 [l1 a1] h1 d1 n1] [ph2 [l2 a2] h2 d2 n2]].
    destruct (pid (source self));
      cbn [GameState.get_player GameState.player GameState.player1
           GameState.player2 PlayerState.set_characters
           PlayerState.characters Characters.characters
           Characters.active_character_id PlayerState.phase
           PlayerState.hand_cards PlayerState.deck_cards
           PlayerState.card_redraw_chances] in *;
      by rewrite Hactive.
  - unfold execute. cbn [source target]. rewrite Z.eqb_refl.
    cbn [negb]. by rewrite andb_false_r.
Qed.

(** Player 1 swaps from character 1 to character 2 and back. *)
Lemma SwapCharacterEffect_execute_witness :
  execute (mk (mkStaticTarget P1 CHARACTER 1) (mkStaticTarget P1 CHARACTER 2))
    board
    ≫= execute (mk (mkStaticTarget P1 CHARACTER 2)
                  (mkStaticTarget P1 CHARACTER 1))
  = Some board.
Proof.
  destruct (SwapCharacterEffect_execute_swaps
              (mk (mkStaticTarget P1 CHARACTER 1)
                  (mkStaticTarget P1 CHARACTER 2)) board)
    as [(game_state' & -> & _ & _ & _ & _ & _ & _ & Hback) _];
    try reflexivity; try (simpl; lia).
  cbn [mbind option_bind]. apply Hback. reflexivity.
Defined.

End SwapFacts.

Section DeathCheckFacts.
Import EventEffect EventEffect.DeathCheckCheckerEffect.

(** X23.  [DeathCheckCheckerEffect] raises exactly when a side has no
    active character.  Otherwise, with no active character defeated the
    state comes back as it is and nothing is pushed; with one defeated,
    that character's player is set to act and the other to wait, player
    1 going first when both are defeated, and the two death-swap effects
    are pushed; the characters and the cards of both players are never
    touched. *)
Theorem DeathCheckCheckerEffect_execute_phases
    (defeated : Character.t -> bool) (game_state : GameState.t) :
  let active pid :=
    Characters.get_active_character
      (PlayerState.characters (GameState.get_player game_state pid)) in
  (execute defeated game_state = None <->
   active P1 = None \/ active P2 = None) /\
  (forall p1_character p2_character,
     active P1 = Some p1_character -> active P2 = Some p2_character ->
     exists game_state' effects,
       execute defeated game_state = Some (game_state', effects) /\
       (defeated p1_character = false -> defeated p2_character = false ->
        game_state' = game_state /\ effects = []) /\
       (forall pid,
          (if defeated p1_character then pid = P1
           else defeated p2_character = true /\ pid = P2) ->
          PlayerState.phase (GameState.get_player game_state' pid)
          = ACTION_PHASE /\
          PlayerState.phase (GameState.get_other_player game_state' pid)
          = PASSIVE_WAIT_PHASE /\
          effects = [DeathSwapPhaseStartEffect; DeathSwapPhaseEndEffect]) /\
       (forall pid,
          PlayerState.characters (GameState.get_player game_state' pid)
          = PlayerState.characters (GameState.get_player game_state pid) /\
          PlayerState.hand_cards (GameState.get_player game_state' pid)
          = PlayerState.hand_cards (GameState.get_player game_state pid) /\
          PlayerState.deck_cards (GameState.get_player game_state' pid)
          = PlayerState.deck_cards (GameState.get_player game_state pid))).
Proof.
  intros active. subst active. cbn [GameState.get_player].
  unfold execute. split.
  - destruct (Characters.get_active_character _) as [c1|];
      [|split; [by left|done]].
    destruct (Characters.get_active_character _) as [c2|];
      [|split; [by right|done]].
    split; [|by intros [?|?]].
    by destruct (defeated c1), (defeated c2).
  - intros c1 c2 -> ->.
    destruct (defeated c1) eqn:H1; [|destruct (defeated c2) eqn:H2].
    + do 2 eexists. split; [reflexivity|]. split; [done|]. split.
      * intros pid ->. done.
      * by intros [].
    + do 2 eexists. split; [reflexivity|]. split; [done|]. split.
      * intros pid [_ ->]. done.
      * by intros [].
    + do 2 eexists. split; [reflexivity|]. split; [done|]. split.
      * intros pid [? _]. done.
      * by intros [].
Qed.

End DeathCheckFacts.

Section DamageComposition.
Import EventEffect EventEffect.DamageEffect.

Lemma set_hp_set_hp (h h' : Z) (c : Character.t) :
  Character.set_hp h' (Character.set_hp h c) = Character.set_hp h' c.
Proof. done. Qed.

Lemma character_character cs i c c' c'' :
  Characters.get_character cs i = Some c ->
  Character.id c' = Character.id c -> Character.id c'' = Character.id c ->
  Characters.character c'' (Characters.character c' cs)
  = Characters.character c'' cs.
Proof.
  intros Hget Hid' Hid''.
  destruct (get_character_split cs i c Hget) as (Hi & l1 & l2 & Hl & Hl1).
  unfold Characters.character. cbn [Characters.characters
                                    Characters.active_character_id].
  f_equal. rewrite Hl.
  assert (Hl1' : forall x : Character.t, Character.id x = i ->
            Forall (fun y => Character.id y <> Character.id x) l1).
  { intros x Hx. eapply Forall_impl; [exact Hl1|]. simpl. intros y Hy. lia. }
  rewrite (replace_by_id_app c c' l1 l2) by (try apply Hl1'; lia).
  rewrite (replace_by_id_app c' c'' l1 l2) by (try apply Hl1'; lia).
  by rewrite (replace_by_id_app c c'' l1 l2) by (try apply Hl1'; lia).
Qed.

(** X24.  Two damage effects of one side executed one after the other
    do what one effect of the summed damage does, provided the second
    damage is not negative: the HP lost adds up, the floor of 0 is
    applied once, and the two raise together when the one does. *)
Theorem DamageEffect_execute_adds_up (self other : t)
    (game_state : GameState.t)
    (Hpid : pid (source other) = pid (source self))
    (Htarget : target other = target self)
    (Hdamage : 0 <= damage other) :
  execute self game_state ≫= execute other
  = execute (mk (source self) (target self) (element self)
               (damage self + damage other)) game_state.
Proof.
  unfold execute. cbn [source target damage]. rewrite Hpid, Htarget.
  destruct (target self) eqn:Hself; try done.
  destruct (Characters.get_active_character
              (PlayerState.characters
                 (GameState.get_other_player game_state (pid (source self)))))
    as [opponent|] eqn:Hactive; [|done].
  cbn [mbind option_bind].
  rewrite get_other_player_other_player.
  cbn [PlayerState.set_characters PlayerState.characters].
  unfold Characters.get_active_character in *.
  destruct (Characters.active_character_id
              (PlayerState.characters
                 (GameState.get_other_player game_state (pid (source self)))))
    as [i|] eqn:Hi; [|discriminate].
  set (cs := PlayerState.characters
               (GameState.get_other_player game_state (pid (source self))))
    in *.
  set (opponent' := Character.set_hp
                      (Z.max 0 (Character.hp opponent - damage self)) opponent).
  destruct (character_replaces cs i opponent opponent' Hactive eq_refl)
    as (l1 & l2 & Hl & Hl' & Hid & Hget).
  rewrite Hid, Hi, Hget. f_equal.
  rewrite (character_character cs i opponent) by done.
  subst opponent'. rewrite set_hp_set_hp. cbn [Character.set_hp Character.hp].
  replace (Z.max 0 (Z.max 0 (Character.hp opponent - damage self)
                    - damage other))
    with (Z.max 0 (Character.hp opponent - (damage self + damage other)))
    by lia.
  destruct game_state as [p1 p2]. unfold GameState.other_player.
  by destruct (pid (source self)).
Qed.

(** Two hits of 2 and 3 on the wounded board are one hit of 5. *)
Lemma DamageEffect_execute_adds_up_witness :
  let hit2 := mk (mkStaticTarget P1 CHARACTER 1) OPPO_ACTIVE PYRO 2 in
  let hit3 := mk (mkStaticTarget P1 CHARACTER 1) OPPO_ACTIVE PYRO 3 in
  let hit5 := mk (mkStaticTarget P1 CHARACTER 1) OPPO_ACTIVE PYRO 5 in
  execute hit2 wounded_board ≫= execute hit3 = execute hit5 wounded_board.
Proof.
  intros hit2 hit3 hit5.
  apply (DamageEffect_execute_adds_up hit2 hit3 wounded_board);
    [reflexivity|reflexivity|simpl; lia].
Defined.

End DamageComposition.
